(** * Swetrix analytics: controller and dashboard filter helpers

    A shallow embedding of

    - the analytics controller ([getPIDsArray], [getEIDsArray],
      [isPerformanceValid], [getData], [getChartData], [getPerfData],
      [getPerfChartData], [getCustomEvents], [getOverallStats],
      [getPerformanceOverallStats], [getLiveVisitors], [log], [logCustom],
      [noscript], [getSessions], [getErrors], [patchStatus]), and
    - the dashboard's filter helpers ([filterInvalidViewPrefs],
      [isFilterValid], [applyFilters], [handleNavigationParams],
      [updateFilterState], [parseFiltersFromUrl]),

    followed by the properties established about them.  JavaScript strings
    are modelled as [string], arrays as [list], [undefined] as [None];
    exceptions are an explicit error result; the volatile key-value store and
    the columnar store are fields of an explicit [World]. *)

From Stdlib Require Import ZArith List String Ascii Bool Lia.
From stdpp Require Import gmap strings pretty.
Import ListNotations.

Local Open Scope string_scope.
Local Open Scope list_scope.

(** ** The lodash and built-in string helpers the sources call *)

Module Lodash.

(** [_startsWith(string, target)] *)
Definition _startsWith (s target : string) : bool := String.prefix target s.

(** [_includes(string, target)]: [string.indexOf(target) > -1]. *)
Fixpoint str_includes (s target : string) : bool :=
  String.prefix target s
  || match s with
     | EmptyString => false
     | String _ s' => str_includes s' target
     end.

(** [string.substring(n)] *)
Fixpoint substring_from (n : nat) (s : string) : string :=
  match n, s with
  | O, _ => s
  | S _, EmptyString => EmptyString
  | S n', String _ s' => substring_from n' s'
  end.

(** [_replace(string, pattern, replacement)] with a string pattern: only the
    first occurrence is replaced. *)
Fixpoint _replace (s pattern replacement : string) : string :=
  if String.prefix pattern s
  then replacement +:+ substring_from (String.length pattern) s
  else match s with
       | EmptyString => EmptyString
       | String c s' => String c (_replace s' pattern replacement)
       end.

(** Whether a character occurs in a string. *)
Fixpoint occurs (a : ascii) (s : string) : bool :=
  match s with
  | EmptyString => false
  | String c s' => Ascii.eqb a c || occurs a s'
  end.

(** [_includes(array, value)] on an array of strings. *)
Definition _includes (collection : list string) (value : string) : bool :=
  existsb (String.eqb value) collection.

(** [_includes(array, value)] where [value] may be [undefined]: an array of
    strings never holds [undefined]. *)
Definition _includes_opt (collection : list string) (value : option string) : bool :=
  match value with
  | Some v => _includes collection v
  | None => false
  end.

(** [_some(array, predicate)] *)
Definition _some {A} (collection : list A) (predicate : A -> bool) : bool :=
  existsb predicate collection.

(** [_isEmpty] on an optional string ([undefined] and [''] are empty). *)
Definition _isEmpty_str (v : option string) : bool :=
  match v with
  | None => true
  | Some s => String.eqb s ""
  end.

(** [a || b] on optional strings: [undefined] and [''] are falsy. *)
Definition js_or (a b : option string) : option string :=
  if _isEmpty_str a then b else a.

End Lodash.

(** ** Dashboard: [web/app/pages/Project/View/utils/filters.tsx] *)

Module Filters.
Import Lodash.

(** [IFilter.filter] is a string or an array of strings. *)
Inductive FilterValue :=
| FStr (s : string)
| FArr (l : list string).

Record IFilter := mkFilter {
  column : string;
  filter : FilterValue;
  isExclusive : bool
}.

Definition validFilters : list string :=
  [ "cc"; "rg"; "ct"; "pg"; "lc"; "ref"; "dv"; "br"; "os"; "so"; "me"; "ca";
    "ev"; "tag:key"; "tag:value"; "ev:key"; "ev:value" ].

Definition validDynamicFilters : list string := [ "ev:key:"; "tag:key:" ].

(** [isFilterValid(filter, checkDynamicFilters = false)] *)
Definition isFilterValid (filter : string) (checkDynamicFilters : bool) : bool :=
  if _includes validFilters filter then true
  else if checkDynamicFilters
          && _some validDynamicFilters (fun prefix => _startsWith filter prefix)
       then true
       else false.

(** [URLSearchParams]: an ordered list of key/value pairs, duplicates kept. *)
Definition URLSearchParams := list (string * string).

Definition sp_has (sp : URLSearchParams) (k : string) : bool :=
  existsb (fun kv => String.eqb (fst kv) k) sp.

Definition sp_delete (sp : URLSearchParams) (k : string) : URLSearchParams :=
  List.filter (fun kv => negb (String.eqb (fst kv) k)) sp.

Definition sp_append (sp : URLSearchParams) (k v : string) : URLSearchParams :=
  sp ++ [(k, v)].

(** [!item.filter]: the empty string is falsy, every array is truthy. *)
Definition filter_falsy (v : FilterValue) : bool :=
  match v with
  | FStr s => String.eqb s ""
  | FArr _ => false
  end.

(** [Array.isArray(item.filter) ? item.filter : [item.filter]] *)
Definition filter_list (v : FilterValue) : list string :=
  match v with
  | FStr s => [s]
  | FArr l => l
  end.

(** One iteration of the [items.forEach] of [applyFilters]; the state is the
    pair of [filtersToLoad] and the (mutated) [searchParams]. *)
Definition applyFilters_item (suffix : string) (override : bool)
    (st : list IFilter * URLSearchParams) (item : IFilter)
    : list IFilter * URLSearchParams :=
  let '(filtersToLoad, searchParams) := st in
  if filter_falsy (filter item) then st
  else
    let filters := filter_list (filter item) in
    if Nat.eqb (List.length filters) 0 then st
    else
      let columnSuffix := column item +:+ suffix in
      let searchParams' :=
        if override || negb (sp_has searchParams columnSuffix)
        then fold_left (fun sp f => sp_append sp columnSuffix f) filters
                       (sp_delete searchParams columnSuffix)
        else searchParams in
      (filtersToLoad ++ [item], searchParams').

Definition applyFilters (items : list IFilter) (suffix : string)
    (searchParams : URLSearchParams) (override : bool)
    : list IFilter * URLSearchParams :=
  fold_left (applyFilters_item suffix override) items ([], searchParams).

(** [f.filter === filter] for a string [filter]. *)
Definition filter_is (v : FilterValue) (x : string) : bool :=
  match v with
  | FStr s => String.eqb s x
  | FArr _ => false
  end.

(** [filters.findIndex(f => f.filter === filter)] *)
Fixpoint findIndex (filters : list IFilter) (x : string) : option nat :=
  match filters with
  | [] => None
  | f :: rest =>
      if filter_is (filter f) x then Some 0
      else option_map S (findIndex rest x)
  end.

(** [filters.filter((_, index) => index !== i)] *)
Fixpoint remove_at {A} (i : nat) (l : list A) : list A :=
  match l, i with
  | [], _ => []
  | _ :: rest, O => rest
  | x :: rest, S i' => x :: remove_at i' rest
  end.

Definition FilterValue_eqb (a b : FilterValue) : bool :=
  match a, b with
  | FStr s, FStr t => String.eqb s t
  | FArr l, FArr m =>
      Nat.eqb (List.length l) (List.length m)
      && forallb (fun p => String.eqb (fst p) (snd p)) (combine l m)
  | _, _ => false
  end.

Definition IFilter_eqb (a b : IFilter) : bool :=
  String.eqb (column a) (column b)
  && FilterValue_eqb (filter a) (filter b)
  && Bool.eqb (isExclusive a) (isExclusive b).

(** [JSON.stringify(a) !== JSON.stringify(b)] on two filter arrays: the
    serialisations differ exactly when the arrays differ in some field. *)
Fixpoint filters_differ (a b : list IFilter) : bool :=
  match a, b with
  | [], [] => false
  | x :: a', y :: b' => negb (IFilter_eqb x y) || filters_differ a' b'
  | _, _ => true
  end.

(** Result of [updateFilterState]: the returned array, the search parameters
    after the in-place mutation, and whether the two state setters ran. *)
Record UpdateOutcome := mkUpdate {
  updatedFilters : list IFilter;
  updatedParams : URLSearchParams;
  settersCalled : bool
}.

Definition updateFilterState (searchParams : URLSearchParams)
    (filters : list IFilter) (column_ columnSuffix filter_ : string)
    (isExclusive_ : bool) : UpdateOutcome :=
  let '(updated, sp) :=
    match findIndex filters filter_ with
    | Some existingFilterIndex =>
        (remove_at existingFilterIndex filters, sp_delete searchParams column_)
    | None =>
        (filters ++ [mkFilter columnSuffix (FStr filter_) isExclusive_],
         sp_append searchParams column_ filter_)
    end in
  mkUpdate updated sp (filters_differ updated filters).

(** The body of the [searchParams.forEach] callback of
    [parseFiltersFromUrl]: [None] for the two early returns. *)
Definition parse_entry (keySuffix : string) (kv : string * string) : option IFilter :=
  let '(key, value) := kv in
  if negb (str_includes key keySuffix) then None
  else
    let keyWithoutSuffix := _replace key keySuffix "" in
    if negb (isFilterValid keyWithoutSuffix false) then None
    else
      let isExclusive := _startsWith value "!" in
      Some (mkFilter keyWithoutSuffix
                     (FStr (if isExclusive then substring_from 1 value else value))
                     isExclusive).

(** What [parseFiltersFromUrl] leaves in the two pieces of React state. *)
Record ParseOutcome := mkParsed {
  parsedFilters : list IFilter;
  parsedFlag : bool
}.

Definition parseFiltersFromUrl (keySuffix : string) (searchParams : URLSearchParams)
    : ParseOutcome :=
  let initialFilters :=
    fold_left (fun acc kv =>
                 match parse_entry keySuffix kv with
                 | Some f => acc ++ [f]
                 | None => acc
                 end) searchParams [] in
  mkParsed initialFilters true.

(** A plain filter: one string value that is not empty and does not begin
    with ['!'], and not exclusive. *)
Definition plain (f : IFilter) : Prop :=
  exists v, filter f = FStr v /\ v <> "" /\ _startsWith v "!" = false
            /\ isExclusive f = false.

(** A filter set as the parser produces it: the column is in the fixed
    allow-list, the value is one string, and the value of a filter that is
    not exclusive does not begin with ['!']. *)
Definition normalized (f : IFilter) : Prop :=
  In (column f) validFilters
  /\ exists v, filter f = FStr v
              /\ (isExclusive f = false -> _startsWith v "!" = false).

(** The query-string form of a filter as the round-trip property words it:
    the value appended under the column key (with the suffix of the tab), an
    exclusive filter carried by a leading ['!'] on the value.  This is the
    form the parser reads; the encoders of this file append the value as it
    is. *)
Definition encode_entry (suffix : string) (f : IFilter) : string * string :=
  (column f +:+ suffix,
   (if isExclusive f then "!" else "")
   +:+ match filter f with
       | FStr v => v
       | FArr _ => ""
       end).

Definition encode (suffix : string) (items : list IFilter) : URLSearchParams :=
  map (encode_entry suffix) items.

End Filters.

(** ** The [JSON] built-ins

    JavaScript strings are modelled as byte strings (UTF-8, with an unpaired
    UTF-16 surrogate written as its three-byte generalisation).  A number
    keeps its literal: the controller never computes with parsed numbers. *)

Module Json.

#[local] Set Warnings "-register-all".

Inductive value :=
| JNull
| JBool (b : bool)
| JNum (literal : string)
| JStr (s : string)
| JArr (elements : list value)
| JObj (members : list (string * value)).

Definition isArray (v : value) : bool :=
  match v with
  | JArr _ => true
  | _ => false
  end.

(** *** [JSON.stringify] *)

Definition hex_digit (n : N) : ascii :=
  ascii_of_N (if n <? 10 then 48 + n else 87 + n)%N.

Definition escape_char (c : ascii) : string :=
  let n := N_of_ascii c in
  if (n =? 34)%N then String "\" (String "034" "")
  else if (n =? 92)%N then "\\"
  else if (n =? 8)%N then "\b"
  else if (n =? 12)%N then "\f"
  else if (n =? 10)%N then "\n"
  else if (n =? 13)%N then "\r"
  else if (n =? 9)%N then "\t"
  else if (n <? 32)%N
       then "\u00" +:+ String (hex_digit (n / 16)%N) (String (hex_digit (n mod 16)%N) "")
       else String c "".

Fixpoint escape (s : string) : string :=
  match s with
  | EmptyString => EmptyString
  | String c s' => escape_char c +:+ escape s'
  end.

Definition quote (s : string) : string :=
  String "034" (escape s +:+ String "034" "").

Fixpoint stringify (v : value) : string :=
  match v with
  | JNull => "null"
  | JBool true => "true"
  | JBool false => "false"
  | JNum literal => literal
  | JStr s => quote s
  | JArr elements =>
      "[" +:+ (fix go (l : list value) : string :=
                 match l with
                 | [] => ""
                 | [x] => stringify x
                 | x :: rest => stringify x +:+ "," +:+ go rest
                 end) elements +:+ "]"
  | JObj members =>
      "{" +:+ (fix go (l : list (string * value)) : string :=
                 match l with
                 | [] => ""
                 | [(k, x)] => quote k +:+ ":" +:+ stringify x
                 | (k, x) :: rest => quote k +:+ ":" +:+ stringify x +:+ "," +:+ go rest
                 end) members +:+ "}"
  end.

(** *** [JSON.parse] *)

Definition is_ws (c : ascii) : bool :=
  let n := N_of_ascii c in
  ((n =? 32) || (n =? 9) || (n =? 10) || (n =? 13))%N.

Fixpoint skip_ws (s : string) : string :=
  match s with
  | String c rest => if is_ws c then skip_ws rest else s
  | EmptyString => EmptyString
  end.

Definition hex_val (c : ascii) : option N :=
  let n := N_of_ascii c in
  if ((48 <=? n) && (n <=? 57))%N then Some (n - 48)%N
  else if ((97 <=? n) && (n <=? 102))%N then Some (n - 87)%N
  else if ((65 <=? n) && (n <=? 70))%N then Some (n - 55)%N
  else None.

(** UTF-8 bytes of a code point (also used for an unpaired surrogate). *)
Definition utf8 (cp : N) : string :=
  let b (n : N) := ascii_of_N n in
  if (cp <? 128)%N then String (b cp) ""
  else if (cp <? 2048)%N
  then String (b (192 + cp / 64)%N) (String (b (128 + cp mod 64)%N) "")
  else if (cp <? 65536)%N
  then String (b (224 + cp / 4096)%N)
         (String (b (128 + (cp / 64) mod 64)%N) (String (b (128 + cp mod 64)%N) ""))
  else String (b (240 + cp / 262144)%N)
         (String (b (128 + (cp / 4096) mod 64)%N)
            (String (b (128 + (cp / 64) mod 64)%N) (String (b (128 + cp mod 64)%N) ""))).

Definition is_high_surrogate (u : N) : bool := ((55296 <=? u) && (u <=? 56319))%N.
Definition is_low_surrogate (u : N) : bool := ((56320 <=? u) && (u <=? 57343))%N.

Definition flush (pending : option N) : string :=
  match pending with
  | Some hi => utf8 hi
  | None => ""
  end.

Inductive StrMode :=
| SPlain
| SEsc
| SHex (remaining : nat) (acc : N).

Definition emit (pre : string) (r : option (string * string)) : option (string * string) :=
  match r with
  | Some (out, rest) => Some (pre +:+ out, rest)
  | None => None
  end.

Definition simple_escape (c : ascii) : option ascii :=
  let n := N_of_ascii c in
  if (n =? 34)%N then Some c
  else if (n =? 92)%N then Some c
  else if (n =? 47)%N then Some c
  else if (n =? 98)%N then Some (ascii_of_N 8)
  else if (n =? 102)%N then Some (ascii_of_N 12)
  else if (n =? 110)%N then Some (ascii_of_N 10)
  else if (n =? 114)%N then Some (ascii_of_N 13)
  else if (n =? 116)%N then Some (ascii_of_N 9)
  else None.

(** The characters of a string literal after its opening quote: the decoded
    string and the input left after the closing quote.  [pending] is a high
    surrogate read from a [\u] escape and not yet paired. *)
Fixpoint str_body (pending : option N) (mode : StrMode) (s : string)
    : option (string * string) :=
  match s with
  | EmptyString => None
  | String c rest =>
      let n := N_of_ascii c in
      match mode with
      | SPlain =>
          if (n =? 34)%N then Some (flush pending, rest)
          else if (n =? 92)%N then str_body pending SEsc rest
          else if (n <? 32)%N then None
          else emit (flush pending +:+ String c "") (str_body None SPlain rest)
      | SEsc =>
          if (n =? 117)%N then str_body pending (SHex 3 0) rest
          else match simple_escape c with
               | Some d => emit (flush pending +:+ String d "") (str_body None SPlain rest)
               | None => None
               end
      | SHex remaining acc =>
          match hex_val c with
          | None => None
          | Some d =>
              let u := (acc * 16 + d)%N in
              match remaining with
              | S k => str_body pending (SHex k u) rest
              | O =>
                  match pending with
                  | Some hi =>
                      if is_low_surrogate u
                      then emit (utf8 (65536 + (hi - 55296) * 1024 + (u - 56320))%N)
                                (str_body None SPlain rest)
                      else if is_high_surrogate u
                      then emit (utf8 hi) (str_body (Some u) SPlain rest)
                      else emit (utf8 hi +:+ utf8 u) (str_body None SPlain rest)
                  | None =>
                      if is_high_surrogate u
                      then str_body (Some u) SPlain rest
                      else emit (utf8 u) (str_body None SPlain rest)
                  end
              end
          end
      end
  end.

Definition is_digit (c : ascii) : bool :=
  let n := N_of_ascii c in ((48 <=? n) && (n <=? 57))%N.

Fixpoint take_digits (s : string) : string * string :=
  match s with
  | String c rest =>
      if is_digit c
      then let '(ds, r) := take_digits rest in (String c ds, r)
      else ("", s)
  | EmptyString => ("", "")
  end.

(** A number literal: an optional minus sign, an integer part without a
    leading zero, an optional fraction and an optional exponent. *)
Definition lex_number (s : string) : option (string * string) :=
  let '(sign, s1) :=
    match s with
    | String "-" r => ("-", r)
    | _ => ("", s)
    end in
  let '(int, s2) := take_digits s1 in
  let int_ok :=
    match int with
    | EmptyString => false
    | String "0" (String _ _) => false
    | _ => true
    end in
  if negb int_ok then None
  else
    let frac :=
      match s2 with
      | String "." r =>
          let '(ds, r') := take_digits r in
          if String.eqb ds "" then None else Some ("." +:+ ds, r')
      | _ => Some ("", s2)
      end in
    match frac with
    | None => None
    | Some (fr, s3) =>
        let exp :=
          match s3 with
          | String e r =>
              if (Ascii.eqb e "e" || Ascii.eqb e "E")%bool
              then
                let '(sg, r1) :=
                  match r with
                  | String "+" r' => ("+", r')
                  | String "-" r' => ("-", r')
                  | _ => ("", r)
                  end in
                let '(ds, r2) := take_digits r1 in
                if String.eqb ds "" then None
                else Some (String e "" +:+ sg +:+ ds, r2)
              else Some ("", s3)
          | EmptyString => Some ("", s3)
          end in
        match exp with
        | None => None
        | Some (ex, s4) => Some (sign +:+ int +:+ fr +:+ ex, s4)
        end
    end.

Definition expect (lit : string) (v : value) (s : string) : option (value * string) :=
  if String.prefix lit s
  then Some (v, Lodash.substring_from (String.length lit) s)
  else None.

(** The elements of an array after its opening bracket, read with the
    value reader [pv]; [k] bounds the number of elements. *)
Fixpoint parse_elems (pv : string -> option (value * string)) (k : nat)
    (acc : list value) (r : string) : option (value * string) :=
  match k with
  | O => None
  | S k' =>
      match pv r with
      | Some (v, r1) =>
          match skip_ws r1 with
          | String "," r2 => parse_elems pv k' (acc ++ [v]) r2
          | String "]" r2 => Some (JArr (acc ++ [v]), r2)
          | _ => None
          end
      | None => None
      end
  end.

(** The members of an object after its opening brace. *)
Fixpoint parse_members (pv : string -> option (value * string)) (k : nat)
    (acc : list (string * value)) (r : string) : option (value * string) :=
  match k with
  | O => None
  | S k' =>
      match skip_ws r with
      | String "034" r0 =>
          match str_body None SPlain r0 with
          | Some (key, r1) =>
              match skip_ws r1 with
              | String ":" r2 =>
                  match pv r2 with
                  | Some (v, r3) =>
                      match skip_ws r3 with
                      | String "," r4 => parse_members pv k' (acc ++ [(key, v)]) r4
                      | String "}" r4 => Some (JObj (acc ++ [(key, v)]), r4)
                      | _ => None
                      end
                  | None => None
                  end
              | _ => None
              end
          | None => None
          end
      | _ => None
      end
  end.

(** Recursive descent; [depth] bounds the nesting of arrays and objects and
    the element loops are bounded by the length of the input, both of which
    [parse] sets to the length of the text. *)
Fixpoint parse_value (depth : nat) (s : string) : option (value * string) :=
  match depth with
  | O => None
  | S depth' =>
      match skip_ws s with
      | EmptyString => None
      | String c rest =>
          let n := N_of_ascii c in
          if (n =? 34)%N
          then match str_body None SPlain rest with
               | Some (str, r) => Some (JStr str, r)
               | None => None
               end
          else if (n =? 91)%N
          then
            match skip_ws rest with
            | String "]" r => Some (JArr [], r)
            | _ => parse_elems (parse_value depth') (String.length rest) [] rest
            end
          else if (n =? 123)%N
          then
            match skip_ws rest with
            | String "}" r => Some (JObj [], r)
            | _ => parse_members (parse_value depth') (String.length rest) [] rest
            end
          else if (n =? 116)%N then expect "true" (JBool true) (String c rest)
          else if (n =? 102)%N then expect "false" (JBool false) (String c rest)
          else if (n =? 110)%N then expect "null" JNull (String c rest)
          else match lex_number (String c rest) with
               | Some (literal, r) => Some (JNum literal, r)
               | None => None
               end
      end
  end.

(** [JSON.parse(text)]: [None] stands for the [SyntaxError]. *)
Definition parse (text : string) : option value :=
  match parse_value (S (String.length text)) text with
  | Some (v, rest) => if String.eqb (skip_ws rest) "" then Some v else None
  | None => None
  end.

End Json.

(** ** [Buffer.from(text, 'base64')] *)

Module Base64.

Definition sextet (c : ascii) : option N :=
  let n := N_of_ascii c in
  if ((65 <=? n) && (n <=? 90))%N then Some (n - 65)%N
  else if ((97 <=? n) && (n <=? 122))%N then Some (n - 71)%N
  else if ((48 <=? n) && (n <=? 57))%N then Some (n + 4)%N
  else if (n =? 43)%N then Some 62%N
  else if (n =? 47)%N then Some 63%N
  else None.

Definition byte_of (n : N) : Byte.byte := byte_of_ascii (ascii_of_N (n mod 256)).

(** Four characters give three bytes; [=] padding shortens the last group. *)
Fixpoint decode (s : string) : list Byte.byte :=
  match s with
  | String a (String b (String c (String d rest))) =>
      match sextet a, sextet b with
      | Some x, Some y =>
          match sextet c with
          | Some z =>
              match sextet d with
              | Some t =>
                  let w := (x * 262144 + y * 4096 + z * 64 + t)%N in
                  byte_of (w / 65536) :: byte_of (w / 256) :: byte_of w :: decode rest
              | None =>
                  let w := (x * 262144 + y * 4096 + z * 64)%N in
                  [byte_of (w / 65536); byte_of (w / 256)]
              end
          | None =>
              let w := (x * 262144 + y * 4096)%N in
              [byte_of (w / 65536)]
          end
      | _, _ => []
      end
  | _ => []
  end.

End Base64.

(** ** The analytics controller *)

Module Analytics.
Import Lodash.

(** *** Exceptions and outcomes *)

Inductive Exception :=
| BadRequestException (message : string)
| ForbiddenException (message : string)
| InternalServerErrorException (message : string)
| UnprocessableEntityException (message : string)
| Error (message : string).

Inductive Outcome (A : Type) :=
| Throw (e : Exception)
| Return (a : A).

Arguments Throw {A} e.
Arguments Return {A} a.

Definition DEFAULT_MEASURE : string := "median".

(** *** [isPerformanceValid]

    A timing field is a number or is missing ([None]); every comparison with
    a missing field is false, as [undefined <= n] and [undefined >= 0] are. *)

Definition MAX_PERFORMANCE_VALUE : Z := 1000 * 60 * 5.

Record Perf := mkPerf {
  dns : option Z;
  tls : option Z;
  conn : option Z;
  response : option Z;
  render : option Z;
  dom_load : option Z;
  page_load : option Z;
  ttfb : option Z
}.

Definition num_le (a : option Z) (b : Z) : bool :=
  match a with
  | Some x => (x <=? b)%Z
  | None => false
  end.

Definition num_ge (a : option Z) (b : Z) : bool :=
  match a with
  | Some x => (x >=? b)%Z
  | None => false
  end.

Definition isPerformanceValid (perf : Perf) : bool :=
  num_le (dns perf) MAX_PERFORMANCE_VALUE
  && num_le (tls perf) MAX_PERFORMANCE_VALUE
  && num_le (conn perf) MAX_PERFORMANCE_VALUE
  && num_le (response perf) MAX_PERFORMANCE_VALUE
  && num_le (render perf) MAX_PERFORMANCE_VALUE
  && num_le (dom_load perf) MAX_PERFORMANCE_VALUE
  && num_le (page_load perf) MAX_PERFORMANCE_VALUE
  && num_le (ttfb perf) MAX_PERFORMANCE_VALUE
  && num_ge (dns perf) 0
  && num_ge (tls perf) 0
  && num_ge (conn perf) 0
  && num_ge (response perf) 0
  && num_ge (render perf) 0
  && num_ge (dom_load perf) 0
  && num_ge (page_load perf) 0
  && num_ge (ttfb perf) 0.

(** *** [getPIDsArray]

    [pids] and [pid] are query parameters: a string or [undefined]. *)

Definition getPIDsArray (pids pid : option string) : Outcome (list Json.value) :=
  let pidsEmpty := _isEmpty_str pids in
  let pidEmpty := _isEmpty_str pid in
  if pidsEmpty && pidEmpty
  then Throw (BadRequestException
         "An array of Project ID's (pids) or a Project ID (pid) has to be provided")
  else if negb pidsEmpty && negb pidEmpty
  then Throw (BadRequestException
         "Please provide either an array of Project ID's (pids) or a Project ID (pid), but not both")
  else
    let pids :=
      match pid with
      | Some p => if negb pidEmpty then Some (Json.stringify (Json.JArr [Json.JStr p])) else pids
      | None => pids
      end in
    match match pids with Some text => Json.parse text | None => None end with
    | None =>
        Throw (UnprocessableEntityException
          "Cannot process the provided array of Project ID's")
    | Some (Json.JArr l) => Return l
    | Some _ =>
        Throw (UnprocessableEntityException
          "An array of Project ID's has to be provided as a 'pids' param")
    end.

(** *** The placeholder image *)

Definition TRANSPARENT_GIF_BUFFER : list Byte.byte :=
  Base64.decode "R0lGODlhAQABAIAAAP///wAAACwAAAAAAQABAAACAkQBADs=".

(** What [res.writeHead(status, headers)] and [res.end(body)] send. *)
Record HttpResponse := mkResponse {
  statusCode : nat;
  contentType : string;
  body : list Byte.byte
}.

(** *** Requests *)

Record Headers := mkHeaders {
  user_agent : option string;
  origin : option string;
  x_password : option string
}.

Record PageviewsDTO := mkPageviews {
  pv_pid : string;
  pv_pg : option string;
  pv_prev : option string;
  pv_lc : option string;
  pv_ref : option string;
  pv_so : option string;
  pv_me : option string;
  pv_ca : option string;
  pv_te : option string;
  pv_co : option string;
  pv_tz : option string;
  pv_meta : option Json.value;
  pv_unique : bool;
  pv_perf : option Perf
}.

Record EventsDTO := mkEvents {
  ev_pid : string;
  ev_ev : string;
  ev_pg : option string;
  ev_lc : option string;
  ev_ref : option string;
  ev_so : option string;
  ev_me : option string;
  ev_ca : option string;
  ev_te : option string;
  ev_co : option string;
  ev_tz : option string;
  ev_meta : option Json.value;
  ev_unique : bool
}.

Inductive AnyDTO :=
| OfPageviews (dto : PageviewsDTO)
| OfEvents (dto : EventsDTO).

Record GetDataDto := mkGetData {
  gd_pid : string;
  gd_period : option string;
  gd_timeBucket : option string;
  gd_from : option string;
  gd_to : option string;
  gd_filters : option string;
  gd_timezone : option string;
  gd_mode : option string;
  gd_metrics : option string;
  gd_measure : option string;
  gd_customEvents : option string
}.

Record GetListDto := mkGetList {
  gl_pid : string;
  gl_period : option string;
  gl_from : option string;
  gl_to : option string;
  gl_filters : option string;
  gl_timezone : option string;
  gl_options : option Json.value;
  gl_take : option string;
  gl_skip : option string
}.

(** *** Values handed between the controller and its collaborators *)

Record UA := mkUA {
  device_type : option string;
  browser_name : option string;
  os_name : option string
}.

Record Geo := mkGeo {
  city : option string;
  region : option string;
  country : option string
}.

Record AllTime := mkAllTime {
  at_diff : Json.value;
  at_timeBucket : list string
}.

Inductive DataType := ANALYTICS | PERFORMANCE.

Record FiltersQuery := mkFiltersQuery {
  filtersQuery : string;
  filtersParams : Json.value;
  parsedFilters : Json.value;
  customEVFilterApplied : bool
}.

Record GroupFromTo := mkGroupFromTo {
  groupFrom : string;
  groupTo : string;
  groupFromUTC : string;
  groupToUTC : string
}.

Record ParamsData := mkParams {
  p_pid : string;
  p_groupFrom : string;
  p_groupTo : string;
  p_filtersParams : Json.value
}.

Record TrafficArgs := mkTraffic {
  t_psid : N;
  t_pid : string;
  t_pg : option string;
  t_prev : option string;
  t_dv : string;
  t_br : option string;
  t_os : option string;
  t_lc : option string;
  t_ref : option string;
  t_so : option string;
  t_me : option string;
  t_ca : option string;
  t_te : option string;
  t_co : option string;
  t_country : option string;
  t_region : option string;
  t_city : option string;
  t_meta : option Json.value;
  t_sdur : Z;
  t_unique : Z
}.

Record CustomArgs := mkCustom {
  c_psid : N;
  c_pid : string;
  c_ev : string;
  c_pg : option string;
  c_dv : string;
  c_br : option string;
  c_os : option string;
  c_lc : option string;
  c_ref : option string;
  c_so : option string;
  c_me : option string;
  c_ca : option string;
  c_te : option string;
  c_co : option string;
  c_country : option string;
  c_region : option string;
  c_city : option string;
  c_meta : option Json.value
}.

Record PerfArgs := mkPerfArgs {
  f_pid : string;
  f_pg : option string;
  f_dv : string;
  f_br : option string;
  f_country : option string;
  f_region : option string;
  f_city : option string;
  f_dns : option Z;
  f_tls : option Z;
  f_conn : option Z;
  f_response : option Z;
  f_render : option Z;
  f_domLoad : option Z;
  f_pageLoad : option Z;
  f_ttfb : option Z
}.

Inductive Table := analytics | performance | customEV.

(** The read queries the controller sends to the store through the service,
    with the arguments that select what is read. *)
Inductive StoreCall :=
| QTimeBucketForAllTime (pid : string) (period : option string) (timezone : string)
| QGroupByTimeBucket (timeBucket : option string) (groupFrom groupTo : string)
| QCustomEvents
| QPageProperties
| QMetaResults (metrics : list string)
| QGroupPerfByTimeBucket (timeBucket : option string) (groupFrom groupTo : string)
                         (measure : string)
| QGroupCustomEVByTimeBucket (timeBucket : option string) (groupFrom groupTo : string)
| QSessionsList (take skip : Z)
| QErrorsList (take skip : Z).

(** *** The collaborators

    The injected [AnalyticsService], the imported utilities and constants and
    the store client live outside the controller; each is a field here.  A
    function that may throw returns [Some e] or an [Outcome]. *)

Record Deps := mkDeps {
  DEFAULT_TIMEZONE : string;
  MAX_METRICS_IN_VIEW : nat;
  validatePID : string -> option Exception;
  checkProjectAccess : string -> option string -> option string -> option Exception;
  checkIfPerfMeasureIsValid : string -> option Exception;
  parseMetrics : option string -> list string;
  getTimeBucketForAllTime : string -> option string -> string -> Outcome AllTime;
  getLowestPossibleTimeBucket :
    option string -> option string -> option string -> option string;
  getFiltersQuery : option string -> DataType -> Outcome FiltersQuery;
  getSafeTimezone : string -> string;
  getGroupFromTo :
    option string -> option string -> option string -> option string -> string ->
    option Json.value -> Outcome GroupFromTo;
  groupByTimeBucket :
    option string -> string -> string -> string -> string -> ParamsData -> string ->
    bool -> Json.value -> string -> Outcome Json.value;
  getCustomEvents_svc : string -> ParamsData -> Outcome Json.value;
  getPageProperties : string -> ParamsData -> Outcome Json.value;
  getMetaResults :
    string -> list string -> string -> ParamsData -> string -> option string ->
    option string -> option string -> Outcome Json.value;
  groupPerfByTimeBucket :
    option string -> string -> string -> string -> string -> ParamsData -> string ->
    string -> Outcome Json.value;
  groupCustomEVByTimeBucket :
    option string -> string -> string -> string -> ParamsData -> string ->
    Outcome Json.value;
  getSessionsList :
    string -> ParamsData -> string -> Z -> Z -> bool -> Outcome Json.value;
  getErrorsList :
    option Json.value -> string -> ParamsData -> string -> Z -> Z -> Outcome Json.value;
  filterChartEvents : Json.value -> option string -> option string -> Outcome Json.value;
  throwIfBot : string -> option string -> option Exception;
  validate : AnyDTO -> option string -> option string -> option string -> option Exception;
  validateCustomEVMeta : option Json.value -> option Exception;
  processInteractionSD : N -> string -> option Exception;
  rotationSalt : N -> string;
  getSessionKey : string -> string -> option string -> string -> string;
  getIPFromHeaders : Headers -> option string;
  getGeoDetails : string -> option string -> Headers -> Geo;
  UAParser : option string -> UA;
  trafficTransformer : TrafficArgs -> Json.value;
  customEventTransformer : CustomArgs -> Json.value;
  performanceTransformer : PerfArgs -> Json.value;
  clickhouse_insert_error : Table -> Json.value -> option Exception
}.

(** *** The world the controller acts on *)

Record World := mkWorld {
  presence : gmap string (N * N);
  clock : N;
  next_psid : N;
  analytics_rows : list Json.value;
  performance_rows : list Json.value;
  customEV_rows : list Json.value;
  logged : list Exception;
  issued : list StoreCall
}.

Definition with_presence (w : World) (p : gmap string (N * N)) (n : N) : World :=
  mkWorld p (clock w) n (analytics_rows w) (performance_rows w) (customEV_rows w)
          (logged w) (issued w).

Definition with_row (w : World) (t : Table) (row : Json.value) : World :=
  match t with
  | analytics =>
      mkWorld (presence w) (clock w) (next_psid w) (analytics_rows w ++ [row])
              (performance_rows w) (customEV_rows w) (logged w) (issued w)
  | performance =>
      mkWorld (presence w) (clock w) (next_psid w) (analytics_rows w)
              (performance_rows w ++ [row]) (customEV_rows w) (logged w) (issued w)
  | customEV =>
      mkWorld (presence w) (clock w) (next_psid w) (analytics_rows w)
              (performance_rows w) (customEV_rows w ++ [row]) (logged w) (issued w)
  end.

Definition with_logged (w : World) (e : Exception) : World :=
  mkWorld (presence w) (clock w) (next_psid w) (analytics_rows w)
          (performance_rows w) (customEV_rows w) (logged w ++ [e]) (issued w).

Definition with_issued (w : World) (c : StoreCall) : World :=
  mkWorld (presence w) (clock w) (next_psid w) (analytics_rows w)
          (performance_rows w) (customEV_rows w) (logged w) (issued w ++ [c]).


(** *** Handlers are state transformers that may throw *)

Definition M (A : Type) : Type := World -> Outcome A * World.

Definition ret {A} (a : A) : M A := fun w => (Return a, w).

Definition throw {A} (e : Exception) : M A := fun w => (Throw e, w).

Definition bind {A B} (m : M A) (k : A -> M B) : M B :=
  fun w =>
    match m w with
    | (Return a, w') => k a w'
    | (Throw e, w') => (Throw e, w')
    end.

Notation "x <- m ;; k" := (bind m (fun x => k))
  (at level 20, m at level 99, k at level 200, only parsing).
Notation "' p <- m ;; k" := (bind m (fun x => let 'p := x in k))
  (at level 20, p pattern, m at level 99, k at level 200, only parsing).

(** A synchronous check of a collaborator that throws or returns nothing. *)
Definition check (r : option Exception) : M unit :=
  match r with
  | Some e => throw e
  | None => ret tt
  end.

Definition lift {A} (r : Outcome A) : M A := fun w => (r, w).

(** A read query: note it, then hand back what the store answered. *)
Definition query {A} (c : StoreCall) (answer : Outcome A) : M A :=
  fun w => (answer, with_issued w c).

Definition try_catch {A} (m : M A) (handler : Exception -> M A) : M A :=
  fun w =>
    match m w with
    | (Throw e, w') => handler e w'
    | r => r
    end.

Definition logger_error (e : Exception) : M unit :=
  fun w => (Return tt, with_logged w e).

(** Modelled from the spec: the rotation window of the presence markers
    ([UNIQUE_SESSION_LIFE_TIME] of common/constants, not under src/): "a
    fixed configuration constant, default 24h", in seconds. *)
Definition UNIQUE_SESSION_LIFE_TIME : N := 86400.

(** Modelled from the spec: "rotation is a pure function of wall-clock time
    and a fixed window length".  The rotation window a moment falls in. *)
Definition rotation_window (now : N) : N := (now / UNIQUE_SESSION_LIFE_TIME)%N.

(** Modelled from the spec: the visitor identity
    "hash(ip, userAgent, project_id, rotationSalt)", with "a rotating salt
    that changes on a fixed schedule": the salt is that of the rotation
    window of the moment. *)
Definition visitor_key (d : Deps) (now : N) (ip : string) (userAgent : option string)
    (pid : string) : string :=
  getSessionKey d (rotationSalt d (rotation_window now)) ip userAgent pid.

(** Modelled from the spec: the period enumeration
    ([VALID_PERIODS] of decorators/validate-period.decorator, not under
    src/): "today, yesterday, 1d, 7d, 4w, 3M, 12M, 24M, custom, all". *)
Definition VALID_PERIODS : list string :=
  [ "today"; "yesterday"; "1d"; "7d"; "4w"; "3M"; "12M"; "24M"; "custom"; "all" ].

(** Modelled from the spec: [ChartRenderMode.PERIODICAL] of dto/getData.dto,
    not under src/: "periodical", the default mode. *)
Definition PERIODICAL : string := "periodical".

(** The value of a string of decimal digits. *)
Fixpoint digits_value (acc : Z) (s : string) : option Z :=
  match s with
  | EmptyString => Some acc
  | String c rest =>
      if Json.is_digit c
      then digits_value (acc * 10 + Z.of_N (N_of_ascii c - 48)) rest
      else None
  end.

(** Modelled from the spec: [getSafeNumber] of analytics.service, not under
    src/.  A pagination parameter is a "non-negative integer" with a default:
    the decimal value of the parameter, or the default when the parameter is
    absent or is not a string of decimal digits. *)
Definition getSafeNumber (value : option string) (defaultValue : Z) : Z :=
  match value with
  | Some (String c rest) =>
      match digits_value 0 (String c rest) with
      | Some n => n
      | None => defaultValue
      end
  | _ => defaultValue
  end.

Section Controller.

Variable d : Deps.

(** Modelled from the spec: [isUnique] of analytics.service, not under src/.
    "Computes a salted hash over (ip, userAgent, projectId); checks a
    presence marker for that hash [...]; sets/refreshes the marker with the
    window as its expiry.  If no marker existed, the visit is unique and a
    new session id is minted; otherwise the existing session id is returned
    unmodified."  The hash is salted with the salt of the current rotation
    window ([visitor_key]).  A marker whose expiry has passed no longer
    exists. *)
Definition isUnique (pid : string) (userAgent : option string) (ip : string)
    : M (bool * N) :=
  fun w =>
    let sessionHash := visitor_key d (clock w) ip userAgent pid in
    let expiry := (clock w + UNIQUE_SESSION_LIFE_TIME)%N in
    match presence w !! sessionHash with
    | Some (psid, until) =>
        if (clock w <? until)%N
        then (Return (false, psid),
              with_presence w (<[sessionHash := (psid, expiry)]> (presence w)) (next_psid w))
        else (Return (true, next_psid w),
              with_presence w (<[sessionHash := (next_psid w, expiry)]> (presence w))
                            (next_psid w + 1)%N)
    | None =>
        (Return (true, next_psid w),
         with_presence w (<[sessionHash := (next_psid w, expiry)]> (presence w))
                       (next_psid w + 1)%N)
    end.

(** [clickhouse.insert({ table, values: [row] })] *)
Definition clickhouse_insert (t : Table) (row : Json.value) : M unit :=
  fun w =>
    match clickhouse_insert_error d t row with
    | Some e => (Throw e, w)
    | None => (Return tt, with_row w t row)
    end.

(** [getIPFromHeaders(headers) || reqIP || ''] *)
Definition request_ip (headers : Headers) (reqIP : option string) : string :=
  match js_or (js_or (getIPFromHeaders d headers) reqIP) (Some "") with
  | Some ip => ip
  | None => ""
  end.

(** [ua.device.type || 'desktop'] *)
Definition device_of (ua : UA) : string :=
  match js_or (device_type ua) (Some "desktop") with
  | Some dv => dv
  | None => "desktop"
  end.

(** [_isEmpty] on the performance payload of a pageview. *)
Definition _isEmpty_perf (perf : option Perf) : bool :=
  match perf with
  | None => true
  | Some p =>
      match dns p, tls p, conn p, response p, render p, dom_load p, page_load p, ttfb p with
      | None, None, None, None, None, None, None, None => true
      | _, _, _, _, _, _, _, _ => false
      end
  end.

(** [_isEmpty] on a transformed row ([null] or a value). *)
Definition _isEmpty_row (row : option Json.value) : bool :=
  match row with
  | None => true
  | Some (Json.JObj []) => true
  | Some (Json.JArr []) => true
  | Some (Json.JStr s) => String.eqb s ""
  | Some (Json.JObj _) => false
  | Some (Json.JArr _) => false
  | Some _ => true
  end.

(** [Number(unique)] *)
Definition Number_of_bool (b : bool) : Z := if b then 1%Z else 0%Z.

(** *** [POST /log] *)

Definition log (logDTO : PageviewsDTO) (headers : Headers) (reqIP : option string)
    : M unit :=
  let userAgent := user_agent headers in
  let ip := request_ip headers reqIP in
  _ <- check (throwIfBot d (pv_pid logDTO) userAgent) ;;
  _ <- check (validate d (OfPageviews logDTO) (origin headers) (Some "log") (Some ip)) ;;
  ' (unique, psid) <- isUnique (pv_pid logDTO) userAgent ip ;;
  _ <- check (processInteractionSD d psid (pv_pid logDTO)) ;;
  if unique && pv_unique logDTO
  then throw (ForbiddenException
         "The event was not saved because it was not unique while unique only param is provided")
  else
    let geo := getGeoDetails d ip (pv_tz logDTO) headers in
    let ua := UAParser d userAgent in
    let dv := device_of ua in
    let br := browser_name ua in
    let os := os_name ua in
    let transformed :=
      trafficTransformer d
        (mkTraffic psid (pv_pid logDTO) (pv_pg logDTO) (pv_prev logDTO) dv br os
           (pv_lc logDTO) (pv_ref logDTO) (pv_so logDTO) (pv_me logDTO) (pv_ca logDTO)
           (pv_te logDTO) (pv_co logDTO) (country geo) (region geo) (city geo)
           (pv_meta logDTO) 0 (Number_of_bool unique)) in
    let perfTransformed :=
      match pv_perf logDTO with
      | Some perf =>
          if negb (_isEmpty_perf (pv_perf logDTO)) && isPerformanceValid perf
          then Some (performanceTransformer d
                 (mkPerfArgs (pv_pid logDTO) (pv_pg logDTO) dv br (country geo)
                    (region geo) (city geo) (dns perf) (tls perf) (conn perf)
                    (response perf) (render perf) (dom_load perf) (page_load perf)
                    (ttfb perf)))
          else None
      | None => None
      end in
    try_catch
      (_ <- clickhouse_insert analytics transformed ;;
       match perfTransformed with
       | Some row =>
           if negb (_isEmpty_row perfTransformed)
           then clickhouse_insert performance row
           else ret tt
       | None => ret tt
       end)
      (fun e =>
         _ <- logger_error e ;;
         throw (InternalServerErrorException "Error occured while saving the log data")).

(** *** [POST /log/custom] *)

Definition logCustom (eventsDTO : EventsDTO) (headers : Headers) (reqIP : option string)
    : M unit :=
  let userAgent := user_agent headers in
  let ip := request_ip headers reqIP in
  _ <- check (validateCustomEVMeta d (ev_meta eventsDTO)) ;;
  _ <- check (throwIfBot d (ev_pid eventsDTO) userAgent) ;;
  _ <- check (validate d (OfEvents eventsDTO) (origin headers) (Some "custom") (Some ip)) ;;
  _ <- (if ev_unique eventsDTO
        then
          ' (unique, _) <- isUnique (ev_pid eventsDTO +:+ "-" +:+ ev_ev eventsDTO)
                                    userAgent ip ;;
          if negb unique
          then throw (ForbiddenException
                 "The unique option provided, while the custom event have already been created for this session")
          else ret tt
        else ret tt) ;;
  let ua := UAParser d userAgent in
  let dv := device_of ua in
  let br := browser_name ua in
  let os := os_name ua in
  let geo := getGeoDetails d ip (ev_tz eventsDTO) headers in
  ' (_, psid) <- isUnique (ev_pid eventsDTO) userAgent ip ;;
  let transformed :=
    customEventTransformer d
      (mkCustom psid (ev_pid eventsDTO) (ev_ev eventsDTO) (ev_pg eventsDTO) dv br os
         (ev_lc eventsDTO) (ev_ref eventsDTO) (ev_so eventsDTO) (ev_me eventsDTO)
         (ev_ca eventsDTO) (ev_te eventsDTO) (ev_co eventsDTO) (country geo)
         (region geo) (city geo) (ev_meta eventsDTO)) in
  try_catch
    (clickhouse_insert customEV transformed)
    (fun e =>
       _ <- logger_error e ;;
       throw (InternalServerErrorException "Error occured while saving the custom event")).

(** *** [GET /log/noscript] *)

Definition gif_response : HttpResponse :=
  mkResponse 200 "image/gif" TRANSPARENT_GIF_BUFFER.

(** The [null] arguments that [noscript] hands to [getGeoDetails] and to
    [trafficTransformer] are written [None], as an absent field is; no
    statement below compares a row of [noscript] with a row of [log]. *)
Definition noscript (pid : string) (headers : Headers) (reqIP : option string)
    : M HttpResponse :=
  let userAgent := user_agent headers in
  match throwIfBot d pid userAgent with
  | Some _ => ret gif_response
  | None =>
      let logDTO :=
        mkPageviews pid None None None None None None None None None None None false None in
      _ <- check (validate d (OfPageviews logDTO) (origin headers) None None) ;;
      let ip := request_ip headers reqIP in
      ' (unique, psid) <- isUnique (pv_pid logDTO) userAgent ip ;;
      _ <- check (processInteractionSD d psid (pv_pid logDTO)) ;;
      let ua := UAParser d userAgent in
      let dv := device_of ua in
      let br := browser_name ua in
      let os := os_name ua in
      let geo := getGeoDetails d ip None headers in
      let transformed :=
        trafficTransformer d
          (mkTraffic psid (pv_pid logDTO) None None dv br os None None None None None
             None None (country geo) (region geo) (city geo) None 0
             (Number_of_bool unique)) in
      _ <- try_catch
             (clickhouse_insert analytics transformed)
             (fun e => logger_error e) ;;
      ret gif_response
  end.

(** *** The read endpoints *)

(** [period === 'all'] *)
Definition period_is (period : option string) (p : string) : bool :=
  match period with
  | Some x => String.eqb x p
  | None => false
  end.

(** [a === b] on two values that are a string or [undefined]. *)
Definition strict_eq (a b : option string) : bool :=
  match a, b with
  | Some x, Some y => String.eqb x y
  | None, None => true
  | _, _ => false
  end.

(** [parameter = DEFAULT] in a destructuring pattern. *)
Definition or_default (v : option string) (dflt : string) : string :=
  match v with
  | Some x => x
  | None => dflt
  end.

Record GetDataResponse := mkGetDataResponse {
  gr_result : Json.value;
  gr_customs : Json.value;
  gr_properties : Json.value;
  gr_appliedFilters : Json.value;
  gr_timeBucket : option (list string);
  gr_meta : option Json.value
}.

Record ChartResponse := mkChartResponse {
  cr_result : Json.value;
  cr_appliedFilters : Json.value;
  cr_timeBucket : option (list string)
}.

Record ListResponse := mkListResponse {
  lr_items : Json.value;
  lr_appliedFilters : Json.value;
  lr_take : Z;
  lr_skip : Z
}.

(** [GET /log] *)
Definition getData (data : GetDataDto) (uid : option string) (headers : Headers)
    : M GetDataResponse :=
  let pid := gd_pid data in
  let period := gd_period data in
  let timeBucket := gd_timeBucket data in
  let timezone := or_default (gd_timezone data) (DEFAULT_TIMEZONE d) in
  let mode := or_default (gd_mode data) PERIODICAL in
  _ <- check (validatePID d pid) ;;
  _ <- check (checkProjectAccess d pid uid (x_password headers)) ;;
  let parsedMetrics := parseMetrics d (gd_metrics data) in
  if Nat.ltb (MAX_METRICS_IN_VIEW d) (List.length parsedMetrics)
  then throw (BadRequestException
         ("The maximum number of metrics within one request is "
          +:+ pretty (MAX_METRICS_IN_VIEW d)))
  else
    ' (newTimebucket, allowedTumebucketForPeriodAll, diff) <-
      (if period_is period "all"
       then
         res <- query (QTimeBucketForAllTime pid period timezone)
                      (getTimeBucketForAllTime d pid period timezone) ;;
         ret (if _includes_opt (at_timeBucket res) timeBucket
              then timeBucket
              else head (at_timeBucket res),
              Some (at_timeBucket res), Some (at_diff res))
       else ret (timeBucket, None, None)) ;;
    fq <- lift (getFiltersQuery d (gd_filters data) ANALYTICS) ;;
    let safeTimezone := getSafeTimezone d timezone in
    g <- lift (getGroupFromTo d (gd_from data) (gd_to data) newTimebucket period
                 safeTimezone diff) ;;
    let subQuery :=
      if customEVFilterApplied fq
      then "FROM customEV WHERE pid = {pid:FixedString(12)} " +:+ filtersQuery fq
           +:+ " AND created BETWEEN {groupFrom:String} AND {groupTo:String}"
      else "FROM analytics WHERE pid = {pid:FixedString(12)} " +:+ filtersQuery fq
           +:+ " AND created BETWEEN {groupFrom:String} AND {groupTo:String}" in
    let paramsData := mkParams pid (groupFromUTC g) (groupToUTC g) (filtersParams fq) in
    result <- query (QGroupByTimeBucket newTimebucket (groupFrom g) (groupTo g))
                (groupByTimeBucket d newTimebucket (groupFrom g) (groupTo g) subQuery
                   (filtersQuery fq) paramsData safeTimezone (customEVFilterApplied fq)
                   (parsedFilters fq) mode) ;;
    customs <- query QCustomEvents (getCustomEvents_svc d (filtersQuery fq) paramsData) ;;
    properties <-
      (if negb (customEVFilterApplied fq)
       then query QPageProperties (getPageProperties d (filtersQuery fq) paramsData)
       else ret (Json.JObj [])) ;;
    meta <-
      (if negb (Nat.eqb (List.length parsedMetrics) 0)
       then
         m <- query (QMetaResults parsedMetrics)
                (getMetaResults d pid parsedMetrics (filtersQuery fq) paramsData timezone
                   period (gd_from data) (gd_to data)) ;;
         ret (Some m)
       else ret None) ;;
    ret (mkGetDataResponse result customs properties (parsedFilters fq)
           allowedTumebucketForPeriodAll meta).

(** [GET /log/performance] *)
Definition getPerfData (data : GetDataDto) (uid : option string) (headers : Headers)
    : M ChartResponse :=
  let pid := gd_pid data in
  let period := gd_period data in
  let timeBucket := gd_timeBucket data in
  let timezone := or_default (gd_timezone data) (DEFAULT_TIMEZONE d) in
  let measure := or_default (gd_measure data) DEFAULT_MEASURE in
  _ <- check (validatePID d pid) ;;
  _ <- check (checkIfPerfMeasureIsValid d measure) ;;
  _ <- check (checkProjectAccess d pid uid (x_password headers)) ;;
  ' (newTimeBucket, allowedTumebucketForPeriodAll, diff) <-
    (if period_is period "all"
     then
       res <- query (QTimeBucketForAllTime pid period timezone)
                    (getTimeBucketForAllTime d pid period timezone) ;;
       ret (if _includes_opt (at_timeBucket res) timeBucket
            then timeBucket
            else head (at_timeBucket res),
            Some (at_timeBucket res), Some (at_diff res))
     else ret (timeBucket, None, None)) ;;
  fq <- lift (getFiltersQuery d (gd_filters data) PERFORMANCE) ;;
  let safeTimezone := getSafeTimezone d timezone in
  g <- lift (getGroupFromTo d (gd_from data) (gd_to data) newTimeBucket period
               safeTimezone diff) ;;
  let subQuery :=
    "FROM performance WHERE pid = {pid:FixedString(12)} " +:+ filtersQuery fq
    +:+ " AND created BETWEEN {groupFrom:String} AND {groupTo:String}" in
  let paramsData := mkParams pid (groupFrom g) (groupTo g) (filtersParams fq) in
  result <- query (QGroupPerfByTimeBucket newTimeBucket (groupFrom g) (groupTo g) measure)
              (groupPerfByTimeBucket d newTimeBucket (groupFrom g) (groupTo g) subQuery
                 (filtersQuery fq) paramsData safeTimezone measure) ;;
  ret (mkChartResponse result (parsedFilters fq) allowedTumebucketForPeriodAll).

(** [GET /log/custom-events].  The last step, which drops from
    [result.chart.events] the events not named in the [customEvents]
    parameter, works on untyped values and is the collaborator
    [filterChartEvents] here; it does not touch the time bucket. *)
Definition getCustomEvents (data : GetDataDto) (uid : option string) (headers : Headers)
    : M ChartResponse :=
  let pid := gd_pid data in
  let period := gd_period data in
  let timeBucket := gd_timeBucket data in
  let timezone := or_default (gd_timezone data) (DEFAULT_TIMEZONE d) in
  _ <- check (validatePID d pid) ;;
  _ <- check (checkProjectAccess d pid uid (x_password headers)) ;;
  ' (newTimeBucket, diff, timeBucketForAllTime) <-
    (if strict_eq period (nth_error VALID_PERIODS (List.length VALID_PERIODS - 1))
     then
       res <- query (QTimeBucketForAllTime pid period timezone)
                    (getTimeBucketForAllTime d pid period timezone) ;;
       ret (if _includes_opt (at_timeBucket res) timeBucket
            then timeBucket
            else head (at_timeBucket res),
            Some (at_diff res), Some (at_timeBucket res))
     else ret (timeBucket, None, None)) ;;
  fq <- lift (getFiltersQuery d (gd_filters data) ANALYTICS) ;;
  let safeTimezone := getSafeTimezone d timezone in
  g <- lift (getGroupFromTo d (gd_from data) (gd_to data) newTimeBucket period
               safeTimezone diff) ;;
  let paramsData := mkParams pid (groupFrom g) (groupTo g) (filtersParams fq) in
  result <- query (QGroupCustomEVByTimeBucket newTimeBucket (groupFrom g) (groupTo g))
              (groupCustomEVByTimeBucket d newTimeBucket (groupFrom g) (groupTo g)
                 (filtersQuery fq) paramsData safeTimezone) ;;
  result' <- lift (filterChartEvents d result (gd_filters data) (gd_customEvents data)) ;;
  ret (mkChartResponse result' (parsedFilters fq) timeBucketForAllTime).

(** [GET /log/sessions] *)
Definition getSessions (data : GetListDto) (uid : option string) (headers : Headers)
    : M ListResponse :=
  let pid := gl_pid data in
  let period := gl_period data in
  let timezone := or_default (gl_timezone data) (DEFAULT_TIMEZONE d) in
  _ <- check (validatePID d pid) ;;
  _ <- check (checkProjectAccess d pid uid (x_password headers)) ;;
  let take := getSafeNumber (gl_take data) 30 in
  let skip := getSafeNumber (gl_skip data) 0 in
  if (take >? 150)%Z
  then throw (BadRequestException "The maximum number of sessions to return is 150")
  else
    ' (timeBucket, diff) <-
      (if period_is period "all"
       then
         res <- query (QTimeBucketForAllTime pid period timezone)
                      (getTimeBucketForAllTime d pid period timezone) ;;
         ret (head (at_timeBucket res), Some (at_diff res))
       else ret (getLowestPossibleTimeBucket d period (gl_from data) (gl_to data), None)) ;;
    fq <- lift (getFiltersQuery d (gl_filters data) ANALYTICS) ;;
    let safeTimezone := getSafeTimezone d timezone in
    g <- lift (getGroupFromTo d (gl_from data) (gl_to data) timeBucket period
                 safeTimezone diff) ;;
    let paramsData := mkParams pid (groupFromUTC g) (groupToUTC g) (filtersParams fq) in
    sessions <- query (QSessionsList take skip)
                  (getSessionsList d (filtersQuery fq) paramsData safeTimezone take skip
                     (customEVFilterApplied fq)) ;;
    ret (mkListResponse sessions (parsedFilters fq) take skip).

(** [GET /log/errors] *)
Definition getErrors (data : GetListDto) (uid : option string) (headers : Headers)
    : M ListResponse :=
  let pid := gl_pid data in
  let period := gl_period data in
  let timezone := or_default (gl_timezone data) (DEFAULT_TIMEZONE d) in
  _ <- check (validatePID d pid) ;;
  _ <- check (checkProjectAccess d pid uid (x_password headers)) ;;
  let take := getSafeNumber (gl_take data) 30 in
  let skip := getSafeNumber (gl_skip data) 0 in
  if (take >? 150)%Z
  then throw (BadRequestException "The maximum number of errors to return is 150")
  else
    ' (timeBucket, diff) <-
      (if period_is period "all"
       then
         res <- query (QTimeBucketForAllTime pid period timezone)
                      (getTimeBucketForAllTime d pid period timezone) ;;
         ret (head (at_timeBucket res), Some (at_diff res))
       else ret (getLowestPossibleTimeBucket d period (gl_from data) (gl_to data), None)) ;;
    fq <- lift (getFiltersQuery d (gl_filters data) ANALYTICS) ;;
    let safeTimezone := getSafeTimezone d timezone in
    g <- lift (getGroupFromTo d (gl_from data) (gl_to data) timeBucket period
                 safeTimezone diff) ;;
    let paramsData := mkParams pid (groupFromUTC g) (groupToUTC g) (filtersParams fq) in
    errors <- query (QErrorsList take skip)
                (getErrorsList d (gl_options data) (filtersQuery fq) paramsData
                   safeTimezone take skip) ;;
    ret (mkListResponse errors (parsedFilters fq) take skip).

End Controller.

(** *** Vocabulary of the statements *)

(** A timing is present and between 0 and 300000 milliseconds. *)
Definition in_range (t : option Z) : Prop :=
  exists v, t = Some v /\ (0 <= v <= 300000)%Z.

Definition timings_in_range (perf : Perf) : Prop :=
  in_range (dns perf) /\ in_range (tls perf) /\ in_range (conn perf)
  /\ in_range (response perf) /\ in_range (render perf)
  /\ in_range (dom_load perf) /\ in_range (page_load perf)
  /\ in_range (ttfb perf).

(** The presence marker of a visitor exists and has not expired. *)
Definition seen (d : Deps) (w : World) (pid : string) (userAgent : option string)
    (ip : string) : Prop :=
  exists psid until,
    presence w !! visitor_key d (clock w) ip userAgent pid = Some (psid, until)
    /\ (clock w < until)%N.

(** A query parameter is missing or is the empty string. *)
Definition not_provided (v : option string) : Prop := v = None \/ v = Some "".

(** The row [log] builds for a pageview, for what [isUnique] returned:
    [trafficTransformer(psid, logDTO.pid, ..., logDTO.meta, 0,
    Number(unique))]. *)
Definition pageview_row (d : Deps) (logDTO : PageviewsDTO) (headers : Headers)
    (reqIP : option string) (unique : bool) (psid : N) : Json.value :=
  let geo := getGeoDetails d (request_ip d headers reqIP) (pv_tz logDTO) headers in
  let ua := UAParser d (user_agent headers) in
  trafficTransformer d
    (mkTraffic psid (pv_pid logDTO) (pv_pg logDTO) (pv_prev logDTO) (device_of ua)
       (browser_name ua) (os_name ua) (pv_lc logDTO) (pv_ref logDTO) (pv_so logDTO)
       (pv_me logDTO) (pv_ca logDTO) (pv_te logDTO) (pv_co logDTO) (country geo)
       (region geo) (city geo) (pv_meta logDTO) 0 (Number_of_bool unique)).

(** The row [log] builds for a performance payload:
    [performanceTransformer(logDTO.pid, logDTO.pg, dv, br, country, region,
    city, dns, tls, conn, response, render, domLoad, pageLoad, ttfb)]. *)
Definition performance_row (d : Deps) (logDTO : PageviewsDTO) (headers : Headers)
    (reqIP : option string) (perf : Perf) : Json.value :=
  let geo := getGeoDetails d (request_ip d headers reqIP) (pv_tz logDTO) headers in
  let ua := UAParser d (user_agent headers) in
  performanceTransformer d
    (mkPerfArgs (pv_pid logDTO) (pv_pg logDTO) (device_of ua) (browser_name ua)
       (country geo) (region geo) (city geo) (dns perf) (tls perf) (conn perf)
       (response perf) (render perf) (dom_load perf) (page_load perf) (ttfb perf)).

(** A pageview passes the guards that precede the identity check of
    [log]. *)
Definition passes_log_guards (d : Deps) (logDTO : PageviewsDTO) (headers : Headers)
    (reqIP : option string) : Prop :=
  throwIfBot d (pv_pid logDTO) (user_agent headers) = None
  /\ validate d (OfPageviews logDTO) (origin headers) (Some "log")
       (Some (request_ip d headers reqIP)) = None
  /\ forall psid, processInteractionSD d psid (pv_pid logDTO) = None.

(** A custom event passes the guards of [logCustom]. *)
Definition passes_custom_guards (d : Deps) (eventsDTO : EventsDTO) (headers : Headers)
    (reqIP : option string) : Prop :=
  validateCustomEVMeta d (ev_meta eventsDTO) = None
  /\ throwIfBot d (ev_pid eventsDTO) (user_agent headers) = None
  /\ validate d (OfEvents eventsDTO) (origin headers) (Some "custom")
       (Some (request_ip d headers reqIP)) = None.


(** A read request passes [validatePID] and [checkProjectAccess]. *)
Definition passes_access (d : Deps) (pid : string) (uid : option string)
    (headers : Headers) : Prop :=
  validatePID d pid = None
  /\ checkProjectAccess d pid uid (x_password headers) = None.

(** The time bucket the client asked for is one of the allowed ones. *)
Definition requested_allowed (allowed : list string) (timeBucket : option string) : Prop :=
  exists b, timeBucket = Some b /\ In b allowed.

(** The bucket used is the requested one when it is allowed and the first
    allowed one otherwise. *)
Definition bucket_choice (allowed : list string) (timeBucket used : option string) : Prop :=
  (requested_allowed allowed timeBucket -> used = timeBucket)
  /\ (~ requested_allowed allowed timeBucket -> used = head allowed).

(** The bucket and span the two list endpoints work with. *)
Definition list_bucket_resolves (d : Deps) (data : GetListDto)
    (timeBucket : option string) (diff : option Json.value) : Prop :=
  (period_is (gl_period data) "all" = true
   /\ exists res,
        getTimeBucketForAllTime d (gl_pid data) (gl_period data)
          (or_default (gl_timezone data) (DEFAULT_TIMEZONE d)) = Return res
        /\ timeBucket = head (at_timeBucket res)
        /\ diff = Some (at_diff res))
  \/ (period_is (gl_period data) "all" = false
      /\ timeBucket = getLowestPossibleTimeBucket d (gl_period data) (gl_from data)
                        (gl_to data)
      /\ diff = None).

(** The store calls a handler adds to those already issued. *)
Definition issues {A} (m : M A) (w : World) (calls : list StoreCall) : Prop :=
  issued (snd (m w)) = issued w ++ calls.

End Analytics.

(** ** Sample collaborators and requests *)

Module Samples.
Import Json Analytics.

Definition strings_of (v : option value) : list string :=
  match v with
  | Some (JArr l) =>
      flat_map (fun x => match x with JStr s => [s] | _ => [] end) l
  | _ => []
  end.

(** Collaborators that let every request through and a store that accepts
    every append. *)
Definition deps : Deps :=
  {| DEFAULT_TIMEZONE := "Etc/GMT";
     MAX_METRICS_IN_VIEW := 3;
     validatePID := fun _ => None;
     checkProjectAccess := fun _ _ _ => None;
     checkIfPerfMeasureIsValid := fun _ => None;
     parseMetrics := fun m =>
       strings_of (match m with Some text => parse text | None => None end);
     getTimeBucketForAllTime := fun _ _ _ =>
       Return (mkAllTime (JNum "40") ["day"; "week"; "month"]);
     getLowestPossibleTimeBucket := fun _ _ _ => Some "hour";
     getFiltersQuery := fun _ _ => Return (mkFiltersQuery "" (JObj []) (JArr []) false);
     getSafeTimezone := fun tz => tz;
     getGroupFromTo := fun _ _ _ _ _ _ =>
       Return (mkGroupFromTo "2024-01-01 00:00:00" "2024-02-10 00:00:00"
                             "2024-01-01 00:00:00" "2024-02-10 00:00:00");
     groupByTimeBucket := fun _ _ _ _ _ _ _ _ _ _ => Return (JObj []);
     getCustomEvents_svc := fun _ _ => Return (JObj []);
     getPageProperties := fun _ _ => Return (JObj []);
     getMetaResults := fun _ _ _ _ _ _ _ _ => Return (JArr []);
     groupPerfByTimeBucket := fun _ _ _ _ _ _ _ _ => Return (JObj []);
     groupCustomEVByTimeBucket := fun _ _ _ _ _ _ => Return (JObj []);
     getSessionsList := fun _ _ _ _ _ _ => Return (JArr []);
     getErrorsList := fun _ _ _ _ _ _ => Return (JArr []);
     filterChartEvents := fun result _ _ => Return result;
     throwIfBot := fun _ _ => None;
     validate := fun _ _ _ _ => None;
     validateCustomEVMeta := fun _ => None;
     processInteractionSD := fun _ _ => None;
     rotationSalt := fun window => "salt" +:+ pretty window;
     getSessionKey := fun salt ip ua pid =>
       "ses_" +:+ salt +:+ "|" +:+ pid +:+ "|" +:+ ip +:+ "|"
       +:+ match ua with Some s => s | None => "" end;
     getIPFromHeaders := fun _ => None;
     getGeoDetails := fun _ _ _ => mkGeo None None (Some "GB");
     UAParser := fun _ => mkUA None (Some "Firefox") (Some "Linux");
     trafficTransformer := fun a =>
       JObj [("psid", JNum (pretty (t_psid a))); ("pid", JStr (t_pid a));
             ("unique", JNum (pretty (t_unique a)))];
     customEventTransformer := fun a =>
       JObj [("psid", JNum (pretty (c_psid a))); ("pid", JStr (c_pid a));
             ("ev", JStr (c_ev a))];
     performanceTransformer := fun a =>
       JObj [("pid", JStr (f_pid a))];
     clickhouse_insert_error := fun _ _ => None |}.


Definition headers : Headers :=
  mkHeaders (Some "Mozilla/5.0") (Some "https://example.com") None.

Definition reqIP : option string := Some "203.0.113.7".

(** A world with empty tables in which no visitor has been seen. *)
Definition fresh : World := mkWorld ∅ 1000 1 [] [] [] [] [].

(** The same world after the sample visitor has been seen on project
    [abcdefghijkl]: the marker holds session 1 and is valid until 87400. *)
Definition visited : World :=
  mkWorld {[ visitor_key deps 1000 "203.0.113.7" (Some "Mozilla/5.0") "abcdefghijkl"
             := (1%N, 87400%N) ]}
          1000 2 [] [] [] [] [].

(** A pageview submitted with the unique-only flag. *)
Definition pageview_unique : PageviewsDTO :=
  mkPageviews "abcdefghijkl" (Some "/pricing") None None None None None None None None
              None None true None.

(** A custom event submitted with the unique flag. *)
Definition event_unique : EventsDTO :=
  mkEvents "abcdefghijkl" "signup" (Some "/pricing") None None None None None None
           None None None true.

Definition timings_ok : Perf :=
  mkPerf (Some 12%Z) (Some 30%Z) (Some 45%Z) (Some 80%Z) (Some 120%Z) (Some 600%Z)
         (Some 900%Z) (Some 95%Z).

Definition pageview_with_perf : PageviewsDTO :=
  mkPageviews "abcdefghijkl" (Some "/pricing") None None None None None None None None
              None None false (Some timings_ok).

Definition data_all : GetDataDto :=
  mkGetData "abcdefghijkl" (Some "all") (Some "hour") None None None None None None
            None (Some "[]").

(** A request for four metrics, one more than the sample cap. *)
Definition data_many_metrics : GetDataDto :=
  mkGetData "abcdefghijkl" (Some "7d") (Some "day") None None None None None
            (Some (stringify
                     (JArr [JStr "bounce"; JStr "views"; JStr "uniques"; JStr "duration"])))
            None None.

Definition list_request (take skip : option string) : GetListDto :=
  mkGetList "abcdefghijkl" (Some "7d") None None None None None take skip.

End Samples.

(** ** Dashboard: the remaining helpers of [filters.tsx] *)

Module ViewPrefs.
Import Lodash.

Definition validTimeBacket : list string := [ "hour"; "day"; "week"; "month" ].

Definition validPeriods : list string :=
  [ "custom"; "today"; "yesterday"; "1d"; "7d"; "4w"; "3M"; "12M"; "24M" ].

(** The saved view preference of one project: the two fields the filter
    reads ([undefined] is [None]) and the rest of the object. *)
Record ViewPref := mkPref {
  vp_period : option string;
  vp_timeBucket : option string;
  vp_rest : Json.value
}.

(** [_keys(prefs)]; the preferences are an object keyed by project id. *)
Definition _keys (prefs : gmap string ViewPref) : list string :=
  (map_to_list prefs).*1.

(** The callback of the first [_reduce]: [curr] ranges over the keys of
    [prefs], so [prefs[curr]] is always there. *)
Definition keep_valid (prefs : gmap string ViewPref) (prev : list string) (curr : string)
    : list string :=
  match prefs !! curr with
  | Some pref =>
      if negb (_includes_opt validPeriods (vp_period pref))
         || negb (_includes_opt validTimeBacket (vp_timeBucket pref))
      then prev
      else prev ++ [curr]
  | None => prev
  end.

(** The callback of the second [_reduce]: [{ ...prev, [curr]: prefs[curr] }]. *)
Definition copy_pref (prefs : gmap string ViewPref) (prev : gmap string ViewPref)
    (curr : string) : gmap string ViewPref :=
  match prefs !! curr with
  | Some pref => <[curr := pref]> prev
  | None => prev
  end.

Definition filterInvalidViewPrefs (prefs : gmap string ViewPref) : gmap string ViewPref :=
  let pids := _keys prefs in
  let filtered := foldl (keep_valid prefs) [] pids in
  foldl (copy_pref prefs) ∅ filtered.

(** A preference the filter keeps. *)
Definition valid_pref (pref : ViewPref) : Prop :=
  (exists p, vp_period pref = Some p /\ In p validPeriods)
  /\ (exists b, vp_timeBucket pref = Some b /\ In b validTimeBacket).

End ViewPrefs.

Module Navigation.
Import Lodash Filters.

(** What [handleNavigationParams] hands to its three callbacks: the search
    parameters given to [setSearchParams], the new filter state (from the
    array or the updater given to [stateSetter]) and the arguments of
    [loader]. *)
Record NavOutcome := mkNav {
  nav_params : URLSearchParams;
  nav_state : list IFilter;
  nav_forceReload : bool;
  nav_loaded : list IFilter
}.

Definition handleNavigationParams (items : list IFilter) (suffix : string)
    (searchParams : URLSearchParams) (override : bool) (prev : list IFilter)
    : NavOutcome :=
  let '(filters, searchParams') := applyFilters items suffix searchParams override in
  mkNav searchParams' (if override then filters else prev ++ filters) true filters.

(** An item [applyFilters] loads: its value is neither the empty string nor
    the empty array. *)
Definition loadable (item : IFilter) : bool :=
  negb (filter_falsy (filter item))
  && negb (Nat.eqb (List.length (filter_list (filter item))) 0).

(** The entries of a query string under one key, in order. *)
Definition sp_getAll (sp : URLSearchParams) (k : string) : list string :=
  map snd (List.filter (fun kv => String.eqb (fst kv) k) sp).

End Navigation.

(** ** More vocabulary *)

Module IngestVocabulary.
Import Analytics.

(** One request appends at most one row to a table. *)
Definition grew_by_at_most_one (before after : list Json.value) : Prop :=
  after = before \/ exists row, after = before ++ [row].

(** The pageview that [noscript] builds: the project id and nothing else. *)
Definition bare_pageview (pid : string) : PageviewsDTO :=
  mkPageviews pid None None None None None None None None None None None false None.


End IngestVocabulary.

(** ** More sample collaborators *)

Module MoreSamples.
Import Json Analytics Samples.

(** The sample collaborators with the answers of the bot check, of
    [validate], of [checkProjectAccess], of [getFiltersQuery] and of the
    store's appends set. *)
Definition deps_with (bot valid access : option Exception)
    (filters : Outcome FiltersQuery) (insert : Table -> option Exception) : Deps :=
  {| DEFAULT_TIMEZONE := DEFAULT_TIMEZONE deps;
     MAX_METRICS_IN_VIEW := MAX_METRICS_IN_VIEW deps;
     validatePID := validatePID deps;
     checkProjectAccess := fun _ _ _ => access;
     checkIfPerfMeasureIsValid := checkIfPerfMeasureIsValid deps;
     parseMetrics := parseMetrics deps;
     getTimeBucketForAllTime := getTimeBucketForAllTime deps;
     getLowestPossibleTimeBucket := getLowestPossibleTimeBucket deps;
     getFiltersQuery := fun _ _ => filters;
     getSafeTimezone := getSafeTimezone deps;
     getGroupFromTo := getGroupFromTo deps;
     groupByTimeBucket := groupByTimeBucket deps;
     getCustomEvents_svc := getCustomEvents_svc deps;
     getPageProperties := getPageProperties deps;
     getMetaResults := getMetaResults deps;
     groupPerfByTimeBucket := groupPerfByTimeBucket deps;
     groupCustomEVByTimeBucket := groupCustomEVByTimeBucket deps;
     getSessionsList := getSessionsList deps;
     getErrorsList := getErrorsList deps;
     filterChartEvents := filterChartEvents deps;
     throwIfBot := fun _ _ => bot;
     validate := fun _ _ _ _ => valid;
     validateCustomEVMeta := validateCustomEVMeta deps;
     processInteractionSD := processInteractionSD deps;
     rotationSalt := rotationSalt deps;
     getSessionKey := getSessionKey deps;
     getIPFromHeaders := getIPFromHeaders deps;
     getGeoDetails := getGeoDetails deps;
     UAParser := UAParser deps;
     trafficTransformer := trafficTransformer deps;
     customEventTransformer := customEventTransformer deps;
     performanceTransformer := performanceTransformer deps;
     clickhouse_insert_error := fun t _ => insert t |}.

Definition bot_detected : Exception := ForbiddenException "Bot traffic is ignored".

Definition origin_refused : Exception :=
  BadRequestException "This origin is prohibited by the project's origins policy".

Definition access_denied : Exception :=
  ForbiddenException "You are not allowed to view this project".


Definition filters_malformed : Exception :=
  UnprocessableEntityException "The provided filters are incorrect".

Definition no_filters : Outcome FiltersQuery :=
  Return (mkFiltersQuery "" (JObj []) (JArr []) false).

Definition all_tables_up (t : Table) : option Exception := None.


Definition data_7d : GetDataDto :=
  mkGetData "abcdefghijkl" (Some "7d") (Some "day") None None None None None None
            None None.

End MoreSamples.

(** ** The analytics controller: further handlers

    [getEIDsArray], [patchStatus], [getLiveVisitors], [getChartData],
    [getPerfChartData], [getOverallStats] and [getPerformanceOverallStats].
    These handlers keep no state of their own; what they ask of the rate
    limiter, the key-value store and the service is noted in a trace. *)

Module Endpoints.
Import Lodash Analytics.

(** [_isEmpty] on an array or [undefined]. *)
Definition _isEmpty_arr {A} (v : option (list A)) : bool :=
  match v with
  | None => true
  | Some [] => true
  | Some (_ :: _) => false
  end.

(** [getEIDsArray(eids, eid)]: [eids] is an array of error ids or
    [undefined], [eid] a string or [undefined]. *)
Definition getEIDsArray (eids : option (list string)) (eid : option string)
    : Outcome (list string) :=
  let eidsEmpty := _isEmpty_arr eids in
  let eidEmpty := _isEmpty_str eid in
  if eidsEmpty && eidEmpty
  then Throw (BadRequestException
         "An array of Error ID's (eids) or a Error ID (eid) has to be provided")
  else if negb eidsEmpty && negb eidEmpty
  then Throw (BadRequestException
         "Please provide either an array of Error ID's (eids) or a Error ID (eid), but not both")
  else if negb eidsEmpty
  then Return (match eids with Some l => l | None => [] end)
  else Return [match eid with Some e => e | None => "" end].

(** [string.split(separator)] for a separator of one character. *)
Fixpoint split (sep : ascii) (s : string) : list string :=
  match s with
  | EmptyString => [""]
  | String c rest =>
      if Ascii.eqb c sep then "" :: split sep rest
      else match split sep rest with
           | piece :: pieces => String c piece :: pieces
           | [] => [String c ""]
           end
  end.

Record PatchStatusDTO := mkPatchStatus {
  ps_pid : string;
  ps_eid : option string;
  ps_eids : option (list string);
  ps_status : string
}.

Record GetOverallStatsDto := mkGetOverallStats {
  os_pids : option string;
  os_pid : option string;
  os_period : option string;
  os_from : option string;
  os_to : option string;
  os_timezone : option string;
  os_filters : option string;
  os_measure : option string
}.

Record ChartDataResponse := mkChartData {
  cd_result : Json.value;
  cd_appliedFilters : Json.value
}.

Record PerfChartResponse := mkPerfChart {
  pc_chart : Json.value;
  pc_appliedFilters : Json.value
}.

(** What a handler asks of its surroundings, with the arguments that
    matter. *)
Inductive Call :=
| CRateLimit (ip action : string) (reqAmount reqTimeout : Z)
| CUpdateEIDStatus (eids : list string) (status pid : string)
| CRedisKeys (pattern : string)
| CLiveVisitorsQuery (psids : list (option string)) (createdAfter pid : string)
| CGroupChart (timeBucket : option string) (groupFrom groupTo : string)
| CPerfChart (timeBucket from to : option string) (measure : string)
| CAnalyticsSummary (pids : list Json.value)
| CPerformanceSummary (pids : list Json.value) (measure : string).

(** The collaborators of these handlers.  [validatePID_any] and
    [checkProjectAccess_any] are the service's [validatePID] and
    [checkProjectAccess] on an element of a parsed [pids] array, which need
    not be a string.  [utc_now] is the clock in seconds and [format_utc]
    the ['YYYY-MM-DDTHH:mm:ss'] rendering.  Of the rejections of several
    promises awaited together, [first_rejection] is the one that arrives
    first. *)
Record Services := mkServices {
  checkRateLimit : string -> string -> Z -> Z -> option Exception;
  validateEIDs : list string -> string -> option Exception;
  updateEIDStatus : list string -> string -> string -> Outcome Json.value;
  redis_keys : string -> Outcome (list string);
  utc_now : Z;
  format_utc : Z -> string;
  live_visitors : list (option string) -> string -> string -> Outcome Json.value;
  groupChartByTimeBucket :
    option string -> string -> string -> string -> ParamsData -> string -> bool ->
    string -> Outcome Json.value;
  getPerfChartData_svc :
    option string -> option string -> option string -> string -> ParamsData ->
    string -> string -> Outcome Json.value;
  validatePID_any : Json.value -> option Exception;
  checkProjectAccess_any :
    Json.value -> option string -> option string -> option Exception;
  first_rejection : list Exception -> Exception;
  getAnalyticsSummary :
    list Json.value -> option string -> option string -> option string -> string ->
    option string -> Outcome Json.value;
  getPerformanceSummary :
    list Json.value -> option string -> option string -> option string -> string ->
    option string -> string -> Outcome Json.value
}.

(** *** Handlers that note their calls and may throw *)

Definition T (A : Type) : Type := list Call -> Outcome A * list Call.

Definition tret {A} (a : A) : T A := fun tr => (Return a, tr).

Definition tthrow {A} (e : Exception) : T A := fun tr => (Throw e, tr).

Definition tbind {A B} (m : T A) (k : A -> T B) : T B :=
  fun tr =>
    match m tr with
    | (Return a, tr') => k a tr'
    | (Throw e, tr') => (Throw e, tr')
    end.

Declare Scope traced_scope.
Delimit Scope traced_scope with traced.

Notation "x <- m ;; k" := (tbind m (fun x => k))
  (at level 20, m at level 99, k at level 200, only parsing) : traced_scope.

Definition tcheck (r : option Exception) : T unit :=
  match r with
  | Some e => tthrow e
  | None => tret tt
  end.

Definition tlift {A} (r : Outcome A) : T A := fun tr => (r, tr).

(** A call: note it, then hand back the answer. *)
Definition call {A} (c : Call) (answer : Outcome A) : T A :=
  fun tr => (answer, tr ++ [c]).

Definition outcome_of (r : option Exception) : Outcome unit :=
  match r with
  | Some e => Throw e
  | None => Return tt
  end.

(** The exceptions a check raises over the elements of an array. *)
Definition failures {A} (chk : A -> option Exception) (l : list A) : list Exception :=
  flat_map (fun x => match chk x with Some e => [e] | None => [] end) l.

Section Handlers.

Variable d : Deps.
Variable s : Services.

Local Open Scope traced_scope.

(** [PATCH /log/error-status] *)
Definition patchStatus (statusDTO : PatchStatusDTO) (uid : option string)
    (headers : Headers) (reqIP : option string) : T Json.value :=
  let pid := ps_pid statusDTO in
  let ip := request_ip d headers reqIP in
  _ <- call (CRateLimit ip "error-status" 100 1800)
            (outcome_of (checkRateLimit s ip "error-status" 100 1800)) ;;
  _ <- tcheck (validatePID d pid) ;;
  _ <- tcheck (checkProjectAccess d pid uid (x_password headers)) ;;
  eids <- tlift (getEIDsArray (ps_eids statusDTO) (ps_eid statusDTO)) ;;
  _ <- tcheck (validateEIDs s eids pid) ;;
  call (CUpdateEIDStatus eids (ps_status statusDTO) pid)
       (updateEIDStatus s eids (ps_status statusDTO) pid).

(** [GET /log/liveVisitors] *)
Definition getLiveVisitors (pid : string) (uid : option string) (headers : Headers)
    : T Json.value :=
  _ <- tcheck (validatePID d pid) ;;
  _ <- tcheck (checkProjectAccess d pid uid (x_password headers)) ;;
  keys <- call (CRedisKeys ("hb:*:" +:+ pid)) (redis_keys s ("hb:*:" +:+ pid)) ;;
  if Nat.eqb (List.length keys) 0
  then tret (Json.JArr [])
  else
    let psids := map (fun key => nth_error (split ":" key) 1) keys in
    let createdAfter := format_utc s (utc_now s - 3 * 3600)%Z in
    call (CLiveVisitorsQuery psids createdAfter pid)
         (live_visitors s psids createdAfter pid).

(** [GET /log/chart] *)
Definition getChartData (data : GetDataDto) (uid : option string) (headers : Headers)
    : T ChartDataResponse :=
  let pid := gd_pid data in
  let period := gd_period data in
  let timeBucket := gd_timeBucket data in
  let timezone := or_default (gd_timezone data) (DEFAULT_TIMEZONE d) in
  let mode := or_default (gd_mode data) PERIODICAL in
  _ <- tcheck (validatePID d pid) ;;
  fq <- tlift (getFiltersQuery d (gd_filters data) ANALYTICS) ;;
  let safeTimezone := getSafeTimezone d timezone in
  g <- tlift (getGroupFromTo d (gd_from data) (gd_to data) timeBucket period
                safeTimezone None) ;;
  _ <- tcheck (checkProjectAccess d pid uid (x_password headers)) ;;
  let paramsData := mkParams pid (groupFrom g) (groupTo g) (filtersParams fq) in
  result <- call (CGroupChart timeBucket (groupFrom g) (groupTo g))
              (groupChartByTimeBucket s timeBucket (groupFrom g) (groupTo g)
                 (filtersQuery fq) paramsData safeTimezone (customEVFilterApplied fq)
                 mode) ;;
  tret (mkChartData result (parsedFilters fq)).

(** [GET /log/performance/chart] *)
Definition getPerfChartData (data : GetDataDto) (uid : option string)
    (headers : Headers) : T PerfChartResponse :=
  let pid := gd_pid data in
  let period := gd_period data in
  let timeBucket := gd_timeBucket data in
  let timezone := or_default (gd_timezone data) (DEFAULT_TIMEZONE d) in
  let measure := or_default (gd_measure data) DEFAULT_MEASURE in
  _ <- tcheck (validatePID d pid) ;;
  _ <- tcheck (checkIfPerfMeasureIsValid d measure) ;;
  fq <- tlift (getFiltersQuery d (gd_filters data) PERFORMANCE) ;;
  let safeTimezone := getSafeTimezone d timezone in
  g <- tlift (getGroupFromTo d (gd_from data) (gd_to data) timeBucket period
                safeTimezone None) ;;
  _ <- tcheck (checkProjectAccess d pid uid (x_password headers)) ;;
  let paramsData := mkParams pid (groupFrom g) (groupTo g) (filtersParams fq) in
  chart <- call (CPerfChart timeBucket (gd_from data) (gd_to data) measure)
             (getPerfChartData_svc s timeBucket (gd_from data) (gd_to data)
                (filtersQuery fq) paramsData safeTimezone measure) ;;
  tret (mkPerfChart chart (parsedFilters fq)).

(** The callback of [_map(pidsArray, async currentPID => ...)]: what it
    rejects with, if it does. *)
Definition validate_one (uid : option string) (headers : Headers)
    (currentPID : Json.value) : option Exception :=
  match validatePID_any s currentPID with
  | Some e => Some e
  | None => checkProjectAccess_any s currentPID uid (x_password headers)
  end.

(** [await Promise.all(validationPromises)]: the callbacks of all project
    ids are started together; when none rejects the handler goes on, else
    it throws the rejection that arrives first. *)
Definition validate_all (pidsArray : list Json.value) (uid : option string)
    (headers : Headers) : T unit :=
  match failures (validate_one uid headers) pidsArray with
  | [] => tret tt
  | e :: rest => tthrow (first_rejection s (e :: rest))
  end.

(** [GET /log/birdseye] *)
Definition getOverallStats (data : GetOverallStatsDto) (uid : option string)
    (headers : Headers) : T Json.value :=
  let timezone := or_default (os_timezone data) (DEFAULT_TIMEZONE d) in
  pidsArray <- tlift (getPIDsArray (os_pids data) (os_pid data)) ;;
  _ <- validate_all pidsArray uid headers ;;
  call (CAnalyticsSummary pidsArray)
       (getAnalyticsSummary s pidsArray (os_period data) (os_from data) (os_to data)
          timezone (os_filters data)).

(** [GET /log/performance/birdseye] *)
Definition getPerformanceOverallStats (data : GetOverallStatsDto)
    (uid : option string) (headers : Headers) : T Json.value :=
  let timezone := or_default (os_timezone data) (DEFAULT_TIMEZONE d) in
  let measure := or_default (os_measure data) DEFAULT_MEASURE in
  pidsArray <- tlift (getPIDsArray (os_pids data) (os_pid data)) ;;
  _ <- tcheck (checkIfPerfMeasureIsValid d measure) ;;
  let measure := if String.eqb measure "quantiles" then DEFAULT_MEASURE else measure in
  _ <- validate_all pidsArray uid headers ;;
  call (CPerformanceSummary pidsArray measure)
       (getPerformanceSummary s pidsArray (os_period data) (os_from data) (os_to data)
          timezone (os_filters data) measure).

End Handlers.

(** *** Vocabulary of the statements *)

(** A key of the shape that the pattern [hb:*:pid] matches and from which
    [key.split(':')[1]] reads the session id. *)
Definition heartbeat_key (pid psid : string) : string :=
  "hb:" +:+ psid +:+ ":" +:+ pid.

(** No array of error ids is provided: [undefined] or the empty array. *)
Definition no_eids (eids : option (list string)) : Prop :=
  eids = None \/ eids = Some [].

(** What a handler run from an empty trace returns and notes. *)
Definition run {A} (m : T A) : Outcome A * list Call := m [].

End Endpoints.

Module EndpointSamples.
Import Json Analytics Endpoints.

Definition services : Services :=
  {| checkRateLimit := fun _ _ _ _ => None;
     validateEIDs := fun _ _ => None;
     updateEIDStatus := fun _ _ _ => Return (JObj []);
     redis_keys := fun pattern =>
       Return (if String.eqb pattern "hb:*:abcdefghijkl"
               then ["hb:17:abcdefghijkl"; "hb:42:abcdefghijkl"]
               else []);
     utc_now := 1700000000;
     format_utc := fun t => pretty t;
     live_visitors := fun _ _ _ => Return (JArr []);
     groupChartByTimeBucket := fun _ _ _ _ _ _ _ _ => Return (JObj []);
     getPerfChartData_svc := fun _ _ _ _ _ _ _ => Return (JObj []);
     validatePID_any := fun v =>
       match v with
       | JStr _ => None
       | _ => Some (BadRequestException "The provided Project ID (pid) is incorrect")
       end;
     checkProjectAccess_any := fun _ _ _ => None;
     first_rejection := fun l =>
       match l with
       | e :: _ => e
       | [] => Error "no rejection"
       end;
     getAnalyticsSummary := fun _ _ _ _ _ _ => Return (JObj []);
     getPerformanceSummary := fun _ _ _ _ _ _ _ => Return (JObj []) |}.

Definition status_request : PatchStatusDTO :=
  mkPatchStatus "abcdefghijkl" (Some "e1") None "resolved".

Definition stats_request (pids : option string) (measure : option string)
    : GetOverallStatsDto :=
  mkGetOverallStats pids None (Some "7d") None None None None measure.

End EndpointSamples.

(** * Properties *)

(** ** Strings *)

Section StringFacts.
Import Lodash.

Lemma append_nil_l (t : string) : "" +:+ t = t.
Proof. reflexivity. Qed.

Lemma append_cons (c : ascii) (s t : string) : String c s +:+ t = String c (s +:+ t).
Proof. reflexivity. Qed.

Lemma append_empty_r (s : string) : s +:+ "" = s.
Proof.
  induction s as [|c s IH]; [reflexivity|].
  now rewrite append_cons, IH.
Qed.

Lemma length_append (s t : string) :
  String.length (s +:+ t) = String.length s + String.length t.
Proof.
  induction s as [|c s IH]; [reflexivity|].
  rewrite append_cons. simpl. now rewrite IH.
Qed.

Lemma append_cancel_r (a b s : string) : a +:+ s = b +:+ s -> a = b.
Proof.
  revert b. induction a as [|c a IH]; intros [|c' b] H.
  - reflexivity.
  - apply (f_equal String.length) in H. rewrite !length_append in H. simpl in H. lia.
  - apply (f_equal String.length) in H. rewrite !length_append in H. simpl in H. lia.
  - rewrite !append_cons in H. injection H as -> H. f_equal. now apply IH.
Qed.

Lemma prefix_cons (a b : ascii) (s t : string) :
  String.prefix (String a s) (String b t)
  = if ascii_dec a b then String.prefix s t else false.
Proof. reflexivity. Qed.

Lemma prefix_refl (s : string) : String.prefix s s = true.
Proof.
  induction s as [|c s IH]; [reflexivity|].
  rewrite prefix_cons. destruct (ascii_dec c c); [assumption | congruence].
Qed.

Lemma prefix_append (s t : string) : String.prefix s (s +:+ t) = true.
Proof.
  induction s as [|c s IH]; [now destruct t|].
  rewrite append_cons, prefix_cons.
  destruct (ascii_dec c c); [assumption | congruence].
Qed.

Lemma substring_from_append (s t : string) :
  substring_from (String.length s) (s +:+ t) = t.
Proof. induction s as [|c s IH]; [now destruct t | now rewrite append_cons]. Qed.

Lemma substring_from_all (s : string) : substring_from (String.length s) s = "".
Proof.
  pose proof (substring_from_append s "") as H. now rewrite append_empty_r in H.
Qed.

Lemma startsWith_bang (value : string) :
  _startsWith value "!" = true <-> exists r, value = String "!" r.
Proof.
  unfold _startsWith. destruct value as [|c r].
  - split; [intros H; discriminate H | intros [r H]; discriminate H].
  - rewrite prefix_cons. destruct (ascii_dec "!" c) as [<-|Hne].
    + split; [intros _; now exists r | intros _; now destruct r].
    + split; [intros H; discriminate H | intros [r' H]; congruence].
Qed.

Lemma str_includes_suffix (c s : string) : str_includes (c +:+ s) s = true.
Proof.
  induction c as [|a c IH].
  - rewrite append_nil_l. destruct s; [reflexivity|].
    cbn [str_includes]. now rewrite prefix_refl.
  - rewrite append_cons. cbn [str_includes]. rewrite IH. apply orb_true_r.
Qed.

Lemma replace_suffix_fresh (c s' : string) (a : ascii) :
  occurs a c = false ->
  _replace (c +:+ String a s') (String a s') "" = c.
Proof.
  induction c as [|b c IH]; intros Hocc.
  - rewrite append_nil_l. cbn [_replace].
    rewrite prefix_refl, append_nil_l. apply substring_from_all.
  - cbn [occurs] in Hocc. apply orb_false_iff in Hocc as [Hab Hocc].
    apply Ascii.eqb_neq in Hab. rewrite append_cons. cbn [_replace].
    rewrite prefix_cons. destruct (ascii_dec a b); [congruence|]. now rewrite IH.
Qed.

Lemma replace_empty_suffix (c : string) : _replace (c +:+ "") "" "" = c.
Proof. rewrite append_empty_r. now destruct c. Qed.

End StringFacts.

(** ** The URL filter helpers *)

Section FilterFacts.
Import Lodash Filters.

Lemma includes_In (l : list string) (x : string) : _includes l x = true <-> In x l.
Proof.
  unfold _includes. rewrite existsb_exists. split.
  - intros [y [Hy Heq]]. apply String.eqb_eq in Heq. now subst.
  - intros H. exists x. split; [assumption | apply String.eqb_refl].
Qed.

Lemma isFilterValid_strict (c : string) :
  isFilterValid c false = true <-> In c validFilters.
Proof.
  unfold isFilterValid. rewrite <- includes_In.
  destruct (_includes validFilters c); simpl; split; congruence.
Qed.

(** The array built by the [forEach] of [parseFiltersFromUrl] holds the
    entries that pass the two guards, in the order of the parameters. *)
Lemma parse_fold (keySuffix : string) (sp : URLSearchParams) (acc : list IFilter) :
  fold_left (fun acc kv =>
               match parse_entry keySuffix kv with
               | Some f => acc ++ [f]
               | None => acc
               end) sp acc
  = acc ++ flat_map (fun kv => match parse_entry keySuffix kv with
                               | Some f => [f]
                               | None => []
                               end) sp.
Proof.
  revert acc. induction sp as [|kv sp IH]; intros acc; simpl.
  - now rewrite app_nil_r.
  - rewrite IH. destruct (parse_entry keySuffix kv); simpl.
    + now rewrite <- app_assoc.
    + reflexivity.
Qed.

Lemma parsed_entries (keySuffix : string) (sp : URLSearchParams) (f : IFilter) :
  In f (parsedFilters (parseFiltersFromUrl keySuffix sp))
  <-> exists kv, In kv sp /\ parse_entry keySuffix kv = Some f.
Proof.
  unfold parseFiltersFromUrl. simpl. rewrite parse_fold. simpl.
  rewrite in_flat_map. split.
  - intros [kv [Hin Hf]]. exists kv. split; [assumption|].
    destruct (parse_entry keySuffix kv); simpl in Hf; [|contradiction].
    destruct Hf as [->|[]]. reflexivity.
  - intros [kv [Hin Hf]]. exists kv. split; [assumption|]. rewrite Hf. now left.
Qed.

(** What [parseFiltersFromUrl] keeps: the key contains the suffix and,
    without its first occurrence, is in the fixed allow-list. *)
Lemma parse_entry_kept (keySuffix key value : string) :
  (exists f, parse_entry keySuffix (key, value) = Some f)
  <-> str_includes key keySuffix = true
      /\ In (_replace key keySuffix "") validFilters.
Proof.
  unfold parse_entry. rewrite <- isFilterValid_strict.
  destruct (str_includes key keySuffix); simpl.
  - destruct (isFilterValid (_replace key keySuffix "") false); simpl.
    + split; [intros _; now split | intros _; eexists; reflexivity].
    + split; [intros [f H]; discriminate H | intros [_ H]; discriminate H].
  - split; [intros [f H]; discriminate H | intros [H _]; discriminate H].
Qed.

Lemma parse_entry_shape (keySuffix key value : string) (f : IFilter) :
  parse_entry keySuffix (key, value) = Some f ->
  column f = _replace key keySuffix ""
  /\ isExclusive f = _startsWith value "!"
  /\ filter f = FStr (if _startsWith value "!" then substring_from 1 value else value).
Proof.
  unfold parse_entry.
  destruct (str_includes key keySuffix); simpl; [|discriminate].
  destruct (isFilterValid (_replace key keySuffix "") false); simpl; [|discriminate].
  intros H. injection H as <-. simpl. auto.
Qed.

Lemma sp_delete_absent (sp : URLSearchParams) (k : string) :
  sp_has sp k = false -> sp_delete sp k = sp.
Proof.
  unfold sp_has, sp_delete. induction sp as [|kv sp IH]; simpl; [reflexivity|].
  intros H. apply orb_false_iff in H as [Hk Hrest].
  rewrite Hk. simpl. now rewrite IH.
Qed.

Lemma sp_has_app (sp1 sp2 : URLSearchParams) (k : string) :
  sp_has (sp1 ++ sp2) k = sp_has sp1 k || sp_has sp2 k.
Proof. unfold sp_has. apply existsb_app. Qed.

Lemma applyFilters_fold (suffix : string) (override : bool) (items : list IFilter) :
  Forall plain items ->
  List.NoDup (map column items) ->
  forall (acc : list IFilter) (sp : URLSearchParams),
    (forall f, In f items -> sp_has sp (column f +:+ suffix) = false) ->
    fold_left (applyFilters_item suffix override) items (acc, sp)
    = (acc ++ items, sp ++ encode suffix items).
Proof.
  unfold encode.
  induction items as [|f items IH]; intros Hplain Hnd acc sp Hfree; cbn [fold_left map].
  - now rewrite !app_nil_r.
  - inversion Hplain as [|? ? [v [Hv [Hne [_ Hex]]]] Hrest]; subst.
    inversion Hnd as [|? ? Hnotin Hnd']; subst.
    assert (Hstep : applyFilters_item suffix override (acc, sp) f
                    = (acc ++ [f], sp ++ [encode_entry suffix f])).
    { unfold applyFilters_item, encode_entry. rewrite Hv, Hex. simpl.
      apply String.eqb_neq in Hne. rewrite Hne. simpl.
      rewrite (Hfree f (or_introl eq_refl)). rewrite orb_true_r.
      rewrite sp_delete_absent by (apply Hfree; now left). reflexivity. }
    rewrite Hstep. rewrite IH; try assumption.
    + now rewrite <- !app_assoc.
    + intros f' Hin. rewrite sp_has_app, Hfree by (now right). simpl.
      rewrite orb_false_r. apply String.eqb_neq. intros Heq.
      apply append_cancel_r in Heq. apply Hnotin. rewrite Heq.
      now apply in_map.
Qed.

Lemma plain_normalized (f : IFilter) :
  In (column f) validFilters -> plain f -> normalized f.
Proof.
  intros Hcol [v [Hv [_ [Hbang _]]]]. split; [assumption|].
  exists v. split; [assumption | intros _; assumption].
Qed.

(** The parser reads back an entry written in the ['!'] encoding. *)
Lemma parse_encode_entry (suffix : string) (f : IFilter) :
  (suffix = "" \/ exists s', suffix = String "_" s') ->
  normalized f ->
  parse_entry suffix (encode_entry suffix f) = Some f.
Proof.
  intros Hsuffix [Hcol [v [Hv Hbang]]].
  unfold parse_entry, encode_entry. rewrite Hv, str_includes_suffix. cbn [negb].
  assert (Hrep : _replace (column f +:+ suffix) suffix "" = column f).
  { destruct Hsuffix as [->|[s' ->]]; [apply replace_empty_suffix|].
    apply replace_suffix_fresh.
    assert (Hall : forallb (fun c => negb (occurs "_" c)) validFilters = true)
      by reflexivity.
    rewrite forallb_forall in Hall. apply Hall in Hcol.
    now apply negb_true_iff in Hcol. }
  rewrite Hrep. apply isFilterValid_strict in Hcol. rewrite Hcol. cbn [negb].
  destruct f as [c fl [|]]; cbn [column filter isExclusive] in *; subst fl.
  - assert (Hb : _startsWith ("!" +:+ v) "!" = true)
      by (apply startsWith_bang; now exists v).
    rewrite Hb. reflexivity.
  - rewrite append_nil_l, (Hbang eq_refl). reflexivity.
Qed.

Lemma parse_encode (suffix : string) (items : list IFilter) :
  (suffix = "" \/ exists s', suffix = String "_" s') ->
  Forall normalized items ->
  parsedFilters (parseFiltersFromUrl suffix (encode suffix items)) = items.
Proof.
  intros Hsuffix Hnorm. unfold parseFiltersFromUrl, encode. cbn [parsedFilters].
  rewrite parse_fold. cbn [app].
  induction Hnorm as [|f items Hf _ IH]; [reflexivity|].
  cbn [map flat_map]. rewrite parse_encode_entry by assumption.
  cbn [app]. now f_equal.
Qed.

Lemma filters_differ_snoc (l : list IFilter) (x : IFilter) :
  filters_differ (l ++ [x]) l = true.
Proof.
  induction l as [|y l IH]; simpl; [reflexivity|].
  rewrite IH. apply orb_true_r.
Qed.

(** A filter added through [updateFilterState] is written to the query
    string with its value as it is, whatever [isExclusive] says. *)
Lemma updateFilterState_adds (sp : URLSearchParams) (filters : list IFilter)
    (key col v : string) (excl : bool) :
  findIndex filters v = None ->
  updateFilterState sp filters key col v excl
  = mkUpdate (filters ++ [mkFilter col (FStr v) excl]) (sp ++ [(key, v)]) true.
Proof.
  intros Hnew. unfold updateFilterState. rewrite Hnew.
  now rewrite filters_differ_snoc.
Qed.

(** Read back, such a filter is never exclusive: it is the filter that was
    added exactly when that one was not exclusive. *)
Lemma updateFilterState_read_back (suffix col v : string) (excl : bool) :
  (suffix = "" \/ exists s', suffix = String "_" s') ->
  In col validFilters ->
  _startsWith v "!" = false ->
  parsedFilters
    (parseFiltersFromUrl suffix
       (updatedParams (updateFilterState [] [] (col +:+ suffix) col v excl)))
  = [mkFilter col (FStr v) false].
Proof.
  intros Hsuffix Hcol Hbang.
  rewrite updateFilterState_adds by reflexivity. cbn [updatedParams app].
  change [(col +:+ suffix, v)] with (encode suffix [mkFilter col (FStr v) false]).
  apply parse_encode; [assumption|].
  constructor; [|constructor]. split; [assumption|].
  exists v. split; [reflexivity | intros _; assumption].
Qed.

(** C3.  The parser of untrusted query strings calls [isFilterValid] without
    its [checkDynamicFilters] flag: a column with a recognised dynamic prefix
    (['ev:key:'], ['tag:key:']), which [isFilterValid] accepts when the flag
    is set, is dropped from the applied set together with the unknown
    columns; only the allow-listed column is kept. *)
Theorem parse_drops_dynamic_columns :
  isFilterValid "ev:key:plan" true = true
  /\ isFilterValid "tag:key:author" true = true
  /\ isFilterValid "ev:key:plan" false = false
  /\ parsedFilters
       (parseFiltersFromUrl ""
          [("ev:key:plan", "pro"); ("tag:key:author", "ann"); ("cc", "US")])
     = [mkFilter "cc" (FStr "US") false].
Proof. repeat split. Qed.

(** An example of the loss: [applyFilters] writes the value of an exclusive
    filter without the leading ['!'], so the filter is read back as not
    exclusive. *)
Lemma roundtrip_loses_exclusive :
  let items := [mkFilter "cc" (FStr "US") true] in
  snd (applyFilters items "" [] true) = [("cc", "US")]
  /\ parsedFilters (parseFiltersFromUrl "" (snd (applyFilters items "" [] true)))
     = [mkFilter "cc" (FStr "US") false]
  /\ parsedFilters (parseFiltersFromUrl "" (snd (applyFilters items "" [] true)))
     <> items.
Proof. repeat split. discriminate. Qed.

(** What the two encoders write for one exclusive filter, and what is read
    back. *)
Lemma exclusive_written_bare (suffix col v : string) (override : bool) :
  (suffix = "" \/ exists s', suffix = String "_" s') ->
  In col validFilters ->
  v <> "" ->
  _startsWith v "!" = false ->
  let f := mkFilter col (FStr v) true in
  applyFilters [f] suffix [] override = ([f], [(col +:+ suffix, v)])
  /\ parsedFilters (parseFiltersFromUrl suffix (snd (applyFilters [f] suffix [] override)))
     = [mkFilter col (FStr v) false]
  /\ updateFilterState [] [] (col +:+ suffix) col v true
     = mkUpdate [f] [(col +:+ suffix, v)] true
  /\ parsedFilters
       (parseFiltersFromUrl suffix
          (updatedParams (updateFilterState [] [] (col +:+ suffix) col v true)))
     = [mkFilter col (FStr v) false].
Proof.
  intros Hsuffix Hcol Hne Hbang f.
  assert (Hread : parsedFilters (parseFiltersFromUrl suffix [(col +:+ suffix, v)])
                  = [mkFilter col (FStr v) false]).
  { change [(col +:+ suffix, v)] with (encode suffix [mkFilter col (FStr v) false]).
    apply parse_encode; [assumption|].
    constructor; [|constructor]. split; [assumption|].
    exists v. split; [reflexivity | intros _; assumption]. }
  assert (Happly : applyFilters [f] suffix [] override = ([f], [(col +:+ suffix, v)])).
  { unfold applyFilters, applyFilters_item, f.
    cbn [fold_left filter column filter_falsy filter_list List.length Nat.eqb].
    apply String.eqb_neq in Hne. rewrite Hne.
    cbn [sp_has existsb negb]. rewrite orb_true_r. reflexivity. }
  split; [exact Happly|]. split; [rewrite Happly; exact Hread|].
  split; [reflexivity | exact Hread].
Qed.

(** C9.  With a key suffix that is empty or begins with ['_']:
    the parser inverts the query-string form in which each value is appended
    under the column key plus suffix and an exclusive filter is carried by a
    leading ['!'] on the value, for every normalized filter set (allow-listed
    columns, one string value each, no leading ['!'] on a value that is not
    exclusive); and for every entry read from any query string,
    [isExclusive] is true exactly when the raw value begins with ['!'], and
    the stored value is the raw value without that prefix.  The encoders of
    the file do not write that form: [applyFilters] and [updateFilterState]
    append the value as it is and never add the ['!'].  So writing with
    [applyFilters] and parsing back gives the original set for plain filters
    (not exclusive, non-empty value without leading ['!']) with distinct
    columns, while an exclusive filter written by [applyFilters] or by
    [updateFilterState] is read back as not exclusive, although the same
    filter in the ['!'] form is read back as it was. *)
Theorem filters_roundtrip (suffix : string)
    (Hsuffix : suffix = "" \/ exists s', suffix = String "_" s') :
  (forall items,
     Forall normalized items ->
     parsedFilters (parseFiltersFromUrl suffix (encode suffix items)) = items)
  /\ (forall override items,
        Forall plain items ->
        Forall (fun f => In (column f) validFilters) items ->
        List.NoDup (map column items) ->
        applyFilters items suffix [] override = (items, encode suffix items)
        /\ parsedFilters
             (parseFiltersFromUrl suffix (snd (applyFilters items suffix [] override)))
           = items)
  /\ (forall (keySuffix : string) (sp : URLSearchParams) (f : IFilter),
        In f (parsedFilters (parseFiltersFromUrl keySuffix sp)) ->
        exists key value,
          In (key, value) sp
          /\ column f = _replace key keySuffix ""
          /\ (isExclusive f = true <-> exists r, value = String "!" r)
          /\ (forall r, value = String "!" r -> filter f = FStr r)
          /\ (isExclusive f = false -> filter f = FStr value))
  /\ (forall col v override,
        In col validFilters -> v <> "" -> _startsWith v "!" = false ->
        let f := mkFilter col (FStr v) true in
        parsedFilters (parseFiltersFromUrl suffix (encode suffix [f])) = [f]
        /\ snd (applyFilters [f] suffix [] override) = [(col +:+ suffix, v)]
        /\ parsedFilters
             (parseFiltersFromUrl suffix (snd (applyFilters [f] suffix [] override)))
           = [mkFilter col (FStr v) false]
        /\ updatedFilters (updateFilterState [] [] (col +:+ suffix) col v true) = [f]
        /\ updatedParams (updateFilterState [] [] (col +:+ suffix) col v true)
           = [(col +:+ suffix, v)]
        /\ parsedFilters
             (parseFiltersFromUrl suffix
                (updatedParams (updateFilterState [] [] (col +:+ suffix) col v true)))
           = [mkFilter col (FStr v) false]).
Proof.
  split; [|split; [|split]].
  - intros items Hnorm. now apply parse_encode.
  - intros override items Hplain Hcols Hdistinct.
    assert (Happly : applyFilters items suffix [] override
                     = (items, encode suffix items)).
    { unfold applyFilters. now rewrite applyFilters_fold. }
    split; [exact Happly|]. rewrite Happly. cbn [snd].
    apply parse_encode; [assumption|].
    rewrite Forall_forall in *. intros f Hin.
    apply plain_normalized; [apply Hcols | apply Hplain]; assumption.
  - intros keySuffix sp f Hin. apply parsed_entries in Hin as [[key value] [Hin Hf]].
    apply parse_entry_shape in Hf as [Hc [He Hv]].
    exists key, value. split; [assumption|]. split; [assumption|].
    rewrite He, Hv. split; [apply startsWith_bang|]. split.
    + intros r ->.
      assert (Hb : _startsWith (String "!" r) "!" = true)
        by (apply startsWith_bang; now exists r).
      now rewrite Hb.
    + intros ->. reflexivity.
  - intros col v override Hcol Hne Hbang f.
    destruct (exclusive_written_bare suffix col v override Hsuffix Hcol Hne Hbang)
      as [Happly [Hread [Hupdate Hread']]].
    subst f. cbn zeta in *. split.
    { apply parse_encode; [assumption|].
      constructor; [|constructor]. split; [assumption|].
      exists v. split; [reflexivity | intros H; discriminate H]. }
    split; [now rewrite Happly|]. split; [exact Hread|].
    split; [now rewrite Hupdate|]. split; [now rewrite Hupdate|].
    exact Hread'.
Qed.

Lemma filters_roundtrip_witness :
  let items := [mkFilter "cc" (FStr "US") false; mkFilter "pg" (FStr "/pricing") false] in
  let f := mkFilter "cc" (FStr "US") true in
  parsedFilters
    (parseFiltersFromUrl "_perf" (snd (applyFilters items "_perf" [] false)))
  = items
  /\ parsedFilters
       (parseFiltersFromUrl "_perf"
          (encode "_perf" [mkFilter "cc" (FStr "US") true; mkFilter "br" (FStr "Firefox") false]))
     = [mkFilter "cc" (FStr "US") true; mkFilter "br" (FStr "Firefox") false]
  /\ snd (applyFilters [f] "_perf" [] true) = [("cc" +:+ "_perf", "US")]
  /\ parsedFilters (parseFiltersFromUrl "_perf" (snd (applyFilters [f] "_perf" [] true)))
     = [mkFilter "cc" (FStr "US") false]
  /\ parsedFilters
       (parseFiltersFromUrl "_perf"
          (updatedParams (updateFilterState [] [] ("cc" +:+ "_perf") "cc" "US" true)))
     = [mkFilter "cc" (FStr "US") false].
Proof.
  intros items f.
  destruct (filters_roundtrip "_perf" (or_intror (ex_intro _ "perf" eq_refl)))
    as [Hencode [Happly [_ Hlost]]].
  split; [|split].
  - apply (Happly false items).
    + repeat constructor; eexists; repeat split; discriminate.
    + repeat constructor; simpl; tauto.
    + repeat constructor; simpl; intuition discriminate.
  - apply Hencode.
    repeat constructor; simpl; try tauto; eexists; split;
      try reflexivity; try discriminate; intros _; reflexivity.
  - destruct (Hlost "cc" "US" true) as [_ [Hw [Hr [_ [_ Hu]]]]].
    + simpl; tauto.
    + discriminate.
    + reflexivity.
    + split; [exact Hw|]. split; [exact Hr | exact Hu].
Defined.

End FilterFacts.

(** ** The JSON built-ins *)

Section JsonFacts.
Import Json.

Lemma append_assoc (a b c : string) : (a +:+ b) +:+ c = a +:+ (b +:+ c).
Proof.
  induction a as [|x a IH]; [reflexivity|].
  now rewrite !append_cons, IH.
Qed.

(** Reading back one escaped character. *)
Lemma str_body_escape_char (c : ascii) (t : string) :
  str_body None SPlain (escape_char c +:+ t)
  = emit (String c "") (str_body None SPlain t).
Proof.
  destruct c as [[] [] [] [] [] [] [] []]; reflexivity.
Qed.

Lemma str_body_escape (s rest : string) :
  str_body None SPlain (escape s +:+ String "034" rest) = Some (s, rest).
Proof.
  induction s as [|c s IH]; [reflexivity|].
  cbn [escape]. rewrite append_assoc, str_body_escape_char, IH. reflexivity.
Qed.

Lemma parse_value_quoted (k : nat) (r : string) :
  parse_value (S k) (String "034" r)
  = match str_body None SPlain r with
    | Some (str, r') => Some (JStr str, r')
    | None => None
    end.
Proof. reflexivity. Qed.

Lemma parse_value_bracket_quote (k : nat) (r : string) :
  parse_value (S k) (String "[" (String "034" r))
  = parse_elems (parse_value k) (S (String.length r)) [] (String "034" r).
Proof. reflexivity. Qed.

Lemma parse_elems_last (pv : string -> option (value * string)) (k : nat)
    (acc : list value) (r : string) (v : value) :
  pv r = Some (v, "]") ->
  parse_elems pv (S k) acc r = Some (JArr (acc ++ [v]), "").
Proof. intros H. cbn [parse_elems]. rewrite H. reflexivity. Qed.

(** [JSON.parse(JSON.stringify([s]))] is [[s]] for every string [s]. *)
Lemma parse_stringify_singleton (s : string) :
  parse (stringify (JArr [JStr s])) = Some (JArr [JStr s]).
Proof.
  unfold parse.
  change (stringify (JArr [JStr s]))
    with (String "[" (String "034" ((escape s +:+ String "034" "") +:+ "]"))).
  rewrite append_assoc.
  change (String "034" "" +:+ "]") with (String "034" "]").
  set (body := escape s +:+ String "034" "]").
  change (String.length (String "[" (String "034" body)))
    with (S (S (String.length body))).
  rewrite parse_value_bracket_quote.
  rewrite (parse_elems_last _ _ [] _ (JStr s)).
  - reflexivity.
  - rewrite parse_value_quoted. unfold body. now rewrite str_body_escape.
Qed.

End JsonFacts.

(** ** Visitor identity *)

Section IdentityFacts.
Import Lodash Analytics.

Variable d : Deps.

(** [isUnique] always returns; it reports a visit that is not new exactly
    when the visitor's marker exists and has not expired, and then hands back
    the marker's session id.  It touches only the markers. *)
Lemma isUnique_run (pid : string) (userAgent : option string) (ip : string) (w : World) :
  exists unique psid markers next,
    isUnique d pid userAgent ip w
    = (Return (unique, psid), with_presence w markers next)
    /\ (unique = false <-> seen d w pid userAgent ip)
    /\ markers !! visitor_key d (clock w) ip userAgent pid
       = Some (psid, (clock w + UNIQUE_SESSION_LIFE_TIME)%N).
Proof.
  unfold isUnique, seen.
  destruct (presence w !! visitor_key d (clock w) ip userAgent pid)
    as [[psid0 until]|] eqn:Hm.
  - destruct (clock w <? until)%N eqn:Hlt.
    + eexists false, psid0, _, _. split; [reflexivity|]. split.
      * split; [intros _ | reflexivity].
        exists psid0, until. split; [reflexivity | now apply N.ltb_lt].
      * apply lookup_insert_eq.
    + eexists true, (next_psid w), _, _. split; [reflexivity|]. split.
      * split; [discriminate|].
        intros [p [u [Heq Hlt']]]. injection Heq as <- <-.
        apply N.ltb_lt in Hlt'. congruence.
      * apply lookup_insert_eq.
  - eexists true, (next_psid w), _, _. split; [reflexivity|]. split.
    + split; [discriminate|]. intros [p [u [Heq _]]]. discriminate Heq.
    + apply lookup_insert_eq.
Qed.




End IdentityFacts.

(** ** The write endpoints *)

Section WriteFacts.
Import Lodash Analytics.

Variable d : Deps.

Lemma in_range_iff (t : option Z) :
  num_le t MAX_PERFORMANCE_VALUE = true /\ num_ge t 0 = true <-> in_range t.
Proof.
  unfold in_range, num_le, num_ge, MAX_PERFORMANCE_VALUE. destruct t as [v|].
  - rewrite Z.leb_le, Z.geb_le. split.
    + intros [Hle Hge]. exists v. split; [reflexivity | lia].
    + intros [v' [Heq Hr]]. injection Heq as <-. lia.
  - split; [intros [H _]; discriminate H | intros [v [H _]]; discriminate H].
Qed.

(** [isPerformanceValid] accepts a payload exactly when each of its eight
    timings is present and between 0 and 300000. *)
Lemma isPerformanceValid_spec (perf : Perf) :
  isPerformanceValid perf = true <-> timings_in_range perf.
Proof.
  unfold isPerformanceValid, timings_in_range.
  rewrite !andb_true_iff, <- !in_range_iff. tauto.
Qed.

Lemma in_range_not_empty (perf : Perf) :
  timings_in_range perf -> _isEmpty_perf (Some perf) = false.
Proof.
  intros [[v [Hdns _]] _]. unfold _isEmpty_perf. now rewrite Hdns.
Qed.

(** With the unique-only flag off and a store that accepts appends, [log]
    returns and appends the pageview row; it appends the performance row
    exactly when the payload is acceptable to [isPerformanceValid]. *)
Lemma log_rows (logDTO : PageviewsDTO) (headers : Headers) (reqIP : option string)
    (w : World) :
  passes_log_guards d logDTO headers reqIP ->
  pv_unique logDTO = false ->
  (forall t row, clickhouse_insert_error d t row = None) ->
  (forall a, _isEmpty_row (Some (performanceTransformer d a)) = false) ->
  exists w' row,
    log d logDTO headers reqIP w = (Return tt, w')
    /\ analytics_rows w' = analytics_rows w ++ [row]
    /\ logged w' = logged w
    /\ match pv_perf logDTO with
       | Some perf =>
           if isPerformanceValid perf
           then exists prow, performance_rows w' = performance_rows w ++ [prow]
           else performance_rows w' = performance_rows w
       | None => performance_rows w' = performance_rows w
       end.
Proof.
  intros [Hbot [Hvalid Hsd]] Hflag Hstore Hrow.
  destruct (isUnique_run d (pv_pid logDTO) (user_agent headers)
              (request_ip d headers reqIP) w)
    as [unique [psid [markers [next [Hrun _]]]]].
  unfold log, bind. rewrite Hbot, Hvalid. cbn [check ret].
  rewrite Hrun, Hsd. cbn [check ret]. rewrite Hflag, andb_false_r.
  unfold try_catch, bind, clickhouse_insert. rewrite Hstore.
  destruct (pv_perf logDTO) as [perf|] eqn:Hperf.
  - destruct (isPerformanceValid perf) eqn:Hok.
    + apply isPerformanceValid_spec in Hok as Hrange.
      rewrite (in_range_not_empty perf Hrange). cbn [negb andb].
      rewrite Hrow. cbn [negb]. rewrite Hstore.
      eexists _, _. split; [reflexivity|]. cbn.
      repeat split. eexists. reflexivity.
    + rewrite andb_false_r. cbn [ret].
      eexists _, _. split; [reflexivity|]. cbn. repeat split.
  - cbn [ret]. eexists _, _. split; [reflexivity|]. cbn. repeat split.
Qed.

(** C10.  For a pageview that passes the guards, with a store that accepts
    appends, and for what [isUnique] returns for the request: unless the
    unique-only check turns the request away (a new visit sent with the
    flag, which gets Forbidden and appends nothing), [log] returns normally
    and appends the pageview row, which is [trafficTransformer] applied to
    the request's data.  The performance row, which is
    [performanceTransformer] applied to the request's data and the eight
    timings, is appended when every one of the timings (dns, tls, conn,
    response, render, dom_load, page_load, ttfb) is at least 0 and at most
    300000, and no performance row is appended when a timing is out of that
    range or missing or the payload is absent or empty. *)
Theorem performance_row_only_when_valid (logDTO : PageviewsDTO) (headers : Headers)
    (reqIP : option string) (w : World)
    (Hguards : passes_log_guards d logDTO headers reqIP)
    (Hstore : forall t row, clickhouse_insert_error d t row = None)
    (Hrow : forall a, _isEmpty_row (Some (performanceTransformer d a)) = false) :
  exists unique psid w0,
    isUnique d (pv_pid logDTO) (user_agent headers) (request_ip d headers reqIP) w
    = (Return (unique, psid), w0)
    /\ (unique && pv_unique logDTO = true ->
        exists message,
          log d logDTO headers reqIP w = (Throw (ForbiddenException message), w0)
          /\ analytics_rows w0 = analytics_rows w
          /\ performance_rows w0 = performance_rows w)
    /\ (unique && pv_unique logDTO = false ->
        exists w',
          log d logDTO headers reqIP w = (Return tt, w')
          /\ analytics_rows w'
             = analytics_rows w ++ [pageview_row d logDTO headers reqIP unique psid]
          /\ (forall perf,
                pv_perf logDTO = Some perf -> timings_in_range perf ->
                performance_rows w'
                = performance_rows w ++ [performance_row d logDTO headers reqIP perf])
          /\ (~ (exists perf, pv_perf logDTO = Some perf /\ timings_in_range perf) ->
              performance_rows w' = performance_rows w)).
Proof.
  destruct Hguards as [Hbot [Hvalid Hsd]].
  destruct (isUnique_run d (pv_pid logDTO) (user_agent headers)
              (request_ip d headers reqIP) w)
    as [unique [psid [markers [next [Hrun _]]]]].
  exists unique, psid, (with_presence w markers next).
  split; [exact Hrun|]. split.
  - intros Hflag. unfold log, bind. rewrite Hbot, Hvalid. cbn [check ret].
    rewrite Hrun, Hsd. cbn [check ret]. rewrite Hflag.
    eexists. split; [reflexivity|]. split; reflexivity.
  - intros Hflag. unfold log, bind. rewrite Hbot, Hvalid. cbn [check ret].
    rewrite Hrun, Hsd. cbn [check ret]. rewrite Hflag.
    unfold try_catch, bind, clickhouse_insert. rewrite Hstore.
    destruct (pv_perf logDTO) as [perf|] eqn:Hperf.
    + destruct (isPerformanceValid perf) eqn:Hok.
      * apply isPerformanceValid_spec in Hok as Hrange.
        rewrite (in_range_not_empty perf Hrange). cbn [negb andb].
        rewrite Hrow. cbn [negb]. rewrite Hstore.
        eexists. split; [reflexivity|]. split; [reflexivity|]. split.
        -- intros perf' Heq _. injection Heq as <-. reflexivity.
        -- intros Hno. exfalso. apply Hno. now exists perf.
      * rewrite andb_false_r. cbn [ret].
        eexists. split; [reflexivity|]. split; [reflexivity|]. split.
        -- intros perf' Heq Hrange. injection Heq as <-.
           apply isPerformanceValid_spec in Hrange. congruence.
        -- intros _. reflexivity.
    + cbn [ret]. eexists. split; [reflexivity|]. split; [reflexivity|]. split.
      * intros perf' Heq. discriminate Heq.
      * intros _. reflexivity.
Qed.

(** What [log] does with the unique-only flag set: a visit that is not new
    is saved, a new visit is rejected. *)
Lemma log_unique_only (logDTO : PageviewsDTO) (headers : Headers)
    (reqIP : option string) (w : World) :
  passes_log_guards d logDTO headers reqIP ->
  pv_unique logDTO = true ->
  (seen d w (pv_pid logDTO) (user_agent headers) (request_ip d headers reqIP) ->
   (forall t row, clickhouse_insert_error d t row = None) ->
   exists w' row,
     log d logDTO headers reqIP w = (Return tt, w')
     /\ analytics_rows w' = analytics_rows w ++ [row])
  /\ (~ seen d w (pv_pid logDTO) (user_agent headers) (request_ip d headers reqIP) ->
      exists w' message,
        log d logDTO headers reqIP w = (Throw (ForbiddenException message), w')
        /\ analytics_rows w' = analytics_rows w
        /\ performance_rows w' = performance_rows w).
Proof.
  intros [Hbot [Hvalid Hsd]] Hflag.
  destruct (isUnique_run d (pv_pid logDTO) (user_agent headers)
              (request_ip d headers reqIP) w)
    as [unique [psid [markers [next [Hrun [Hseen _]]]]]].
  split.
  - intros Hs Hstore. apply Hseen in Hs. subst unique.
    unfold log, bind. rewrite Hbot, Hvalid. cbn [check ret].
    rewrite Hrun, Hsd. cbn [check ret andb].
    unfold try_catch, bind, clickhouse_insert. rewrite Hstore.
    destruct (match pv_perf logDTO with Some _ => _ | None => _ end) as [prow|].
    + destruct (negb (_isEmpty_row (Some prow))).
      * rewrite Hstore. eexists _, _. split; [reflexivity|]. reflexivity.
      * eexists _, _. split; [reflexivity|]. reflexivity.
    + eexists _, _. split; [reflexivity|]. reflexivity.
  - intros Hs. assert (unique = true) as ->.
    { destruct unique; [reflexivity|]. exfalso. apply Hs. now apply Hseen. }
    unfold log, bind. rewrite Hbot, Hvalid. cbn [check ret].
    rewrite Hrun, Hsd. cbn [check ret]. rewrite Hflag. cbn [andb throw].
    eexists _, _. split; [reflexivity|]. split; reflexivity.
Qed.

(** What [logCustom] does with the unique flag set: an event already seen
    for the visitor is rejected and nothing is appended; a new one is
    saved. *)
Lemma logCustom_unique (eventsDTO : EventsDTO) (headers : Headers)
    (reqIP : option string) (w : World) :
  passes_custom_guards d eventsDTO headers reqIP ->
  ev_unique eventsDTO = true ->
  let key := ev_pid eventsDTO +:+ "-" +:+ ev_ev eventsDTO in
  (seen d w key (user_agent headers) (request_ip d headers reqIP) ->
   exists w' message,
     logCustom d eventsDTO headers reqIP w = (Throw (ForbiddenException message), w')
     /\ customEV_rows w' = customEV_rows w
     /\ analytics_rows w' = analytics_rows w)
  /\ (~ seen d w key (user_agent headers) (request_ip d headers reqIP) ->
      (forall t row, clickhouse_insert_error d t row = None) ->
      exists w' row,
        logCustom d eventsDTO headers reqIP w = (Return tt, w')
        /\ customEV_rows w' = customEV_rows w ++ [row]).
Proof.
  intros [Hmeta [Hbot Hvalid]] Hflag key.
  destruct (isUnique_run d key (user_agent headers) (request_ip d headers reqIP) w)
    as [unique [psid [markers [next [Hrun [Hseen _]]]]]].
  fold key. split.
  - intros Hs. apply Hseen in Hs. subst unique.
    unfold logCustom, bind. rewrite Hmeta, Hbot, Hvalid. cbn [check ret].
    rewrite Hflag. fold key. rewrite Hrun. cbn [negb throw].
    eexists _, _. split; [reflexivity|]. split; reflexivity.
  - intros Hs Hstore. assert (unique = true) as ->.
    { destruct unique; [reflexivity|]. exfalso. apply Hs. now apply Hseen. }
    destruct (isUnique_run d (ev_pid eventsDTO) (user_agent headers)
                (request_ip d headers reqIP) (with_presence w markers next))
      as [unique2 [psid2 [markers2 [next2 [Hrun2 _]]]]].
    unfold logCustom, bind. rewrite Hmeta, Hbot, Hvalid. cbn [check ret].
    rewrite Hflag. fold key. rewrite Hrun. cbn [negb ret].
    rewrite Hrun2. unfold try_catch, clickhouse_insert. rewrite Hstore.
    eexists _, _. split; reflexivity.
Qed.

(** The placeholder is a GIF89a image of one pixel by one pixel. *)
Lemma placeholder_is_1x1_gif :
  TRANSPARENT_GIF_BUFFER
  = [ Byte.x47; Byte.x49; Byte.x46; Byte.x38; Byte.x39; Byte.x61;
      Byte.x01; Byte.x00; Byte.x01; Byte.x00;
      Byte.x80; Byte.x00; Byte.x00; Byte.xff; Byte.xff; Byte.xff;
      Byte.x00; Byte.x00; Byte.x00; Byte.x2c; Byte.x00; Byte.x00; Byte.x00;
      Byte.x00; Byte.x01; Byte.x00; Byte.x01; Byte.x00; Byte.x00; Byte.x02;
      Byte.x02; Byte.x44; Byte.x01; Byte.x00; Byte.x3b ].
Proof. vm_compute. reflexivity. Qed.


End WriteFacts.

(** ** The read endpoints *)

Section ReadFacts.
Import Lodash Analytics.

Variable d : Deps.

Lemma includes_opt_requested (allowed : list string) (timeBucket : option string) :
  _includes_opt allowed timeBucket = true <-> requested_allowed allowed timeBucket.
Proof.
  unfold _includes_opt, requested_allowed. destruct timeBucket as [b|].
  - rewrite includes_In. split.
    + intros H. now exists b.
    + intros [b' [Heq H]]. now injection Heq as ->.
  - split; [discriminate | intros [b [Heq _]]; discriminate Heq].
Qed.

Lemma bucket_choice_computed (allowed : list string) (timeBucket : option string) :
  bucket_choice allowed timeBucket
    (if _includes_opt allowed timeBucket then timeBucket else head allowed).
Proof.
  unfold bucket_choice. rewrite <- includes_opt_requested.
  destruct (_includes_opt allowed timeBucket); split; congruence.
Qed.

Lemma digits_value_nonneg (s : string) (acc n : Z) :
  (0 <= acc)%Z -> digits_value acc s = Some n -> (0 <= n)%Z.
Proof.
  revert acc. induction s as [|c s IH]; intros acc Hacc; cbn [digits_value].
  - intros H. injection H as <-. assumption.
  - destruct (Json.is_digit c); [|discriminate].
    apply IH. lia.
Qed.

Lemma getSafeNumber_nonneg (value : option string) (defaultValue : Z) :
  (0 <= defaultValue)%Z -> (0 <= getSafeNumber value defaultValue)%Z.
Proof.
  intros Hd. unfold getSafeNumber. destruct value as [[|c rest]|]; try assumption.
  destruct (digits_value 0 (String c rest)) as [n|] eqn:Hn; [|assumption].
  now apply (digits_value_nonneg (String c rest) 0 n).
Qed.

(** Running the remaining store calls of a handler only extends the list of
    issued calls. *)
Ltac run_rest :=
  repeat match goal with
         | |- context [match ?x with Throw _ => _ | Return _ => _ end] => destruct x
         | |- context [if ?b then _ else _] => destruct b
         end;
  eexists; unfold issues; cbn; rewrite <- ?app_assoc; cbn [app]; reflexivity.

(** C7.  When the request passes [validatePID] and [checkProjectAccess] and
    asks for more than [MAX_METRICS_IN_VIEW] metrics, [getData] throws
    BadRequest and leaves the world as it was: no store query has been
    issued and no subset of the metrics has been computed. *)
Theorem getData_metrics_cap (data : GetDataDto) (uid : option string)
    (headers : Headers) (w : World)
    (Haccess : passes_access d (gd_pid data) uid headers)
    (Hmany : MAX_METRICS_IN_VIEW d < List.length (parseMetrics d (gd_metrics data))) :
  exists message,
    getData d data uid headers w = (Throw (BadRequestException message), w).
Proof.
  destruct Haccess as [Hpid Hacc].
  unfold getData, bind. rewrite Hpid, Hacc. cbn [check ret].
  apply Nat.ltb_lt in Hmany. rewrite Hmany. eexists. reflexivity.
Qed.

(** C6.  On the two list endpoints (sessions, errors), for a request that
    passes [validatePID] and [checkProjectAccess]: a [take] above 150 is
    rejected with BadRequest and the world is left as it was, so the list
    query has not run; with a [take] of at most 150 the request goes on and,
    when the collaborators return, the list query is issued with that
    [take] and [skip] and its result is returned with them; [skip] is 0
    when the parameter is absent and is never negative. *)
Theorem list_pagination (data : GetListDto) (uid : option string) (headers : Headers)
    (w : World)
    (Haccess : passes_access d (gl_pid data) uid headers) :
  let take := getSafeNumber (gl_take data) 30 in
  let skip := getSafeNumber (gl_skip data) 0 in
  let timezone := or_default (gl_timezone data) (DEFAULT_TIMEZONE d) in
  ((150 < take)%Z ->
   getSessions d data uid headers w
   = (Throw (BadRequestException "The maximum number of sessions to return is 150"), w)
   /\ getErrors d data uid headers w
      = (Throw (BadRequestException "The maximum number of errors to return is 150"), w))
  /\ ((take <= 150)%Z ->
      forall timeBucket diff fq g,
        list_bucket_resolves d data timeBucket diff ->
        getFiltersQuery d (gl_filters data) ANALYTICS = Return fq ->
        getGroupFromTo d (gl_from data) (gl_to data) timeBucket (gl_period data)
          (getSafeTimezone d timezone) diff = Return g ->
        let paramsData :=
          mkParams (gl_pid data) (groupFromUTC g) (groupToUTC g) (filtersParams fq) in
        (forall sessions,
           getSessionsList d (filtersQuery fq) paramsData (getSafeTimezone d timezone)
             take skip (customEVFilterApplied fq) = Return sessions ->
           exists w' before,
             getSessions d data uid headers w
             = (Return (mkListResponse sessions (parsedFilters fq) take skip), w')
             /\ issued w' = issued w ++ before ++ [QSessionsList take skip])
        /\ (forall errors,
              getErrorsList d (gl_options data) (filtersQuery fq) paramsData
                (getSafeTimezone d timezone) take skip = Return errors ->
              exists w' before,
                getErrors d data uid headers w
                = (Return (mkListResponse errors (parsedFilters fq) take skip), w')
                /\ issued w' = issued w ++ before ++ [QErrorsList take skip]))
  /\ (gl_skip data = None -> skip = 0%Z)
  /\ (0 <= skip)%Z.
Proof.
  intros take skip timezone. subst take skip timezone.
  destruct Haccess as [Hpid Hacc].
  split; [|split; [|split]].
  - intros Hbig. apply Z.gtb_lt in Hbig.
    unfold getSessions, getErrors, bind. rewrite Hpid, Hacc. cbn [check ret].
    rewrite Hbig. split; reflexivity.
  - intros Hsmall timeBucket diff fq g Hbucket Hfq Hg paramsData.
    subst paramsData.
    assert (Hle : (getSafeNumber (gl_take data) 30 >? 150)%Z = false)
      by (apply not_true_is_false; rewrite Z.gtb_lt; lia).
    split.
    + intros sessions Hlist.
      unfold getSessions, bind. rewrite Hpid, Hacc. cbn [check ret].
      rewrite Hle.
      destruct Hbucket as [[Hall [res [Hres [-> ->]]]] | [Hnot [-> ->]]].
      * rewrite Hall. unfold bind, query, lift. rewrite Hres.
        cbn [ret]. rewrite Hfq, Hg, Hlist.
        eexists _, [_]. split; [reflexivity|]. cbn. now rewrite <- app_assoc.
      * rewrite Hnot. unfold bind, query, lift. cbn [ret]. rewrite Hfq, Hg, Hlist.
        eexists _, []. split; reflexivity.
    + intros errors Hlist.
      unfold getErrors, bind. rewrite Hpid, Hacc. cbn [check ret].
      rewrite Hle.
      destruct Hbucket as [[Hall [res [Hres [-> ->]]]] | [Hnot [-> ->]]].
      * rewrite Hall. unfold bind, query, lift. rewrite Hres.
        cbn [ret]. rewrite Hfq, Hg, Hlist.
        eexists _, [_]. split; [reflexivity|]. cbn. now rewrite <- app_assoc.
      * rewrite Hnot. unfold bind, query, lift. cbn [ret]. rewrite Hfq, Hg, Hlist.
        eexists _, []. split; reflexivity.
  - intros Hskip. now rewrite Hskip.
  - apply getSafeNumber_nonneg. lia.
Qed.

(** C1.  For a request with period 'all' that passes [validatePID] and
    [checkProjectAccess], once [getTimeBucketForAllTime] has returned the
    allowed buckets, the bucket used is the requested [timeBucket] when it is
    one of the allowed ones and the first allowed one otherwise; [getData],
    [getPerfData] and [getCustomEvents] each pass that bucket to
    [getGroupFromTo] and issue their grouping query with it, right after the
    all-time query. *)
Theorem period_all_bucket (data : GetDataDto) (uid : option string)
    (headers : Headers) (w : World) (res : AllTime)
    (Hperiod : gd_period data = Some "all")
    (Haccess : passes_access d (gd_pid data) uid headers)
    (Hall : getTimeBucketForAllTime d (gd_pid data) (Some "all")
              (or_default (gd_timezone data) (DEFAULT_TIMEZONE d)) = Return res) :
  let timezone := or_default (gd_timezone data) (DEFAULT_TIMEZONE d) in
  let measure := or_default (gd_measure data) DEFAULT_MEASURE in
  let allTime := QTimeBucketForAllTime (gd_pid data) (Some "all") timezone in
  exists used,
    bucket_choice (at_timeBucket res) (gd_timeBucket data) used
    /\ (List.length (parseMetrics d (gd_metrics data)) <= MAX_METRICS_IN_VIEW d ->
        forall fq g,
          getFiltersQuery d (gd_filters data) ANALYTICS = Return fq ->
          getGroupFromTo d (gd_from data) (gd_to data) used (Some "all")
            (getSafeTimezone d timezone) (Some (at_diff res)) = Return g ->
          exists rest,
            issues (getData d data uid headers) w
              (allTime :: QGroupByTimeBucket used (groupFrom g) (groupTo g) :: rest))
    /\ (checkIfPerfMeasureIsValid d measure = None ->
        forall fq g,
          getFiltersQuery d (gd_filters data) PERFORMANCE = Return fq ->
          getGroupFromTo d (gd_from data) (gd_to data) used (Some "all")
            (getSafeTimezone d timezone) (Some (at_diff res)) = Return g ->
          exists rest,
            issues (getPerfData d data uid headers) w
              (allTime
               :: QGroupPerfByTimeBucket used (groupFrom g) (groupTo g) measure :: rest))
    /\ (forall fq g,
          getFiltersQuery d (gd_filters data) ANALYTICS = Return fq ->
          getGroupFromTo d (gd_from data) (gd_to data) used (Some "all")
            (getSafeTimezone d timezone) (Some (at_diff res)) = Return g ->
          exists rest,
            issues (getCustomEvents d data uid headers) w
              (allTime
               :: QGroupCustomEVByTimeBucket used (groupFrom g) (groupTo g) :: rest)).
Proof.
  intros timezone measure allTime. subst timezone measure allTime.
  destruct Haccess as [Hpid Hacc].
  exists (if _includes_opt (at_timeBucket res) (gd_timeBucket data)
          then gd_timeBucket data else head (at_timeBucket res)).
  split; [apply bucket_choice_computed|]. split; [|split].
  - intros Hcap fq g Hfq Hg.
    assert (Hle : Nat.ltb (MAX_METRICS_IN_VIEW d)
                    (List.length (parseMetrics d (gd_metrics data))) = false)
      by (apply Nat.ltb_ge; exact Hcap).
    unfold issues, getData, bind. rewrite Hpid, Hacc. cbn [check ret].
    rewrite Hle, Hperiod. cbn [period_is]. rewrite String.eqb_refl.
    unfold bind, query, lift. rewrite Hall. cbn [ret].
    rewrite Hfq, Hg. run_rest.
  - intros Hmeasure fq g Hfq Hg.
    unfold issues, getPerfData, bind.
    rewrite Hpid, Hmeasure, Hacc. cbn [check ret].
    rewrite Hperiod. cbn [period_is]. rewrite String.eqb_refl.
    unfold bind, query, lift. rewrite Hall. cbn [ret].
    rewrite Hfq, Hg. run_rest.
  - intros fq g Hfq Hg.
    unfold issues, getCustomEvents, bind. rewrite Hpid, Hacc. cbn [check ret].
    rewrite Hperiod.
    change (strict_eq (Some "all")
              (nth_error VALID_PERIODS (List.length VALID_PERIODS - 1))) with true.
    unfold bind, query, lift. rewrite Hall. cbn [ret].
    rewrite Hfq, Hg. run_rest.
Qed.

End ReadFacts.

(** ** Project id lists *)

Section PidFacts.
Import Lodash Json Analytics.

Lemma isEmpty_not_provided (v : option string) :
  _isEmpty_str v = true <-> not_provided v.
Proof.
  unfold _isEmpty_str, not_provided. destruct v as [s|].
  - rewrite String.eqb_eq. split.
    + intros ->. now right.
    + intros [H|H]; [discriminate H | now injection H].
  - split; [now left | reflexivity].
Qed.

Lemma isEmpty_provided (s : string) : s <> "" -> _isEmpty_str (Some s) = false.
Proof. intros H. now apply String.eqb_neq. Qed.

(** C8.  [getPIDsArray] throws BadRequest when neither [pids] nor [pid] is
    provided and when both are; with only [pid] it returns the one-element
    array [[pid]]; with only [pids] it throws UnprocessableEntity when the
    text is not valid JSON or parses to something that is not an array, and
    returns the parsed array otherwise.  An error branch throws and returns
    nothing. *)
Theorem getPIDsArray_branches (pids pid : option string) :
  (not_provided pids -> not_provided pid ->
   exists message, getPIDsArray pids pid = Throw (BadRequestException message))
  /\ (~ not_provided pids -> ~ not_provided pid ->
      exists message, getPIDsArray pids pid = Throw (BadRequestException message))
  /\ (not_provided pids ->
      forall p, pid = Some p -> p <> "" ->
                getPIDsArray pids pid = Return [JStr p])
  /\ (not_provided pid ->
      forall text, pids = Some text -> text <> "" ->
        (parse text = None ->
         exists message,
           getPIDsArray pids pid = Throw (UnprocessableEntityException message))
        /\ (forall v, parse text = Some v -> isArray v = false ->
            exists message,
              getPIDsArray pids pid = Throw (UnprocessableEntityException message))
        /\ (forall l, parse text = Some (JArr l) -> getPIDsArray pids pid = Return l)).
Proof.
  split; [|split; [|split]].
  - intros Hpids Hpid. apply isEmpty_not_provided in Hpids, Hpid.
    unfold getPIDsArray. rewrite Hpids, Hpid. eexists. reflexivity.
  - intros Hpids Hpid. rewrite <- isEmpty_not_provided in Hpids, Hpid.
    apply not_true_is_false in Hpids, Hpid.
    unfold getPIDsArray. rewrite Hpids, Hpid. eexists. reflexivity.
  - intros Hpids p -> Hp. apply isEmpty_not_provided in Hpids.
    unfold getPIDsArray. rewrite Hpids, (isEmpty_provided p Hp). cbn [andb negb].
    now rewrite parse_stringify_singleton.
  - intros Hpid text -> Htext. apply isEmpty_not_provided in Hpid.
    assert (Hrun : getPIDsArray (Some text) pid
                   = match parse text with
                     | None =>
                         Throw (UnprocessableEntityException
                           "Cannot process the provided array of Project ID's")
                     | Some (JArr l) => Return l
                     | Some _ =>
                         Throw (UnprocessableEntityException
                           "An array of Project ID's has to be provided as a 'pids' param")
                     end).
    { unfold getPIDsArray. rewrite Hpid, (isEmpty_provided text Htext).
      cbn [andb negb]. destruct pid as [p|]; reflexivity. }
    rewrite Hrun. split; [|split].
    + intros ->. eexists. reflexivity.
    + intros v -> Hv. destruct v; try discriminate Hv; eexists; reflexivity.
    + intros l ->. reflexivity.
Qed.

Lemma getPIDsArray_branches_witness :
  getPIDsArray None (Some "abcdefghijkl") = Return [JStr "abcdefghijkl"]
  /\ (exists message,
        getPIDsArray (Some "abcdefghijkl,mnopqrstuvwx") None
        = Throw (UnprocessableEntityException message))
  /\ (exists message,
        getPIDsArray (Some "{}") None
        = Throw (UnprocessableEntityException message))
  /\ (exists message,
        getPIDsArray None None = Throw (BadRequestException message)).
Proof.
  split; [|split; [|split]].
  - refine (proj1 (proj2 (proj2 (getPIDsArray_branches None (Some "abcdefghijkl"))))
              _ "abcdefghijkl" eq_refl _).
    + now left.
    + discriminate.
  - refine (proj1 (proj2 (proj2 (proj2
              (getPIDsArray_branches (Some "abcdefghijkl,mnopqrstuvwx") None))) _ _
              eq_refl _) _).
    + now left.
    + discriminate.
    + reflexivity.
  - refine (proj1 (proj2 (proj2 (proj2 (proj2
              (getPIDsArray_branches (Some "{}") None))) _ _
              eq_refl _)) _ _ _).
    + now left.
    + discriminate.
    + reflexivity.
    + reflexivity.
  - refine (proj1 (getPIDsArray_branches None None) _ _); now left.
Defined.

End PidFacts.

(** ** The sample requests *)

Section SampleRuns.
Import Lodash Json Analytics Samples.

Lemma visited_is_seen :
  seen deps visited "abcdefghijkl" (user_agent headers) (request_ip deps headers reqIP).
Proof.
  exists 1%N, 87400%N. split; [vm_compute; reflexivity | reflexivity].
Qed.

(** The world [visited] is what a first visit leaves of [fresh]. *)
Lemma visited_after_first_visit :
  snd (isUnique deps "abcdefghijkl" (Some "Mozilla/5.0") "203.0.113.7" fresh) = visited.
Proof. reflexivity. Qed.

Lemma fresh_is_not_seen :
  ~ seen deps fresh "abcdefghijkl" (user_agent headers) (request_ip deps headers reqIP).
Proof. intros [psid [until [H _]]]. vm_compute in H. discriminate H. Qed.

(** C2.  A pageview sent with the unique-only flag for a visit that is not
    new (the visitor's marker exists) is not rejected by [log]: the call
    returns and the row is appended, marked as not unique; the same pageview
    for a new visit is the one that is rejected with Forbidden, and nothing
    is appended.  [logCustom] rejects the repeated unique event. *)
Theorem log_unique_only_flag_inverted :
  pv_unique pageview_unique = true
  /\ fst (log deps pageview_unique headers reqIP visited) = Return tt
  /\ analytics_rows (snd (log deps pageview_unique headers reqIP visited))
     = [JObj [("psid", JNum "1"); ("pid", JStr "abcdefghijkl"); ("unique", JNum "0")]]
  /\ fst (log deps pageview_unique headers reqIP fresh)
     = Throw (ForbiddenException
         "The event was not saved because it was not unique while unique only param is provided")
  /\ analytics_rows (snd (log deps pageview_unique headers reqIP fresh)) = []
  /\ (let after := snd (logCustom deps event_unique headers reqIP fresh) in
      fst (logCustom deps event_unique headers reqIP fresh) = Return tt
      /\ fst (logCustom deps event_unique headers reqIP after)
         = Throw (ForbiddenException
             "The unique option provided, while the custom event have already been created for this session")
      /\ customEV_rows (snd (logCustom deps event_unique headers reqIP after))
         = customEV_rows after).
Proof. vm_compute. repeat split. Qed.

Lemma performance_row_only_when_valid_witness :
  exists w',
    log deps pageview_with_perf headers reqIP fresh = (Return tt, w')
    /\ analytics_rows w'
       = [JObj [("psid", JNum "1"); ("pid", JStr "abcdefghijkl"); ("unique", JNum "1")]]
    /\ performance_rows w' = [JObj [("pid", JStr "abcdefghijkl")]].
Proof.
  destruct (performance_row_only_when_valid deps pageview_with_perf headers reqIP fresh)
    as [unique [psid [w0 [Hrun [_ Hsaved]]]]].
  - repeat split.
  - intros t row. reflexivity.
  - intros a. reflexivity.
  - injection Hrun as <- <- _.
    destruct (Hsaved eq_refl) as [w' [Hlog [Hrows [Hvalid _]]]].
    exists w'. split; [exact Hlog|]. split; [exact Hrows|].
    apply (Hvalid timings_ok eq_refl).
    repeat split; eexists; (split; [reflexivity | lia]).
Defined.


Lemma getData_metrics_cap_witness :
  exists message,
    getData deps data_many_metrics None headers fresh
    = (Throw (BadRequestException message), fresh).
Proof.
  apply (getData_metrics_cap deps data_many_metrics None headers fresh).
  - split; reflexivity.
  - vm_compute. lia.
Defined.

Lemma list_pagination_witness :
  getSessions deps (list_request (Some "151") None) None headers fresh
  = (Throw (BadRequestException "The maximum number of sessions to return is 150"),
     fresh)
  /\ exists w',
       getErrors deps (list_request (Some "150") (Some "20")) None headers fresh
       = (Return (mkListResponse (JArr []) (JArr []) 150 20), w').
Proof.
  split.
  - refine (proj1 (proj1 (list_pagination deps (list_request (Some "151") None) None
                            headers fresh _) _)).
    + split; reflexivity.
    + reflexivity.
  - destruct (proj2 (proj1 (proj2
                (list_pagination deps (list_request (Some "150") (Some "20")) None
                   headers fresh (conj eq_refl eq_refl)))
                ltac:(vm_compute; discriminate) (Some "hour") None
                (mkFiltersQuery "" (JObj []) (JArr []) false)
                (mkGroupFromTo "2024-01-01 00:00:00" "2024-02-10 00:00:00"
                               "2024-01-01 00:00:00" "2024-02-10 00:00:00")
                ltac:(right; repeat split) eq_refl eq_refl) (JArr []) eq_refl)
      as [w' [before [Hrun _]]].
    exists w'. exact Hrun.
Defined.

Lemma period_all_bucket_witness :
  exists rest,
    issues (getData deps data_all None headers) fresh
      (QTimeBucketForAllTime "abcdefghijkl" (Some "all") "Etc/GMT"
       :: QGroupByTimeBucket (Some "day") "2024-01-01 00:00:00" "2024-02-10 00:00:00"
       :: rest).
Proof.
  destruct (period_all_bucket deps data_all None headers fresh
              (mkAllTime (JNum "40") ["day"; "week"; "month"]) eq_refl
              (conj eq_refl eq_refl) eq_refl)
    as [used [[_ Hfirst] [Hdata _]]].
  assert (Hused : used = Some "day").
  { apply Hfirst. intros [b [Heq Hin]]. injection Heq as <-.
    cbn in Hin. intuition discriminate. }
  subst used.
  apply (Hdata ltac:(vm_compute; lia)
           (mkFiltersQuery "" (JObj []) (JArr []) false)
           (mkGroupFromTo "2024-01-01 00:00:00" "2024-02-10 00:00:00"
                          "2024-01-01 00:00:00" "2024-02-10 00:00:00")
           eq_refl eq_refl).
Defined.


End SampleRuns.

(** ** More on the URL filter helpers *)

Section MoreFilterFacts.
Import Lodash Filters Navigation.

Lemma prefix_iff (p s : string) :
  String.prefix p s = true <-> exists r, s = p +:+ r.
Proof.
  revert s. induction p as [|a p IH]; intros s.
  - split; [intros _; exists s; reflexivity | intros _; now destruct s].
  - destruct s as [|b s].
    + split; [intros H; discriminate H | intros [r H]; discriminate H].
    + rewrite prefix_cons. destruct (ascii_dec a b) as [<-|Hne].
      * rewrite IH. split; intros [r Hr]; exists r.
        -- rewrite append_cons. now f_equal.
        -- rewrite append_cons in Hr. now injection Hr.
      * split; [intros H; discriminate H|].
        intros [r Hr]. rewrite append_cons in Hr. congruence.
Qed.

(** X1.  With its flag set, [isFilterValid] accepts exactly the allow-listed
    columns and the columns that begin with ['ev:key:'] or ['tag:key:'],
    whatever follows the prefix; without the flag it accepts exactly the
    allow-listed ones, so setting the flag never rejects a column that was
    accepted without it. *)
Theorem isFilterValid_columns (c : string) :
  (isFilterValid c true = true
   <-> In c validFilters
       \/ (exists key, c = "ev:key:" +:+ key)
       \/ (exists key, c = "tag:key:" +:+ key))
  /\ (isFilterValid c false = true <-> In c validFilters)
  /\ (isFilterValid c false = true -> isFilterValid c true = true).
Proof.
  assert (Hdyn : isFilterValid c true = true
                 <-> In c validFilters
                     \/ (exists key, c = "ev:key:" +:+ key)
                     \/ (exists key, c = "tag:key:" +:+ key)).
  { unfold isFilterValid, _some, validDynamicFilters, _startsWith.
    rewrite <- includes_In, <- !prefix_iff. cbn [existsb andb].
    destruct (_includes validFilters c);
      destruct (String.prefix "ev:key:" c), (String.prefix "tag:key:" c);
      cbn [orb]; intuition discriminate. }
  split; [exact Hdyn|]. split; [apply isFilterValid_strict|].
  intros H. apply Hdyn. left. now apply isFilterValid_strict.
Qed.

Lemma applyFilters_item_loaded (suffix : string) (override : bool)
    (acc : list IFilter) (sp : URLSearchParams) (item : IFilter) :
  fst (applyFilters_item suffix override (acc, sp) item)
  = acc ++ (if loadable item then [item] else []).
Proof.
  unfold applyFilters_item, loadable.
  destruct (filter_falsy (filter item)); cbn [negb andb fst]; [now rewrite app_nil_r|].
  destruct (Nat.eqb (List.length (filter_list (filter item))) 0);
    cbn [negb fst]; [now rewrite app_nil_r | reflexivity].
Qed.

Lemma applyFilters_fold_loaded (suffix : string) (override : bool)
    (items acc : list IFilter) (sp : URLSearchParams) :
  fst (fold_left (applyFilters_item suffix override) items (acc, sp))
  = acc ++ List.filter loadable items.
Proof.
  revert acc sp. induction items as [|item items IH]; intros acc sp; cbn [fold_left].
  - cbn. now rewrite app_nil_r.
  - destruct (applyFilters_item suffix override (acc, sp) item) as [acc' sp'] eqn:Hstep.
    rewrite IH. pose proof (applyFilters_item_loaded suffix override acc sp item) as H.
    rewrite Hstep in H. cbn [fst] in H. rewrite H. cbn [List.filter].
    destruct (loadable item); [now rewrite <- app_assoc | now rewrite app_nil_r].
Qed.

(** X2.  Whatever the query string holds and whatever [override] says,
    [applyFilters] returns the items whose value is neither empty nor an
    empty array, in their order: an item is returned for loading even when
    its value was not written to the query string. *)
Theorem applyFilters_returns_loadable (items : list IFilter) (suffix : string)
    (searchParams : URLSearchParams) (override : bool) :
  fst (applyFilters items suffix searchParams override) = List.filter loadable items.
Proof. unfold applyFilters. now rewrite applyFilters_fold_loaded. Qed.

End MoreFilterFacts.

Section QueryStringFacts.
Import Lodash Filters Navigation.

Lemma sp_getAll_app (a b : URLSearchParams) (k : string) :
  sp_getAll (a ++ b) k = sp_getAll a k ++ sp_getAll b k.
Proof. unfold sp_getAll. now rewrite List.filter_app, List.map_app. Qed.

Lemma sp_has_getAll (sp : URLSearchParams) (k : string) :
  sp_has sp k = false <-> sp_getAll sp k = [].
Proof.
  unfold sp_has, sp_getAll. induction sp as [|kv sp IH]; cbn [existsb List.filter map].
  - tauto.
  - destruct (String.eqb (fst kv) k); cbn [orb map].
    + split; intros H; discriminate H.
    + exact IH.
Qed.

Lemma sp_getAll_delete_same (sp : URLSearchParams) (k : string) :
  sp_getAll (sp_delete sp k) k = [].
Proof.
  unfold sp_getAll, sp_delete. induction sp as [|kv sp IH]; [reflexivity|].
  cbn [List.filter]. destruct (String.eqb (fst kv) k) eqn:Hk; cbn [negb].
  - exact IH.
  - cbn [List.filter]. now rewrite Hk.
Qed.

Lemma sp_getAll_delete_other (sp : URLSearchParams) (k k' : string) :
  k' <> k -> sp_getAll (sp_delete sp k') k = sp_getAll sp k.
Proof.
  intros Hne. unfold sp_getAll, sp_delete.
  induction sp as [|kv sp IH]; [reflexivity|].
  cbn [List.filter]. destruct (String.eqb (fst kv) k') eqn:Hk'; cbn [negb].
  - apply String.eqb_eq in Hk'.
    destruct (String.eqb (fst kv) k) eqn:Hk; [|exact IH].
    apply String.eqb_eq in Hk. congruence.
  - cbn [List.filter]. destruct (String.eqb (fst kv) k); cbn [map]; now rewrite IH.
Qed.

Lemma sp_append_all (ks : string) (values : list string) (sp : URLSearchParams) :
  fold_left (fun sp f => sp_append sp ks f) values sp
  = sp ++ map (fun f => (ks, f)) values.
Proof.
  revert sp. induction values as [|v values IH]; intros sp; cbn [fold_left map].
  - now rewrite app_nil_r.
  - rewrite IH. unfold sp_append. now rewrite <- app_assoc.
Qed.

Lemma sp_getAll_written (ks k : string) (values : list string) :
  sp_getAll (map (fun f => (ks, f)) values) k
  = if String.eqb ks k then values else [].
Proof.
  unfold sp_getAll. induction values as [|v values IH]; cbn [map List.filter fst].
  - now destruct (String.eqb ks k).
  - destruct (String.eqb ks k); cbn [map snd]; [now f_equal | exact IH].
Qed.

Lemma applyFilters_item_params (suffix : string) (override : bool)
    (acc : list IFilter) (sp : URLSearchParams) (item : IFilter) :
  snd (applyFilters_item suffix override (acc, sp) item)
  = if loadable item && (override || negb (sp_has sp (column item +:+ suffix)))
    then sp_delete sp (column item +:+ suffix)
         ++ map (fun f => (column item +:+ suffix, f)) (filter_list (filter item))
    else sp.
Proof.
  unfold applyFilters_item, loadable.
  destruct (filter_falsy (filter item)); cbn [negb andb snd]; [reflexivity|].
  destruct (Nat.eqb (List.length (filter_list (filter item))) 0);
    cbn [negb snd]; [reflexivity|].
  destruct (override || negb (sp_has sp (column item +:+ suffix)));
    [apply sp_append_all | reflexivity].
Qed.

Lemma loadable_values (item : IFilter) :
  loadable item = true -> filter_list (filter item) <> [].
Proof.
  unfold loadable. intros H. apply andb_true_iff in H as [_ H].
  destruct (filter_list (filter item)); [discriminate H | discriminate].
Qed.

(** One iteration leaves the values under a key as they are when the item
    is written under another key, or when nothing is overridden and the key
    is present. *)
Lemma applyFilters_item_keeps (suffix : string) (override : bool)
    (acc : list IFilter) (sp : URLSearchParams) (item : IFilter) (k : string) :
  (override = false /\ sp_has sp k = true)
  \/ (loadable item = true -> column item +:+ suffix <> k) ->
  sp_getAll (snd (applyFilters_item suffix override (acc, sp) item)) k
  = sp_getAll sp k.
Proof.
  intros H. rewrite applyFilters_item_params.
  destruct (loadable item) eqn:Hload; cbn [andb]; [|reflexivity].
  destruct (String.eqb (column item +:+ suffix) k) eqn:Hk.
  - apply String.eqb_eq in Hk. destruct H as [[-> Hhas]|Hne].
    + rewrite Hk, Hhas. reflexivity.
    + now destruct (Hne eq_refl).
  - destruct (override || negb (sp_has sp (column item +:+ suffix))); [|reflexivity].
    rewrite sp_getAll_app, sp_getAll_written, Hk, app_nil_r.
    apply sp_getAll_delete_other. now apply String.eqb_neq.
Qed.

Lemma applyFilters_fold_keeps (suffix : string) (override : bool)
    (items acc : list IFilter) (sp : URLSearchParams) (k : string) :
  (override = false /\ sp_has sp k = true)
  \/ (forall item, In item items -> loadable item = true ->
                   column item +:+ suffix <> k) ->
  sp_getAll (snd (fold_left (applyFilters_item suffix override) items (acc, sp))) k
  = sp_getAll sp k.
Proof.
  revert acc sp. induction items as [|item items IH]; intros acc sp H;
    cbn [fold_left]; [reflexivity|].
  destruct (applyFilters_item suffix override (acc, sp) item) as [acc' sp'] eqn:Hstep.
  assert (Hkeep : sp_getAll sp' k = sp_getAll sp k).
  { pose proof (applyFilters_item_keeps suffix override acc sp item k) as Hk.
    rewrite Hstep in Hk. apply Hk.
    destruct H as [H|H]; [now left | right; apply H; now left]. }
  rewrite IH, Hkeep; [reflexivity|].
  destruct H as [[Ho Hhas]|H].
  - left. split; [assumption|].
    destruct (sp_has sp' k) eqn:Hhas'; [reflexivity|].
    apply sp_has_getAll in Hhas'. rewrite Hkeep in Hhas'.
    apply sp_has_getAll in Hhas'. congruence.
  - right. intros item' Hin. apply H. now right.
Qed.

(** X3.  [applyFilters] leaves the values under a key of the query string
    as they are when no item with a value is written under that key, and,
    when [override] is false, also when the key is already present: without
    [override] the values found in the query string win over the item's. *)
Theorem applyFilters_keeps_entries (items : list IFilter) (suffix : string)
    (searchParams : URLSearchParams) (override : bool) (k : string) :
  (override = false /\ sp_has searchParams k = true)
  \/ (forall item, In item items -> loadable item = true ->
                   column item +:+ suffix <> k) ->
  sp_getAll (snd (applyFilters items suffix searchParams override)) k
  = sp_getAll searchParams k.
Proof. apply applyFilters_fold_keeps. Qed.

Lemma applyFilters_keeps_entries_witness :
  sp_getAll
    (snd (applyFilters [mkFilter "cc" (FStr "DE") false] "" [("cc", "US"); ("pg", "/")] false))
    "cc"
  = ["US"].
Proof.
  apply (applyFilters_keeps_entries [mkFilter "cc" (FStr "DE") false] ""
           [("cc", "US"); ("pg", "/")] false "cc").
  left. split; reflexivity.
Defined.

(** X4.  Which item ends up in the query string.  For an item with a value,
    the values under its key are afterwards exactly the item's values
    - with [override], when no later item with a value has the same column
      (the last one wins, and what the query string held under the key is
      replaced);
    - without [override], when the key was absent and no earlier item with a
      value has the same column (the first one wins). *)
Theorem applyFilters_writes_item (l1 l2 : list IFilter) (item : IFilter)
    (suffix : string) (searchParams : URLSearchParams) (override : bool) :
  loadable item = true ->
  (if override
   then forall g, In g l2 -> loadable g = true -> column g <> column item
   else sp_has searchParams (column item +:+ suffix) = false
        /\ forall g, In g l1 -> loadable g = true -> column g <> column item) ->
  sp_getAll (snd (applyFilters (l1 ++ item :: l2) suffix searchParams override))
            (column item +:+ suffix)
  = filter_list (filter item).
Proof.
  intros Hload H. unfold applyFilters. rewrite fold_left_app. cbn [fold_left].
  set (k := column item +:+ suffix).
  assert (Hother : forall l, (forall g, In g l -> loadable g = true ->
                                        column g <> column item) ->
                   forall g, In g l -> loadable g = true -> column g +:+ suffix <> k).
  { intros l Hl g Hin Hg Heq. apply append_cancel_r in Heq. now apply (Hl g). }
  destruct (fold_left (applyFilters_item suffix override) l1 ([], searchParams))
    as [acc1 sp1] eqn:H1.
  destruct (applyFilters_item suffix override (acc1, sp1) item) as [acc2 sp2] eqn:H2.
  pose proof (applyFilters_item_params suffix override acc1 sp1 item) as Hstep.
  rewrite H2, Hload in Hstep. cbn [snd andb] in Hstep. fold k in Hstep.
  assert (Hwritten : override || negb (sp_has sp1 k) = true ->
                     sp_getAll sp2 k = filter_list (filter item)).
  { intros Hw. rewrite Hstep, Hw, sp_getAll_app, sp_getAll_delete_same,
      sp_getAll_written, String.eqb_refl. reflexivity. }
  destruct override.
  - rewrite applyFilters_fold_keeps; [now apply Hwritten|].
    right. now apply (Hother l2).
  - destruct H as [Habsent Hl1].
    assert (Hsp1 : sp_has sp1 k = false).
    { apply sp_has_getAll.
      pose proof (applyFilters_fold_keeps suffix false l1 [] searchParams k) as Hk.
      rewrite H1 in Hk. cbn [snd] in Hk. rewrite Hk.
      - now apply sp_has_getAll.
      - right. now apply (Hother l1). }
    assert (Hsp2 : sp_getAll sp2 k = filter_list (filter item)).
    { apply Hwritten. now rewrite Hsp1. }
    rewrite applyFilters_fold_keeps; [exact Hsp2|].
    left. split; [reflexivity|].
    destruct (sp_has sp2 k) eqn:Hhas; [reflexivity|].
    apply sp_has_getAll in Hhas. rewrite Hsp2 in Hhas.
    now apply loadable_values in Hload.
Qed.

Lemma applyFilters_writes_item_witness :
  sp_getAll
    (snd (applyFilters ([mkFilter "pg" (FStr "/") false]
                        ++ mkFilter "cc" (FArr ["US"; "DE"]) false
                        :: [mkFilter "br" (FStr "Firefox") false])
                       "_err" [("cc_err", "FR")] true))
    ("cc" +:+ "_err")
  = ["US"; "DE"].
Proof.
  apply (applyFilters_writes_item [mkFilter "pg" (FStr "/") false]
           [mkFilter "br" (FStr "Firefox") false]
           (mkFilter "cc" (FArr ["US"; "DE"]) false) "_err" [("cc_err", "FR")] true).
  - reflexivity.
  - cbn [In]. intros g [<-|[]] _. discriminate.
Defined.

End QueryStringFacts.

Section FilterStateFacts.
Import Lodash Filters Navigation.

Lemma findIndex_first (l1 l2 : list IFilter) (f : IFilter) (v : string) :
  filter f = FStr v ->
  (forall g, In g l1 -> filter g <> FStr v) ->
  findIndex (l1 ++ f :: l2) v = Some (List.length l1).
Proof.
  intros Hf. induction l1 as [|g l1 IH]; intros Hl1; cbn [app findIndex List.length].
  - rewrite Hf. cbn [filter_is]. now rewrite String.eqb_refl.
  - assert (Hg : filter_is (filter g) v = false).
    { pose proof (Hl1 g (or_introl eq_refl)) as Hne.
      destruct (filter g) as [s|]; cbn [filter_is]; [|reflexivity].
      apply String.eqb_neq. congruence. }
    rewrite Hg, IH; [reflexivity|]. intros g' Hin. apply Hl1. now right.
Qed.

Lemma findIndex_split (filters : list IFilter) (v : string) (i : nat) :
  findIndex filters v = Some i ->
  exists l1 f l2,
    filters = l1 ++ f :: l2 /\ List.length l1 = i /\ filter f = FStr v
    /\ forall g, In g l1 -> filter g <> FStr v.
Proof.
  revert i. induction filters as [|g filters IH]; intros i; cbn [findIndex];
    [intros H; discriminate H|].
  destruct (filter_is (filter g) v) eqn:Hg.
  - intros H. injection H as <-. exists [], g, filters.
    split; [reflexivity|]. split; [reflexivity|]. split; [|intros ? []].
    destruct (filter g) as [s|]; cbn [filter_is] in Hg; [|discriminate Hg].
    apply String.eqb_eq in Hg. now subst.
  - destruct (findIndex filters v) as [j|]; cbn [option_map]; [|intros H; discriminate H].
    intros H. injection H as <-.
    destruct (IH j eq_refl) as [l1 [f [l2 [-> [Hlen [Hf Hl1]]]]]].
    exists (g :: l1), f, l2. split; [reflexivity|].
    split; [cbn [List.length]; now f_equal|]. split; [assumption|].
    intros g' [<-|Hin]; [|now apply Hl1].
    intros Heq. rewrite Heq in Hg. cbn [filter_is] in Hg.
    now rewrite String.eqb_refl in Hg.
Qed.

Lemma remove_at_middle {A} (l1 l2 : list A) (x : A) :
  remove_at (List.length l1) (l1 ++ x :: l2) = l1 ++ l2.
Proof. induction l1 as [|y l1 IH]; cbn [app List.length remove_at]; now f_equal. Qed.

Lemma filters_differ_length (a b : list IFilter) :
  List.length a <> List.length b -> filters_differ a b = true.
Proof.
  revert b. induction a as [|x a IH]; intros [|y b] H; cbn [filters_differ];
    try reflexivity.
  - now destruct H.
  - rewrite IH; [apply orb_true_r|]. cbn [List.length] in H. lia.
Qed.

Lemma sp_delete_app (a b : URLSearchParams) (k : string) :
  sp_delete (a ++ b) k = sp_delete a k ++ sp_delete b k.
Proof. unfold sp_delete. apply List.filter_app. Qed.

Lemma sp_has_delete (sp : URLSearchParams) (k : string) :
  sp_has (sp_delete sp k) k = false.
Proof. apply sp_has_getAll, sp_getAll_delete_same. Qed.

Lemma updateFilterState_removes (sp : URLSearchParams)
    (l1 l2 : list IFilter) (f : IFilter) (key col v : string) (excl : bool) :
  filter f = FStr v ->
  (forall g, In g l1 -> filter g <> FStr v) ->
  updateFilterState sp (l1 ++ f :: l2) key col v excl
  = mkUpdate (l1 ++ l2) (sp_delete sp key) true.
Proof.
  intros Hf Hl1.
  unfold updateFilterState. rewrite (findIndex_first l1 l2 f v Hf Hl1).
  rewrite remove_at_middle. f_equal. apply filters_differ_length.
  rewrite !length_app. cbn [List.length]. lia.
Qed.

(** X5.  When some filter of the list already has the given value,
    [updateFilterState] adds nothing: it removes the first filter with that
    value, whatever the column and the exclusive flag of that filter, and
    deletes every entry under the given key from the query string. *)
Theorem updateFilterState_removes_first (sp : URLSearchParams)
    (l1 l2 : list IFilter) (f : IFilter) (key col v : string) (excl : bool) :
  filter f = FStr v ->
  (forall g, In g l1 -> filter g <> FStr v) ->
  updateFilterState sp (l1 ++ f :: l2) key col v excl
  = mkUpdate (l1 ++ l2) (sp_delete sp key) true
  /\ sp_has (sp_delete sp key) key = false.
Proof.
  intros Hf Hl1. split; [now apply updateFilterState_removes | apply sp_has_delete].
Qed.

Lemma updateFilterState_removes_first_witness :
  updateFilterState [("cc", "US"); ("pg", "/"); ("cc", "DE")]
    ([mkFilter "pg" (FStr "/") false] ++ mkFilter "br" (FStr "US") true
     :: [mkFilter "cc" (FStr "US") false])
    "cc" "cc" "US" false
  = mkUpdate ([mkFilter "pg" (FStr "/") false] ++ [mkFilter "cc" (FStr "US") false])
             (sp_delete [("cc", "US"); ("pg", "/"); ("cc", "DE")] "cc") true
  /\ sp_has (sp_delete [("cc", "US"); ("pg", "/"); ("cc", "DE")] "cc") "cc" = false.
Proof.
  apply (updateFilterState_removes_first [("cc", "US"); ("pg", "/"); ("cc", "DE")]
           [mkFilter "pg" (FStr "/") false] [mkFilter "cc" (FStr "US") false]
           (mkFilter "br" (FStr "US") true) "cc" "cc" "US" false).
  - reflexivity.
  - cbn [In]. intros g [<-|[]]. discriminate.
Defined.

(** X6.  [updateFilterState] always changes the number of filters by one
    (one more when no filter has the value, one fewer otherwise), so its
    comparison of the two serialised arrays never finds them equal: the two
    state setters run on every call. *)
Theorem updateFilterState_always_sets (sp : URLSearchParams) (filters : list IFilter)
    (key col v : string) (excl : bool) :
  let out := updateFilterState sp filters key col v excl in
  settersCalled out = true
  /\ match findIndex filters v with
     | None => List.length (updatedFilters out) = S (List.length filters)
     | Some _ => S (List.length (updatedFilters out)) = List.length filters
     end.
Proof.
  cbn zeta. destruct (findIndex filters v) as [i|] eqn:Hidx.
  - destruct (findIndex_split filters v i Hidx) as [l1 [f [l2 [-> [_ [Hf Hl1]]]]]].
    rewrite (updateFilterState_removes sp l1 l2 f key col v excl Hf Hl1).
    cbn [settersCalled updatedFilters]. split; [reflexivity|].
    rewrite !length_app. cbn [List.length]. lia.
  - rewrite updateFilterState_adds by assumption.
    cbn [settersCalled updatedFilters]. split; [reflexivity|].
    rewrite length_app. cbn [List.length]. lia.
Qed.

(** X7.  Toggling: calling [updateFilterState] twice with the same key and
    value, starting from a list in which no filter has that value, gives the
    list back.  The query string comes back without any entry under the key:
    it is the original one exactly when the key was absent, else the entries
    that were there under the key are lost. *)
Theorem updateFilterState_toggle (sp : URLSearchParams) (filters : list IFilter)
    (key col v : string) (excl excl' : bool) :
  findIndex filters v = None ->
  let once := updateFilterState sp filters key col v excl in
  let twice := updateFilterState (updatedParams once) (updatedFilters once)
                                 key col v excl' in
  updatedFilters twice = filters
  /\ updatedParams twice = sp_delete sp key
  /\ (sp_has sp key = false -> updatedParams twice = sp)
  /\ (sp_has sp key = true -> updatedParams twice <> sp).
Proof.
  intros Hnew. cbn zeta.
  rewrite (updateFilterState_adds sp filters key col v excl Hnew).
  cbn [updatedFilters updatedParams].
  assert (Hnone : forall g, In g filters -> filter g <> FStr v).
  { intros g Hin Hg. apply in_split in Hin as [l1 [l2 ->]].
    revert Hnew. induction l1 as [|h l1 IH]; cbn [app findIndex].
    - rewrite Hg. cbn [filter_is]. rewrite String.eqb_refl. discriminate.
    - destruct (filter_is (filter h) v); [discriminate|].
      destruct (findIndex (l1 ++ g :: l2) v); [discriminate|]. intros _. now apply IH. }
  rewrite (updateFilterState_removes (sp ++ [(key, v)]) filters []
             (mkFilter col (FStr v) excl) key col v excl' eq_refl Hnone).
  cbn [updatedFilters updatedParams]. rewrite app_nil_r, sp_delete_app.
  assert (Hlast : sp_delete [(key, v)] key = []).
  { unfold sp_delete. cbn [List.filter fst]. now rewrite String.eqb_refl. }
  rewrite Hlast, app_nil_r. split; [reflexivity|]. split; [reflexivity|]. split.
  - apply sp_delete_absent.
  - intros Hhas Heq. rewrite <- Heq, sp_has_delete in Hhas. discriminate Hhas.
Qed.

Lemma updateFilterState_toggle_witness :
  let sp := [("period", "7d")] in
  let filters := [mkFilter "pg" (FStr "/") false] in
  let once := updateFilterState sp filters "cc" "cc" "US" false in
  let twice := updateFilterState (updatedParams once) (updatedFilters once)
                                 "cc" "cc" "US" false in
  updatedFilters twice = filters
  /\ updatedParams twice = sp_delete sp "cc"
  /\ (sp_has sp "cc" = false -> updatedParams twice = sp)
  /\ (sp_has sp "cc" = true -> updatedParams twice <> sp).
Proof.
  apply (updateFilterState_toggle [("period", "7d")] [mkFilter "pg" (FStr "/") false]
           "cc" "cc" "US" false false).
  reflexivity.
Defined.

End FilterStateFacts.

Section NavigationFacts.
Import Lodash Filters Navigation.

Lemma parse_app (keySuffix : string) (a b : URLSearchParams) :
  parsedFilters (parseFiltersFromUrl keySuffix (a ++ b))
  = parsedFilters (parseFiltersFromUrl keySuffix a)
    ++ parsedFilters (parseFiltersFromUrl keySuffix b).
Proof.
  unfold parseFiltersFromUrl. cbn [parsedFilters].
  rewrite !parse_fold. cbn [app]. apply flat_map_app.
Qed.

(** X8.  [handleNavigationParams] for plain filters with distinct
    allow-listed columns whose keys are not yet in the query string: the
    query string afterwards parses to what it parsed to before followed by
    the items, and the loader is called with the items and a forced reload.
    Without [override] the filter state is extended in the same way, so a
    state that agreed with the query string still agrees; with [override] the
    state is replaced by the items, and agrees with the query string exactly
    when the query string held no filter of the tab before. *)
Theorem handleNavigationParams_url_and_state (items prev : list IFilter)
    (suffix : string) (searchParams : URLSearchParams) (override : bool) :
  (suffix = "" \/ exists s', suffix = String "_" s') ->
  Forall plain items ->
  Forall (fun f => In (column f) validFilters) items ->
  List.NoDup (map column items) ->
  (forall f, In f items -> sp_has searchParams (column f +:+ suffix) = false) ->
  let before := parsedFilters (parseFiltersFromUrl suffix searchParams) in
  let out := handleNavigationParams items suffix searchParams override prev in
  let after := parsedFilters (parseFiltersFromUrl suffix (nav_params out)) in
  after = before ++ items
  /\ nav_loaded out = items
  /\ nav_forceReload out = true
  /\ nav_state out = (if override then items else prev ++ items)
  /\ (override = false -> prev = before -> nav_state out = after)
  /\ (override = true -> (nav_state out = after <-> before = [])).
Proof.
  intros Hsuffix Hplain Hcols Hdistinct Hfree. cbn zeta.
  unfold handleNavigationParams, applyFilters.
  rewrite (applyFilters_fold suffix override items Hplain Hdistinct [] searchParams Hfree).
  cbn [app nav_params nav_loaded nav_forceReload nav_state].
  assert (Hparse : parsedFilters (parseFiltersFromUrl suffix
                                    (searchParams ++ encode suffix items))
                   = parsedFilters (parseFiltersFromUrl suffix searchParams) ++ items).
  { rewrite parse_app. f_equal. apply parse_encode; [assumption|].
    rewrite Forall_forall in *. intros f Hin.
    apply plain_normalized; [apply Hcols | apply Hplain]; assumption. }
  rewrite Hparse.
  split; [reflexivity|]. split; [reflexivity|]. split; [reflexivity|].
  split; [reflexivity|]. split.
  - intros -> ->. reflexivity.
  - intros ->. split.
    + intros Heq. apply (app_inv_tail items _ []). now rewrite <- Heq.
    + now intros ->.
Qed.

Lemma handleNavigationParams_url_and_state_witness :
  let items := [mkFilter "cc" (FStr "US") false] in
  let sp := [("period", "7d"); ("pg", "/pricing")] in
  let prev := [mkFilter "pg" (FStr "/pricing") false] in
  let before := parsedFilters (parseFiltersFromUrl "" sp) in
  let out := handleNavigationParams items "" sp true prev in
  let after := parsedFilters (parseFiltersFromUrl "" (nav_params out)) in
  after = before ++ items
  /\ nav_loaded out = items
  /\ nav_forceReload out = true
  /\ nav_state out = items
  /\ (true = false -> prev = before -> nav_state out = after)
  /\ (true = true -> (nav_state out = after <-> before = [])).
Proof.
  apply (handleNavigationParams_url_and_state [mkFilter "cc" (FStr "US") false]
           [mkFilter "pg" (FStr "/pricing") false] ""
           [("period", "7d"); ("pg", "/pricing")] true).
  - now left.
  - repeat constructor. exists "US". repeat split; discriminate.
  - repeat constructor; simpl; tauto.
  - repeat constructor; simpl; tauto.
  - cbn [In]. intros f [<-|[]]. reflexivity.
Defined.

Lemma flat_map_filter {A B} (p : A -> bool) (g : A -> list B) (l : list A) :
  (forall x, p x = false -> g x = []) ->
  flat_map g (List.filter p l) = flat_map g l.
Proof.
  intros H. induction l as [|x l IH]; [reflexivity|]. cbn [List.filter flat_map].
  destruct (p x) eqn:Hp; cbn [flat_map]; [now rewrite IH|].
  now rewrite (H x Hp), IH.
Qed.

Lemma str_includes_occurs (key s' : string) (a : ascii) :
  str_includes key (String a s') = true -> occurs a key = true.
Proof.
  induction key as [|c key IH]; cbn [str_includes occurs].
  - intros H. discriminate H.
  - rewrite prefix_cons. destruct (ascii_dec a c) as [<-|Hne].
    + intros _. now rewrite Ascii.eqb_refl.
    + cbn [orb]. intros H. rewrite (IH H). apply orb_true_r.
Qed.

Lemma allowed_no_underscore (c : string) :
  In c validFilters -> occurs "_" c = false.
Proof.
  intros Hcol.
  assert (Hall : forallb (fun c => negb (occurs "_" c)) validFilters = true)
    by reflexivity.
  rewrite forallb_forall in Hall. apply Hall in Hcol.
  now apply negb_true_iff in Hcol.
Qed.

Lemma parse_entry_traffic_underscore (key value : string) :
  occurs "_" key = true -> parse_entry "" (key, value) = None.
Proof.
  intros Hocc. destruct (parse_entry "" (key, value)) as [f|] eqn:Hf; [|reflexivity].
  assert (Hkept : exists f, parse_entry "" (key, value) = Some f) by (now exists f).
  apply parse_entry_kept in Hkept as [_ Hin].
  assert (Hrep : _replace key "" "" = key) by (now destruct key).
  rewrite Hrep in Hin. apply allowed_no_underscore in Hin. congruence.
Qed.

Lemma parse_entry_suffixed_plain (s' key value : string) :
  occurs "_" key = false -> parse_entry (String "_" s') (key, value) = None.
Proof.
  intros Hocc. unfold parse_entry.
  destruct (str_includes key (String "_" s')) eqn:Hinc; [|reflexivity].
  apply str_includes_occurs in Hinc. congruence.
Qed.

(** X9.  The tabs do not read each other's filters: with the empty key
    suffix the parser skips every entry whose key contains ['_'], and with a
    key suffix that begins with ['_'] it skips every entry whose key does
    not contain ['_']. *)
Theorem parseFiltersFromUrl_tabs_apart (searchParams : URLSearchParams) (s' : string) :
  parsedFilters (parseFiltersFromUrl "" searchParams)
  = parsedFilters
      (parseFiltersFromUrl ""
         (List.filter (fun kv => negb (occurs "_" (fst kv))) searchParams))
  /\ parsedFilters (parseFiltersFromUrl (String "_" s') searchParams)
     = parsedFilters
         (parseFiltersFromUrl (String "_" s')
            (List.filter (fun kv => occurs "_" (fst kv)) searchParams)).
Proof.
  unfold parseFiltersFromUrl. cbn [parsedFilters]. rewrite !parse_fold. cbn [app].
  split; symmetry; apply flat_map_filter; intros [key value]; cbn [fst]; intros Hp.
  - apply negb_false_iff in Hp. now rewrite parse_entry_traffic_underscore.
  - now rewrite parse_entry_suffixed_plain.
Qed.

Lemma replace_infix_fresh (a b s' : string) (c : ascii) :
  occurs c a = false ->
  _replace (a +:+ String c s' +:+ b) (String c s') "" = a +:+ b.
Proof.
  induction a as [|x a IH]; intros Hocc.
  - rewrite !append_nil_l, append_cons. cbn [_replace]. rewrite <- append_cons.
    rewrite (prefix_append (String c s') b), append_nil_l.
    apply (substring_from_append (String c s') b).
  - cbn [occurs] in Hocc. apply orb_false_iff in Hocc as [Hx Hocc].
    apply Ascii.eqb_neq in Hx. rewrite (append_cons x a). cbn [_replace].
    rewrite prefix_cons. destruct (ascii_dec c x); [congruence|]. now rewrite IH.
Qed.

Lemma str_includes_infix (a b s : string) : str_includes (a +:+ s +:+ b) s = true.
Proof.
  induction a as [|x a IH].
  - rewrite append_nil_l. destruct s as [|c s].
    + now destruct b.
    + rewrite append_cons. cbn [str_includes]. rewrite <- append_cons.
      now rewrite (prefix_append (String c s) b).
  - rewrite append_cons. cbn [str_includes]. rewrite IH. apply orb_true_r.
Qed.

(** X10.  The key suffix is looked for anywhere in the key, not only at its
    end: when an allow-listed column is cut in two and a suffix that begins
    with ['_'] is put between the halves, the parser reads the entry as a
    filter on that column. *)
Theorem parseFiltersFromUrl_suffix_anywhere (a b s' value : string) :
  In (a +:+ b) validFilters ->
  parse_entry (String "_" s') (a +:+ String "_" s' +:+ b, value)
  = Some (mkFilter (a +:+ b)
                   (FStr (if _startsWith value "!" then substring_from 1 value else value))
                   (_startsWith value "!")).
Proof.
  intros Hcol. unfold parse_entry.
  rewrite str_includes_infix. cbn [negb].
  assert (Ha : occurs "_" a = false).
  { apply allowed_no_underscore in Hcol. clear -Hcol.
    induction a as [|x a IH]; [reflexivity|].
    rewrite append_cons in Hcol. cbn [occurs] in *.
    apply orb_false_iff in Hcol as [-> Hcol]. now apply IH. }
  rewrite (replace_infix_fresh a b s' "_" Ha).
  apply isFilterValid_strict in Hcol. rewrite Hcol. reflexivity.
Qed.

Lemma parseFiltersFromUrl_suffix_anywhere_witness :
  parse_entry (String "_" "perf") ("c" +:+ String "_" "perf" +:+ "c", "US")
  = Some (mkFilter ("c" +:+ "c") (FStr "US") false).
Proof.
  apply (parseFiltersFromUrl_suffix_anywhere "c" "c" "perf" "US").
  simpl. tauto.
Defined.

End NavigationFacts.

(** ** Stored view preferences *)

Section ViewPrefsFacts.
Import Lodash ViewPrefs.

Lemma includes_opt_In (l : list string) (v : option string) :
  _includes_opt l v = true <-> exists s, v = Some s /\ In s l.
Proof.
  destruct v as [s|]; cbn [_includes_opt].
  - rewrite includes_In. split; [intros H; now exists s|].
    intros [s' [Heq H]]. now injection Heq as ->.
  - split; [intros H; discriminate H | intros [s [H _]]; discriminate H].
Qed.

Lemma valid_pref_test (pref : ViewPref) :
  negb (_includes_opt validPeriods (vp_period pref))
  || negb (_includes_opt validTimeBacket (vp_timeBucket pref)) = false
  <-> valid_pref pref.
Proof.
  unfold valid_pref. rewrite <- !includes_opt_In.
  destruct (_includes_opt validPeriods (vp_period pref)),
           (_includes_opt validTimeBacket (vp_timeBucket pref));
    cbn [negb orb]; intuition discriminate.
Qed.

Lemma keep_valid_fold (prefs : gmap string ViewPref) (l acc : list string) (k : string) :
  In k (foldl (keep_valid prefs) acc l)
  <-> In k acc
      \/ (In k l /\ exists pref, prefs !! k = Some pref /\ valid_pref pref).
Proof.
  revert acc. induction l as [|x l IH]; intros acc; cbn [foldl In].
  - tauto.
  - rewrite IH. unfold keep_valid.
    destruct (prefs !! x) as [pref|] eqn:Hx.
    + destruct (negb (_includes_opt validPeriods (vp_period pref))
                || negb (_includes_opt validTimeBacket (vp_timeBucket pref)))
        eqn:Htest.
      * split; [tauto|]. intros [H|[[<-|H] Hv]]; [tauto | | tauto].
        destruct Hv as [pref' [Hp Hv]]. rewrite Hx in Hp. injection Hp as <-.
        apply valid_pref_test in Hv. congruence.
      * apply valid_pref_test in Htest. rewrite in_app_iff. cbn [In].
        split; [|tauto]. intros [[H|[<-|[]]]|H]; [tauto | | tauto].
        right. split; [now left|]. now exists pref.
    + split; [tauto|]. intros [H|[[<-|H] Hv]]; [tauto | | tauto].
      destruct Hv as [pref' [Hp _]]. congruence.
Qed.

Lemma copy_pref_fold (prefs : gmap string ViewPref) (l : list string)
    (m : gmap string ViewPref) (k : string) (v : ViewPref) :
  foldl (copy_pref prefs) m l !! k = Some v
  <-> (In k l /\ prefs !! k = Some v)
      \/ (~ (In k l /\ is_Some (prefs !! k)) /\ m !! k = Some v).
Proof.
  revert m. induction l as [|x l IH]; intros m; cbn [foldl In].
  - split; [intros H; right; split; [tauto | exact H] | tauto].
  - rewrite IH. unfold copy_pref.
    destruct (decide (x = k)) as [->|Hne].
    + destruct (prefs !! k) as [pref|] eqn:Hk.
      * rewrite lookup_insert_eq.
        split.
        -- intros [[_ H]|[_ H]]; left; (split; [now left | congruence]).
        -- intros [[_ H]|[Hn _]].
           ++ destruct (in_dec string_dec k l) as [Hin|Hnin].
              ** left. tauto.
              ** right. split; [tauto | congruence].
           ++ destruct Hn. split; [now left | now exists pref].
      * split.
        -- intros [[_ H]|[_ H]]; [discriminate H|].
           right. split; [|exact H]. intros [_ [? H']]. discriminate H'.
        -- intros [[_ H]|[_ H]]; [discriminate H|].
           right. split; [|exact H]. intros [_ [? H']]. discriminate H'.
    + assert (Hm : (match prefs !! x with
                    | Some pref => <[x:=pref]> m
                    | None => m
                    end) !! k = m !! k).
      { destruct (prefs !! x); [now apply lookup_insert_ne | reflexivity]. }
      rewrite Hm. intuition congruence.
Qed.

Lemma keys_In (prefs : gmap string ViewPref) (k : string) :
  In k (_keys prefs) <-> is_Some (prefs !! k).
Proof.
  unfold _keys. rewrite <- list_elem_of_In, list_elem_of_fmap. split.
  - intros [[k' v] [-> H]]. apply elem_of_map_to_list in H. now exists v.
  - intros [v H]. exists (k, v). split; [reflexivity|].
    now apply elem_of_map_to_list.
Qed.

Lemma filterInvalidViewPrefs_lookup (prefs : gmap string ViewPref)
    (pid : string) (pref : ViewPref) :
  filterInvalidViewPrefs prefs !! pid = Some pref
  <-> prefs !! pid = Some pref /\ valid_pref pref.
Proof.
  unfold filterInvalidViewPrefs. cbn zeta.
  rewrite copy_pref_fold, keep_valid_fold, keys_In, lookup_empty. cbn [In].
  split.
  - intros [[[[]|[_ [pref' [Hp Hv]]]] H]|[_ H]]; [|discriminate H].
    split; [exact H|]. congruence.
  - intros [H Hv]. left. split; [|exact H]. right.
    split; [now exists pref | now exists pref].
Qed.

(** X11.  [filterInvalidViewPrefs] keeps the preferences of a project, as
    they are, exactly when their period is one of [validPeriods] and their
    time bucket is one of [validTimeBacket]; the entries of every other
    project are dropped, among them those with no period, with no time
    bucket, and with the period ['all'], which [validPeriods] does not
    list. *)
Theorem filterInvalidViewPrefs_keeps_valid (prefs : gmap string ViewPref)
    (pid : string) :
  (forall pref,
     filterInvalidViewPrefs prefs !! pid = Some pref
     <-> prefs !! pid = Some pref /\ valid_pref pref)
  /\ (forall pref,
        prefs !! pid = Some pref ->
        vp_period pref = None \/ vp_timeBucket pref = None
        \/ vp_period pref = Some "all" ->
        filterInvalidViewPrefs prefs !! pid = None).
Proof.
  split; [apply filterInvalidViewPrefs_lookup|].
  intros pref Hp Hbad.
  destruct (filterInvalidViewPrefs prefs !! pid) as [pref'|] eqn:Hf; [|reflexivity].
  apply filterInvalidViewPrefs_lookup in Hf as [Hp' [[p [Hper Hin]] [b [Hb _]]]].
  rewrite Hp in Hp'. injection Hp' as <-.
  destruct Hbad as [H|[H|H]]; [congruence | congruence |].
  rewrite H in Hper. injection Hper as <-.
  cbn in Hin. intuition discriminate.
Qed.

Lemma filterInvalidViewPrefs_keeps_valid_witness :
  filterInvalidViewPrefs
    (<["p1" := mkPref (Some "all") (Some "day") Json.JNull]>
       (<["p2" := mkPref (Some "7d") (Some "day") Json.JNull]> ∅)) !! "p1"
  = None.
Proof.
  apply (proj2 (filterInvalidViewPrefs_keeps_valid
                  (<["p1" := mkPref (Some "all") (Some "day") Json.JNull]>
                     (<["p2" := mkPref (Some "7d") (Some "day") Json.JNull]> ∅))
                  "p1")
               (mkPref (Some "all") (Some "day") Json.JNull)).
  - reflexivity.
  - right. right. reflexivity.
Defined.

(** X12.  [filterInvalidViewPrefs] returns a part of the object it is given
    and is idempotent: filtering a filtered object changes nothing. *)
Theorem filterInvalidViewPrefs_idempotent (prefs : gmap string ViewPref) :
  filterInvalidViewPrefs prefs ⊆ prefs
  /\ filterInvalidViewPrefs (filterInvalidViewPrefs prefs)
     = filterInvalidViewPrefs prefs.
Proof.
  split.
  - apply map_subseteq_spec. intros k v H.
    now apply filterInvalidViewPrefs_lookup in H.
  - apply map_eq. intros k. apply option_eq. intros v.
    rewrite !filterInvalidViewPrefs_lookup. tauto.
Qed.

End ViewPrefsFacts.

(** ** More on the write endpoints *)

Section MoreWriteFacts.
Import Lodash Analytics IngestVocabulary.

Variable d : Deps.

(** X13.  A pageview or custom event stopped by a guard leaves no trace:
    when the bot check or [validate] throws in [log], or the metadata check,
    the bot check or [validate] throws in [logCustom], the handler throws
    that exception and the world is as it was (no marker set, no row
    appended, nothing logged).  In [logCustom] the metadata check comes
    first, before the bot check. *)
Theorem ingest_guard_rejection (e : Exception) (headers : Headers)
    (reqIP : option string) (w : World) :
  (forall logDTO,
     throwIfBot d (pv_pid logDTO) (user_agent headers) = Some e
     \/ (throwIfBot d (pv_pid logDTO) (user_agent headers) = None
         /\ validate d (OfPageviews logDTO) (origin headers) (Some "log")
              (Some (request_ip d headers reqIP)) = Some e) ->
     log d logDTO headers reqIP w = (Throw e, w))
  /\ (forall eventsDTO,
        validateCustomEVMeta d (ev_meta eventsDTO) = Some e
        \/ (validateCustomEVMeta d (ev_meta eventsDTO) = None
            /\ throwIfBot d (ev_pid eventsDTO) (user_agent headers) = Some e)
        \/ (validateCustomEVMeta d (ev_meta eventsDTO) = None
            /\ throwIfBot d (ev_pid eventsDTO) (user_agent headers) = None
            /\ validate d (OfEvents eventsDTO) (origin headers) (Some "custom")
                 (Some (request_ip d headers reqIP)) = Some e) ->
        logCustom d eventsDTO headers reqIP w = (Throw e, w)).
Proof.
  split.
  - intros logDTO [Hbot|[Hbot Hvalid]]; unfold log, bind.
    + now rewrite Hbot.
    + now rewrite Hbot, Hvalid.
  - intros eventsDTO [Hmeta|[[Hmeta Hbot]|[Hmeta [Hbot Hvalid]]]]; unfold logCustom, bind.
    + now rewrite Hmeta.
    + now rewrite Hmeta, Hbot.
    + now rewrite Hmeta, Hbot, Hvalid.
Qed.


Ltac rows := solve [cbn; repeat split; eauto].

(** X15.  Which tables a request can touch, whatever the collaborators
    and the store answer.  [log] never appends to the custom-event table,
    appends at most one pageview row, and appends a performance row only
    together with a pageview row and only for a payload whose eight timings
    are in range; [logCustom] appends at most one custom-event row and never
    touches the other two tables; [noscript] appends at most one pageview
    row and never touches the other two. *)
Theorem ingest_tables (headers : Headers) (reqIP : option string) (w : World) :
  (forall logDTO,
     let w' := snd (log d logDTO headers reqIP w) in
     customEV_rows w' = customEV_rows w
     /\ grew_by_at_most_one (analytics_rows w) (analytics_rows w')
     /\ (performance_rows w' = performance_rows w
         \/ exists prow arow perf,
              performance_rows w' = performance_rows w ++ [prow]
              /\ analytics_rows w' = analytics_rows w ++ [arow]
              /\ pv_perf logDTO = Some perf
              /\ timings_in_range perf))
  /\ (forall eventsDTO,
        let w' := snd (logCustom d eventsDTO headers reqIP w) in
        analytics_rows w' = analytics_rows w
        /\ performance_rows w' = performance_rows w
        /\ grew_by_at_most_one (customEV_rows w) (customEV_rows w'))
  /\ (forall pid,
        let w' := snd (noscript d pid headers reqIP w) in
        performance_rows w' = performance_rows w
        /\ customEV_rows w' = customEV_rows w
        /\ grew_by_at_most_one (analytics_rows w) (analytics_rows w')).
Proof.
  unfold grew_by_at_most_one. split; [|split].
  - intros logDTO. cbn zeta.
    destruct (isUnique_run d (pv_pid logDTO) (user_agent headers)
                (request_ip d headers reqIP) w)
      as [unique [psid [markers [next [Hrun _]]]]].
    unfold log, bind.
    destruct (throwIfBot d (pv_pid logDTO) (user_agent headers)); cbn [check throw ret];
      [rows|].
    destruct (validate d _ _ _ _); cbn [check throw ret]; [rows|].
    rewrite Hrun.
    destruct (processInteractionSD d psid (pv_pid logDTO)); cbn [check throw ret];
      [rows|].
    destruct (unique && pv_unique logDTO); [rows|].
    unfold try_catch, bind, clickhouse_insert, logger_error.
    destruct (clickhouse_insert_error d analytics _); [rows|].
    destruct (pv_perf logDTO) as [perf|] eqn:Hperf; [|rows].
    destruct (negb (_isEmpty_perf (Some perf)) && isPerformanceValid perf) eqn:Hok;
      [|rows].
    apply andb_true_iff in Hok as [_ Hok]. apply isPerformanceValid_spec in Hok.
    destruct (negb (_isEmpty_row _)); [|rows].
    destruct (clickhouse_insert_error d performance _); [rows|].
    cbn. split; [reflexivity|]. split; [eauto|]. right.
    eexists _, _, perf. split; [reflexivity|]. split; [reflexivity|].
    split; [reflexivity | exact Hok].
  - intros eventsDTO. cbn zeta.
    pattern (snd (logCustom d eventsDTO headers reqIP w)).
    match goal with |- ?P _ => set (kept := P) end.
    unfold logCustom.
    unfold bind at 1.
    destruct (validateCustomEVMeta d (ev_meta eventsDTO)); cbn [check throw ret];
      [subst kept; rows|].
    unfold bind at 1.
    destruct (throwIfBot d (ev_pid eventsDTO) (user_agent headers));
      cbn [check throw ret]; [subst kept; rows|].
    unfold bind at 1.
    destruct (validate d _ _ _ _); cbn [check throw ret]; [subst kept; rows|].
    match goal with |- context [bind _ ?k w] => set (rest := k) end.
    assert (Hrest : forall (u : unit) (w0 : World),
              analytics_rows w0 = analytics_rows w ->
              performance_rows w0 = performance_rows w ->
              customEV_rows w0 = customEV_rows w ->
              kept (snd (rest u w0))).
    { intros u w0 Ha Hp Hc. subst rest kept. cbn beta zeta.
      destruct (isUnique_run d (ev_pid eventsDTO) (user_agent headers)
                  (request_ip d headers reqIP) w0)
        as [unique [psid [markers [next [Hrun _]]]]].
      unfold bind. rewrite Hrun.
      unfold try_catch, bind, clickhouse_insert, logger_error.
      destruct (clickhouse_insert_error d customEV _); cbn; rewrite ?Ha, ?Hp, ?Hc;
        repeat split; eauto. }
    unfold bind. destruct (ev_unique eventsDTO).
    + destruct (isUnique_run d (ev_pid eventsDTO +:+ "-" +:+ ev_ev eventsDTO)
                  (user_agent headers) (request_ip d headers reqIP) w)
        as [unique [psid [markers [next [Hrun _]]]]].
      rewrite Hrun. destruct unique; cbn [negb ret throw].
      * apply Hrest; reflexivity.
      * subst kept. rows.
    + cbn [ret]. apply Hrest; reflexivity.
  - intros pid. cbn zeta. unfold noscript.
    destruct (throwIfBot d pid (user_agent headers)); [rows|].
    destruct (isUnique_run d pid (user_agent headers) (request_ip d headers reqIP) w)
      as [unique [psid [markers [next [Hrun _]]]]].
    unfold bind.
    destruct (validate d _ _ _ _); cbn [check throw ret]; [rows|].
    cbn [pv_pid]. rewrite Hrun.
    destruct (processInteractionSD d psid pid); cbn [check throw ret]; [rows|].
    unfold try_catch, clickhouse_insert, logger_error.
    destruct (clickhouse_insert_error d analytics _); rows.
Qed.

(** X16.  The two early exits of [noscript].  A request the bot check
    refuses still gets the placeholder image, and nothing is recorded.  A
    request that [validate] refuses gets no image: the exception reaches
    the caller, and nothing is recorded. *)
Theorem noscript_guards (pid : string) (headers : Headers) (reqIP : option string)
    (w : World) :
  (forall e,
     throwIfBot d pid (user_agent headers) = Some e ->
     noscript d pid headers reqIP w = (Return gif_response, w))
  /\ (forall e,
        throwIfBot d pid (user_agent headers) = None ->
        validate d (OfPageviews (bare_pageview pid)) (origin headers) None None = Some e ->
        noscript d pid headers reqIP w = (Throw e, w)).
Proof.
  split.
  - intros e Hbot. unfold noscript. now rewrite Hbot.
  - intros e Hbot Hvalid. unfold noscript, bind. rewrite Hbot.
    unfold bare_pageview in Hvalid. now rewrite Hvalid.
Qed.

End MoreWriteFacts.

(** ** More on the read endpoints *)

Section MoreReadFacts.
Import Lodash Analytics IngestVocabulary.

Variable d : Deps.

(** X18.  A caller without access reads nothing.  When [validatePID] or
    [checkProjectAccess] throws, [getData], [getCustomEvents], [getSessions]
    and [getErrors] throw that exception before any store query is issued.
    [getPerfData] does the same, with the check of the measure placed
    between the two: an unknown measure is reported before the access
    check is made. *)
Theorem read_access_denied (e : Exception) (uid : option string) (headers : Headers)
    (w : World) :
  (forall data,
     validatePID d (gd_pid data) = Some e
     \/ (validatePID d (gd_pid data) = None
         /\ checkProjectAccess d (gd_pid data) uid (x_password headers) = Some e) ->
     getData d data uid headers w = (Throw e, w)
     /\ getCustomEvents d data uid headers w = (Throw e, w))
  /\ (forall data,
        validatePID d (gl_pid data) = Some e
        \/ (validatePID d (gl_pid data) = None
            /\ checkProjectAccess d (gl_pid data) uid (x_password headers) = Some e) ->
        getSessions d data uid headers w = (Throw e, w)
        /\ getErrors d data uid headers w = (Throw e, w))
  /\ (forall data,
        let measure := or_default (gd_measure data) DEFAULT_MEASURE in
        validatePID d (gd_pid data) = Some e
        \/ (validatePID d (gd_pid data) = None
            /\ checkIfPerfMeasureIsValid d measure = Some e)
        \/ (validatePID d (gd_pid data) = None
            /\ checkIfPerfMeasureIsValid d measure = None
            /\ checkProjectAccess d (gd_pid data) uid (x_password headers) = Some e) ->
        getPerfData d data uid headers w = (Throw e, w)).
Proof.
  split; [|split].
  - intros data [Hpid|[Hpid Hacc]]; unfold getData, getCustomEvents, bind.
    + rewrite Hpid. split; reflexivity.
    + rewrite Hpid, Hacc. split; reflexivity.
  - intros data [Hpid|[Hpid Hacc]]; unfold getSessions, getErrors, bind.
    + rewrite Hpid. split; reflexivity.
    + rewrite Hpid, Hacc. split; reflexivity.
  - intros data measure [Hpid|[[Hpid Hm]|[Hpid [Hm Hacc]]]]; subst measure;
      unfold getPerfData, bind.
    + now rewrite Hpid.
    + now rewrite Hpid, Hm.
    + now rewrite Hpid, Hm, Hacc.
Qed.

Ltac trace_leaf :=
  first
    [ exists []; split;
      [ unfold issues; cbn; now rewrite app_nil_r | ]
    | eexists; split;
      [ unfold issues; cbn; rewrite <- ?app_assoc; cbn [app]; reflexivity | ] ].

Ltac run_all :=
  repeat match goal with
         | |- context [match ?x with Throw _ => _ | Return _ => _ end] => destruct x eqn:?
         | |- context [match ?x with Some _ => _ | None => _ end] => destruct x eqn:?
         | |- context [if ?b then _ else _] => destruct b eqn:?
         end.


(** X20.  The two optional queries of [getData], whatever the collaborators
    return: without requested metrics no metrics query is issued and the
    answer has no [meta]; when the filters select custom events the page
    properties are not queried and the answer carries an empty
    [properties] object. *)
Theorem getData_optional_queries (data : GetDataDto) (uid : option string)
    (headers : Headers) (w : World) :
  exists calls,
    issues (getData d data uid headers) w calls
    /\ (parseMetrics d (gd_metrics data) = [] ->
        (forall metrics, ~ In (QMetaResults metrics) calls)
        /\ forall r w', getData d data uid headers w = (Return r, w') ->
                        gr_meta r = None)
    /\ (forall fq,
          getFiltersQuery d (gd_filters data) ANALYTICS = Return fq ->
          customEVFilterApplied fq = true ->
          ~ In QPageProperties calls
          /\ forall r w', getData d data uid headers w = (Return r, w') ->
                          gr_properties r = Json.JObj []).
Proof.
  unfold getData, bind, check, lift, query, ret, throw.
  destruct (parseMetrics d (gd_metrics data)) as [|m ms] eqn:Hmetrics;
    cbn [List.length Nat.eqb negb];
    run_all; trace_leaf;
      (split;
       [ intros Hm; try discriminate Hm;
         (split; [cbn; intuition discriminate|]);
         intros r w' Hr; try discriminate Hr; now injection Hr as <- _
       | intros fq Hfq Hev; try discriminate Hfq;
         try (injection Hfq as <-; rewrite Hev in *; cbn [negb] in *; congruence);
         (split; [cbn; intuition discriminate|]);
         intros r w' Hr; try discriminate Hr; now injection Hr as <- _ ]).
Qed.

End MoreReadFacts.

(** ** Project id lists, continued *)

Section MorePidFacts.
Import Lodash Json Analytics.

Lemma stringify_strings_cons (s t : string) (l : list string) :
  substring_from 1 (stringify (JArr (map JStr (s :: t :: l))))
  = quote s +:+ "," +:+ substring_from 1 (stringify (JArr (map JStr (t :: l)))).
Proof.
  cbn [map stringify]. rewrite !append_cons, !append_nil_l. cbn [substring_from].
  now rewrite !append_assoc.
Qed.

Lemma stringify_strings_one (s : string) :
  substring_from 1 (stringify (JArr (map JStr [s]))) = quote s +:+ "]".
Proof. cbn [map stringify]. now rewrite append_cons, append_nil_l. Qed.

Lemma quote_append (s r : string) :
  quote s +:+ r = String "034" (escape s +:+ String "034" r).
Proof.
  unfold quote. now rewrite append_cons, append_assoc, append_cons, append_nil_l.
Qed.

Lemma parse_value_quote (k : nat) (s r : string) :
  parse_value (S k) (quote s +:+ r) = Some (JStr s, r).
Proof. now rewrite quote_append, parse_value_quoted, str_body_escape. Qed.

Lemma parse_elems_strings (depth : nat) (l : list string) :
  forall (s : string) (acc : list value) (k : nat),
    List.length l < k ->
    parse_elems (parse_value (S depth)) k acc
      (substring_from 1 (stringify (JArr (map JStr (s :: l)))))
    = Some (JArr (acc ++ map JStr (s :: l)), "").
Proof.
  induction l as [|t l IH]; intros s acc k Hk.
  - destruct k as [|k]; [inversion Hk|].
    rewrite stringify_strings_one. apply parse_elems_last. apply parse_value_quote.
  - destruct k as [|k]; [inversion Hk|]. cbn [List.length] in Hk.
    rewrite stringify_strings_cons. cbn [parse_elems].
    rewrite parse_value_quote, append_cons, append_nil_l.
    change (skip_ws (String "," (substring_from 1 (stringify (JArr (map JStr (t :: l)))))))
      with (String "," (substring_from 1 (stringify (JArr (map JStr (t :: l)))))).
    cbn [skip_ws]. rewrite IH by lia. now rewrite <- app_assoc.
Qed.

Lemma stringify_strings_length (l : list string) (s : string) :
  List.length l
  < String.length (substring_from 1 (stringify (JArr (map JStr (s :: l))))).
Proof.
  revert s. induction l as [|t l IH]; intros s.
  - rewrite stringify_strings_one, quote_append. cbn [String.length List.length]. lia.
  - rewrite stringify_strings_cons, quote_append. cbn [String.length List.length].
    rewrite length_append. cbn [String.length].
    rewrite append_cons, append_nil_l. cbn [String.length].
    specialize (IH t). lia.
Qed.

Lemma parse_stringify_strings (l : list string) :
  parse (stringify (JArr (map JStr l))) = Some (JArr (map JStr l)).
Proof.
  destruct l as [|s l]; [reflexivity|].
  pose proof (stringify_strings_length l s) as Hlen.
  assert (Htext : stringify (JArr (map JStr (s :: l)))
                  = String "[" (substring_from 1 (stringify (JArr (map JStr (s :: l)))))).
  { cbn [map stringify]. now rewrite !append_cons, !append_nil_l. }
  unfold parse. rewrite Htext.
  destruct (substring_from 1 (stringify (JArr (map JStr (s :: l))))) as [|c body] eqn:Hbody.
  - cbn in Hlen. lia.
  - assert (Hc : c = "034"%char).
    { destruct l as [|t l].
      - rewrite stringify_strings_one, quote_append in Hbody. now injection Hbody.
      - rewrite stringify_strings_cons, quote_append in Hbody. now injection Hbody. }
    subst c. cbn [String.length]. rewrite parse_value_bracket_quote.
    rewrite <- Hbody. rewrite (parse_elems_strings _ l s []).
    + reflexivity.
    + cbn [String.length] in Hlen. lia.
Qed.

(** X21.  The server reads back what [JSON.stringify] writes: for every list
    of project ids, [getPIDsArray] given the serialised array as [pids] (and
    no [pid]) returns that list, the empty list included. *)
Theorem getPIDsArray_reads_stringified (l : list string) (pid : option string) :
  not_provided pid ->
  getPIDsArray (Some (stringify (JArr (map JStr l)))) pid = Return (map JStr l).
Proof.
  intros Hpid.
  assert (Htext : stringify (JArr (map JStr l)) <> "").
  { cbn [stringify]. rewrite append_cons. discriminate. }
  apply isEmpty_not_provided in Hpid.
  unfold getPIDsArray. rewrite Hpid, (isEmpty_provided _ Htext). cbn [andb negb].
  destruct pid; now rewrite parse_stringify_strings.
Qed.

Lemma getPIDsArray_reads_stringified_witness :
  getPIDsArray (Some (stringify (JArr (map JStr ["abcdefghijkl"; "mnopqrstuvwx"])))) None
  = Return [JStr "abcdefghijkl"; JStr "mnopqrstuvwx"].
Proof.
  apply (getPIDsArray_reads_stringified ["abcdefghijkl"; "mnopqrstuvwx"] None).
  now left.
Defined.

End MorePidFacts.

(** ** The further handlers *)

Section EndpointFacts.
Import Lodash Analytics Endpoints.

Variable d : Deps.
Variable s : Services.

Lemma isEmpty_arr_no_eids (eids : option (list string)) :
  _isEmpty_arr eids = true <-> no_eids eids.
Proof.
  unfold no_eids. destruct eids as [[|e l]|]; cbn [_isEmpty_arr].
  - split; [now right | reflexivity].
  - split; [intros H; discriminate H | intros [H|H]; discriminate H].
  - split; [now left | reflexivity].
Qed.

Lemma getEIDsArray_returns (eids : option (list string)) (eid : option string)
    (l : list string) :
  getEIDsArray eids eid = Return l
  <-> (eids = Some l /\ l <> [] /\ _isEmpty_str eid = true)
      \/ (_isEmpty_arr eids = true /\ exists e, eid = Some e /\ e <> "" /\ l = [e]).
Proof.
  unfold getEIDsArray.
  destruct eids as [[|x xs]|]; destruct eid as [e|];
    cbn [_isEmpty_arr _isEmpty_str andb negb];
    try (destruct (String.eqb e "") eqn:He;
         [apply String.eqb_eq in He | apply String.eqb_neq in He]);
    cbn [andb negb]; (split; [intros H | intros [[H1 [H2 H3]]|[H1 [e' [H2 [H3 H4]]]]]]);
    try discriminate;
    try (injection H as <-);
    try (injection H1 as <-);
    try (injection H2 as <-);
    subst; try congruence; try reflexivity;
    first [ left; repeat split; discriminate
          | right; split; [reflexivity|]; eexists; repeat split; assumption ].
Qed.

Lemma getEIDsArray_nonempty (eids : option (list string)) (eid : option string)
    (l : list string) :
  getEIDsArray eids eid = Return l -> l <> [].
Proof.
  intros Hl. apply getEIDsArray_returns in Hl as [[_ [H _]]|[_ [e [_ [_ ->]]]]];
    [exact H | discriminate].
Qed.

(** X22.  [getEIDsArray] throws BadRequest exactly when both or neither of
    [eids] and [eid] are provided (an empty array and an empty string count
    as not provided); otherwise it returns the array as it is, or the one
    id as a one-element array.  What it returns is never empty. *)
Theorem getEIDsArray_result (eids : option (list string)) (eid : option string) :
  ((no_eids eids <-> not_provided eid)
   <-> exists message, getEIDsArray eids eid = Throw (BadRequestException message))
  /\ (forall l,
        getEIDsArray eids eid = Return l
        <-> (eids = Some l /\ l <> [] /\ not_provided eid)
            \/ (no_eids eids /\ exists e, eid = Some e /\ e <> "" /\ l = [e]))
  /\ (forall l, getEIDsArray eids eid = Return l -> l <> []).
Proof.
  rewrite <- isEmpty_arr_no_eids, <- isEmpty_not_provided.
  split; [|split].
  - unfold getEIDsArray.
    destruct (_isEmpty_arr eids), (_isEmpty_str eid); cbn [andb negb].
    + split; [intros _; eexists; reflexivity | intros _; tauto].
    + split; [intros [H _]; discriminate (H eq_refl) | intros [m H]; discriminate H].
    + split; [intros [_ H]; discriminate (H eq_refl) | intros [m H]; discriminate H].
    + split; [intros _; eexists; reflexivity |].
      intros _. split; intros H; discriminate H.
  - intros l. rewrite getEIDsArray_returns, isEmpty_arr_no_eids, isEmpty_not_provided.
    tauto.
  - apply getEIDsArray_nonempty.
Qed.

(** X23.  The order of [patchStatus].  The rate limiter is asked first, for
    every request, under the caller's address and the action
    ['error-status'] with 100 requests per 1800 seconds; when it refuses,
    that is the outcome.  The status update is the only other call, made at
    most once and only after the rate limit, [validatePID],
    [checkProjectAccess], [getEIDsArray] and [validateEIDs] have all
    passed, with the ids [getEIDsArray] returned, which are not empty; its
    answer is the handler's. *)
Theorem patchStatus_order (statusDTO : PatchStatusDTO) (uid : option string)
    (headers : Headers) (reqIP : option string) :
  let pid := ps_pid statusDTO in
  let ip := request_ip d headers reqIP in
  let limit := CRateLimit ip "error-status" 100 1800 in
  let out := run (patchStatus d s statusDTO uid headers reqIP) in
  (forall e, checkRateLimit s ip "error-status" 100 1800 = Some e ->
             out = (Throw e, [limit]))
  /\ (snd out = [limit]
      \/ exists eids,
           snd out = [limit; CUpdateEIDStatus eids (ps_status statusDTO) pid]
           /\ fst out = updateEIDStatus s eids (ps_status statusDTO) pid
           /\ eids <> []
           /\ checkRateLimit s ip "error-status" 100 1800 = None
           /\ validatePID d pid = None
           /\ checkProjectAccess d pid uid (x_password headers) = None
           /\ getEIDsArray (ps_eids statusDTO) (ps_eid statusDTO) = Return eids
           /\ validateEIDs s eids pid = None).
Proof.
  cbn zeta. unfold run, patchStatus, tbind, call, tcheck, tlift, tret, tthrow, outcome_of.
  split.
  - intros e He. now rewrite He.
  - destruct (checkRateLimit s _ _ _ _) eqn:Hlimit; [now left|].
    destruct (validatePID d (ps_pid statusDTO)) eqn:Hpid; [now left|].
    destruct (checkProjectAccess d _ _ _) eqn:Hacc; [now left|].
    destruct (getEIDsArray _ _) as [e|eids] eqn:Heids; [now left|].
    destruct (validateEIDs s eids _) eqn:Hvalid; [now left|].
    right. exists eids. cbn [fst snd app].
    repeat split; try assumption; try reflexivity.
    now apply (getEIDsArray_nonempty (ps_eids statusDTO) (ps_eid statusDTO)).
Qed.

Lemma split_piece (sep : ascii) (a b : string) :
  occurs sep a = false ->
  split sep (a +:+ String sep b) = a :: split sep b.
Proof.
  induction a as [|c a IH]; intros Hocc.
  - rewrite append_nil_l. cbn [split]. now rewrite Ascii.eqb_refl.
  - cbn [occurs] in Hocc. apply orb_false_iff in Hocc as [Hc Hocc].
    rewrite append_cons. cbn [split].
    rewrite Ascii.eqb_sym, Hc, (IH Hocc). reflexivity.
Qed.

Lemma split_heartbeat_key (pid psid : string) :
  occurs ":" psid = false ->
  nth_error (split ":" (heartbeat_key pid psid)) 1 = Some psid.
Proof.
  intros Hocc. unfold heartbeat_key.
  change ("hb:" +:+ psid +:+ ":" +:+ pid) with ("hb" +:+ String ":" (psid +:+ String ":" pid)).
  rewrite (split_piece ":" "hb" (psid +:+ String ":" pid) eq_refl).
  now rewrite (split_piece ":" psid pid Hocc).
Qed.

(** X24.  [getLiveVisitors] with nobody online.  A caller that
    [validatePID] or [checkProjectAccess] turns away learns nothing: the
    key-value store is not even asked.  When no heartbeat key matches
    [hb:*:pid] the answer is the empty list, and the columnar store is not
    queried. *)
Theorem getLiveVisitors_nobody (pid : string) (uid : option string)
    (headers : Headers) :
  (forall e,
     validatePID d pid = Some e
     \/ (validatePID d pid = None
         /\ checkProjectAccess d pid uid (x_password headers) = Some e) ->
     run (getLiveVisitors d s pid uid headers) = (Throw e, []))
  /\ (passes_access d pid uid headers ->
      redis_keys s ("hb:*:" +:+ pid) = Return [] ->
      run (getLiveVisitors d s pid uid headers)
      = (Return (Json.JArr []), [CRedisKeys ("hb:*:" +:+ pid)])).
Proof.
  unfold run, getLiveVisitors, tbind, call, tcheck, tret, tthrow. split.
  - intros e [Hpid|[Hpid Hacc]].
    + now rewrite Hpid.
    + now rewrite Hpid, Hacc.
  - intros [Hpid Hacc] Hkeys. now rewrite Hpid, Hacc, Hkeys.
Qed.

(** X25.  Which sessions [getLiveVisitors] asks the store about.  For a
    caller with access, when the keys that match [hb:*:pid] are
    [hb:<psid>:<pid>] for a non-empty list of session ids without [':'],
    the store is queried once, for exactly those session ids, this project
    and rows created after the current time less three hours; the answer of
    the store is the answer of the handler. *)
Theorem getLiveVisitors_sessions (pid : string) (uid : option string)
    (headers : Headers) (psids : list string)
    (Haccess : passes_access d pid uid headers)
    (Hsome : psids <> [])
    (Hplain : Forall (fun psid => occurs ":" psid = false) psids)
    (Hkeys : redis_keys s ("hb:*:" +:+ pid) = Return (map (heartbeat_key pid) psids)) :
  let createdAfter := format_utc s (utc_now s - 10800)%Z in
  run (getLiveVisitors d s pid uid headers)
  = (live_visitors s (map Some psids) createdAfter pid,
     [CRedisKeys ("hb:*:" +:+ pid);
      CLiveVisitorsQuery (map Some psids) createdAfter pid]).
Proof.
  cbn zeta. destruct Haccess as [Hpid Hacc].
  unfold run, getLiveVisitors, tbind, call, tcheck, tret, tthrow.
  rewrite Hpid, Hacc, Hkeys. rewrite length_map.
  assert (Hlen : Nat.eqb (List.length psids) 0 = false)
    by (destruct psids; [now destruct Hsome | reflexivity]).
  assert (Hids : map (fun key => nth_error (split ":" key) 1)
                     (map (heartbeat_key pid) psids)
                 = map Some psids).
  { rewrite map_map. apply map_ext_in. intros psid Hin.
    apply split_heartbeat_key.
    exact (proj1 (List.Forall_forall _ _) Hplain psid Hin). }
  rewrite Hlen, Hids.
  destruct (live_visitors s (map Some psids) _ pid); reflexivity.
Qed.

(** X26.  In the two chart handlers the access check comes last before the
    query.  For a project id that [validatePID] accepts, a failure of
    [getFiltersQuery] or of [getGroupFromTo] (and, in [getPerfChartData],
    an unknown measure) is what the caller gets, whether or not the caller
    has access to the project; [getData], given the same request by a caller
    without access, reports the refusal of access. *)
Theorem chart_errors_before_access (data : GetDataDto) (uid : option string)
    (headers : Headers) (e : Exception)
    (Hpid : validatePID d (gd_pid data) = None) :
  let timezone := or_default (gd_timezone data) (DEFAULT_TIMEZONE d) in
  let measure := or_default (gd_measure data) DEFAULT_MEASURE in
  let range :=
    getGroupFromTo d (gd_from data) (gd_to data) (gd_timeBucket data) (gd_period data)
      (getSafeTimezone d timezone) None in
  (getFiltersQuery d (gd_filters data) ANALYTICS = Throw e
   \/ ((exists fq, getFiltersQuery d (gd_filters data) ANALYTICS = Return fq)
       /\ range = Throw e) ->
   run (getChartData d s data uid headers) = (Throw e, []))
  /\ (checkIfPerfMeasureIsValid d measure = Some e
      \/ (checkIfPerfMeasureIsValid d measure = None
          /\ (getFiltersQuery d (gd_filters data) PERFORMANCE = Throw e
              \/ ((exists fq, getFiltersQuery d (gd_filters data) PERFORMANCE = Return fq)
                  /\ range = Throw e))) ->
      run (getPerfChartData d s data uid headers) = (Throw e, []))
  /\ (forall denied w,
        checkProjectAccess d (gd_pid data) uid (x_password headers) = Some denied ->
        getData d data uid headers w = (Throw denied, w)).
Proof.
  cbn zeta. split; [|split].
  - unfold run, getChartData, tbind, tcheck, tlift, tret, tthrow. rewrite Hpid.
    intros [Hfq|[[fq Hfq] Hg]].
    + now rewrite Hfq.
    + now rewrite Hfq, Hg.
  - unfold run, getPerfChartData, tbind, tcheck, tlift, tret, tthrow. rewrite Hpid.
    intros [Hm|[Hm [Hfq|[[fq Hfq] Hg]]]].
    + now rewrite Hm.
    + now rewrite Hm, Hfq.
    + now rewrite Hm, Hfq, Hg.
  - intros denied w Hacc. unfold getData, bind. now rewrite Hpid, Hacc.
Qed.

(** X27.  What the two chart handlers ask of the service, whatever the
    collaborators answer: nothing, or one chart query, made only for a
    caller that [checkProjectAccess] lets through.  The query gets the time
    bucket of the request as it is, for every period, ['all'] included
    (these handlers make no all-time query, and [getGroupFromTo] is given no
    span); [getChartData] passes the resolved range, [getPerfChartData] the
    [from] and [to] of the request as they are. *)
Theorem chart_single_query (data : GetDataDto) (uid : option string)
    (headers : Headers) :
  let timezone := or_default (gd_timezone data) (DEFAULT_TIMEZONE d) in
  let range :=
    getGroupFromTo d (gd_from data) (gd_to data) (gd_timeBucket data) (gd_period data)
      (getSafeTimezone d timezone) None in
  let allowed := checkProjectAccess d (gd_pid data) uid (x_password headers) = None in
  (snd (run (getChartData d s data uid headers)) = []
   \/ exists g,
        range = Return g /\ allowed
        /\ snd (run (getChartData d s data uid headers))
           = [CGroupChart (gd_timeBucket data) (groupFrom g) (groupTo g)])
  /\ (snd (run (getPerfChartData d s data uid headers)) = []
      \/ exists g,
           range = Return g /\ allowed
           /\ snd (run (getPerfChartData d s data uid headers))
              = [CPerfChart (gd_timeBucket data) (gd_from data) (gd_to data)
                            (or_default (gd_measure data) DEFAULT_MEASURE)]).
Proof.
  cbn zeta. split.
  - unfold run, getChartData, tbind, call, tcheck, tlift, tret, tthrow.
    destruct (validatePID d (gd_pid data)); [now left|].
    destruct (getFiltersQuery d (gd_filters data) ANALYTICS) as [e|fq]; [now left|].
    destruct (getGroupFromTo d _ _ _ _ _ _) as [e|g]; [now left|].
    destruct (checkProjectAccess d _ _ _); [now left|].
    right. exists g. split; [reflexivity|]. split; [reflexivity|].
    now destruct (groupChartByTimeBucket s _ _ _ _ _ _ _ _).
  - unfold run, getPerfChartData, tbind, call, tcheck, tlift, tret, tthrow.
    destruct (validatePID d (gd_pid data)); [now left|].
    destruct (checkIfPerfMeasureIsValid d _); [now left|].
    destruct (getFiltersQuery d (gd_filters data) PERFORMANCE) as [e|fq]; [now left|].
    destruct (getGroupFromTo d _ _ _ _ _ _) as [e|g]; [now left|].
    destruct (checkProjectAccess d _ _ _); [now left|].
    right. exists g. split; [reflexivity|]. split; [reflexivity|].
    now destruct (getPerfChartData_svc s _ _ _ _ _ _ _).
Qed.

Lemma failures_none {A} (chk : A -> option Exception) (l : list A) :
  failures chk l = [] <-> forall x, In x l -> chk x = None.
Proof.
  unfold failures. induction l as [|x l IH]; cbn [flat_map In].
  - split; [intros _ y [] | reflexivity].
  - destruct (chk x) as [e|] eqn:Hx; cbn [app].
    + split; [intros H; discriminate H|].
      intros H. specialize (H x (or_introl eq_refl)). congruence.
    + rewrite IH. split.
      * intros H y [<-|Hy]; [exact Hx | now apply H].
      * intros H y Hy. apply H. now right.
Qed.

Lemma failures_In {A} (chk : A -> option Exception) (l : list A) (e : Exception) :
  In e (failures chk l) <-> exists x, In x l /\ chk x = Some e.
Proof.
  unfold failures. rewrite in_flat_map. split.
  - intros [x [Hx He]]. exists x. split; [exact Hx|].
    destruct (chk x) as [e'|]; [|destruct He].
    destruct He as [->|[]]. reflexivity.
  - intros [x [Hx He]]. exists x. split; [exact Hx|]. rewrite He. now left.
Qed.

(** The joined validations of a list of project ids let the handler go on
    exactly when every id passes both checks; otherwise they throw what one
    of the checks threw for one of the ids. *)
Lemma validate_all_run (pids : list Json.value) (uid : option string)
    (headers : Headers) (tr : list Call) :
  (forall l, l <> [] -> In (first_rejection s l) l) ->
  let passes pid :=
    validatePID_any s pid = None
    /\ checkProjectAccess_any s pid uid (x_password headers) = None in
  ((forall pid, In pid pids -> passes pid)
   /\ validate_all s pids uid headers tr = (Return tt, tr))
  \/ (~ (forall pid, In pid pids -> passes pid)
      /\ exists e pid,
           validate_all s pids uid headers tr = (Throw e, tr)
           /\ In pid pids
           /\ (validatePID_any s pid = Some e
               \/ checkProjectAccess_any s pid uid (x_password headers) = Some e)).
Proof.
  intros Hfirst. cbn zeta. unfold validate_all.
  destruct (failures (validate_one s uid headers) pids) as [|e es] eqn:Hfail.
  - left. split; [|reflexivity]. intros pid Hin.
    pose proof (proj1 (failures_none _ pids) Hfail pid Hin) as Hone.
    unfold validate_one in Hone.
    destruct (validatePID_any s pid); [discriminate Hone | now split].
  - right.
    assert (Hin : In (first_rejection s (e :: es))
                     (failures (validate_one s uid headers) pids)).
    { rewrite Hfail. apply Hfirst. discriminate. }
    apply failures_In in Hin as [pid [Hpid He]]. unfold validate_one in He. split.
    + intros Hall. destruct (Hall pid Hpid) as [Hv Hacc].
      rewrite Hv in He. congruence.
    + exists (first_rejection s (e :: es)), pid. split; [reflexivity|].
      split; [exact Hpid|].
      destruct (validatePID_any s pid); [left; exact He | right; exact He].
Qed.

(** X28.  The two overview handlers answer for all the listed projects or
    for none.  Once [getPIDsArray] has returned the list (and, for the
    performance overview, the measure is a known one), the summary is
    computed, for the whole list, exactly when every project id of the list
    passes [validatePID] and [checkProjectAccess]; otherwise nothing is
    asked of the service and the handler throws what one of the two checks
    threw for one of the ids.  The rejection that arrives first is taken to
    be one of the rejections. *)
Theorem overview_all_or_nothing (data : GetOverallStatsDto) (uid : option string)
    (headers : Headers) (pids : list Json.value)
    (Hpids : getPIDsArray (os_pids data) (os_pid data) = Return pids)
    (Hfirst : forall l, l <> [] -> In (first_rejection s l) l) :
  let timezone := or_default (os_timezone data) (DEFAULT_TIMEZONE d) in
  let passes pid :=
    validatePID_any s pid = None
    /\ checkProjectAccess_any s pid uid (x_password headers) = None in
  let refused (out : Outcome Json.value * list Call) :=
    snd out = []
    /\ exists e pid,
         fst out = Throw e /\ In pid pids
         /\ (validatePID_any s pid = Some e
             \/ checkProjectAccess_any s pid uid (x_password headers) = Some e) in
  ((forall pid, In pid pids -> passes pid) ->
   run (getOverallStats d s data uid headers)
   = (getAnalyticsSummary s pids (os_period data) (os_from data) (os_to data)
        timezone (os_filters data),
      [CAnalyticsSummary pids]))
  /\ (~ (forall pid, In pid pids -> passes pid) ->
      refused (run (getOverallStats d s data uid headers)))
  /\ (checkIfPerfMeasureIsValid d (or_default (os_measure data) DEFAULT_MEASURE) = None ->
      ((forall pid, In pid pids -> passes pid) ->
       exists measure,
         run (getPerformanceOverallStats d s data uid headers)
         = (getPerformanceSummary s pids (os_period data) (os_from data) (os_to data)
              timezone (os_filters data) measure,
            [CPerformanceSummary pids measure]))
      /\ (~ (forall pid, In pid pids -> passes pid) ->
          refused (run (getPerformanceOverallStats d s data uid headers)))).
Proof.
  cbn zeta.
  pose proof (validate_all_run pids uid headers [] Hfirst) as Hrun. cbn zeta in Hrun.
  split; [|split; [|intros Hm; split]].
  - intros Hall. unfold run, getOverallStats, tbind, tlift, call. rewrite Hpids.
    destruct Hrun as [[_ ->]|[Hnot _]]; [|now destruct Hnot].
    now destruct (getAnalyticsSummary s pids _ _ _ _ _).
  - intros Hnot. unfold run, getOverallStats, tbind, tlift, call. rewrite Hpids.
    destruct Hrun as [[Hall _]|[_ [e [pid [-> [Hin He]]]]]]; [now destruct Hnot|].
    split; [reflexivity|]. now exists e, pid.
  - intros Hall.
    exists (if String.eqb (or_default (os_measure data) DEFAULT_MEASURE) "quantiles"
            then DEFAULT_MEASURE
            else or_default (os_measure data) DEFAULT_MEASURE).
    unfold run, getPerformanceOverallStats, tbind, tlift, tcheck, tret, call.
    rewrite Hpids, Hm.
    destruct Hrun as [[_ ->]|[Hnot _]]; [|now destruct Hnot].
    now destruct (getPerformanceSummary s pids _ _ _ _ _ _).
  - intros Hnot.
    unfold run, getPerformanceOverallStats, tbind, tlift, tcheck, tret, call.
    rewrite Hpids, Hm.
    destruct Hrun as [[Hall _]|[_ [e [pid [-> [Hin He]]]]]]; [now destruct Hnot|].
    split; [reflexivity|]. now exists e, pid.
Qed.

(** X29.  The measure of the performance overview.  A malformed [pids] is
    reported before the measure is looked at, and an unknown measure before
    any project id is checked.  The summary is never computed for the
    measure ['quantiles']: the median is computed in its place; any other
    measure is passed on as it is. *)
Theorem performance_overview_measure (data : GetOverallStatsDto)
    (uid : option string) (headers : Headers) :
  let requested := or_default (os_measure data) DEFAULT_MEASURE in
  let out := run (getPerformanceOverallStats d s data uid headers) in
  (forall e, getPIDsArray (os_pids data) (os_pid data) = Throw e ->
             out = (Throw e, []))
  /\ (forall pids e,
        getPIDsArray (os_pids data) (os_pid data) = Return pids ->
        checkIfPerfMeasureIsValid d requested = Some e ->
        out = (Throw e, []))
  /\ (forall pids measure,
        In (CPerformanceSummary pids measure) (snd out) ->
        measure <> "quantiles"
        /\ (requested = "quantiles" -> measure = "median")
        /\ (requested <> "quantiles" -> measure = requested)
        /\ getPIDsArray (os_pids data) (os_pid data) = Return pids
        /\ checkIfPerfMeasureIsValid d requested = None).
Proof.
  cbn zeta. unfold run, getPerformanceOverallStats, tbind, tlift, tcheck, tret, tthrow, call.
  split; [|split].
  - intros e He. now rewrite He.
  - intros pids e Hpids Hm. now rewrite Hpids, Hm.
  - intros pids measure.
    destruct (getPIDsArray (os_pids data) (os_pid data)) as [e|pids']; [intros []|].
    destruct (checkIfPerfMeasureIsValid d _) as [e|]; [intros []|].
    unfold validate_all.
    destruct (failures (validate_one s uid headers) pids'); [|intros []].
    unfold tret.
    destruct (getPerformanceSummary s pids' _ _ _ _ _ _); cbn [snd app In];
      (intros [H|[]]; injection H as <- <-;
       destruct (String.eqb (or_default (os_measure data) DEFAULT_MEASURE) "quantiles")
         eqn:Hq;
       [ apply String.eqb_eq in Hq; rewrite Hq; repeat split; try discriminate;
         try reflexivity; intros Hne; now destruct Hne
       | apply String.eqb_neq in Hq; repeat split; try assumption;
         try reflexivity; intros Heq; now destruct Hq ]).
Qed.

End EndpointFacts.

(** ** More sample requests *)

Section MoreSampleRuns.
Import Lodash Json Analytics IngestVocabulary Samples MoreSamples.
Import Endpoints EndpointSamples.

Lemma ingest_guard_rejection_witness :
  log (deps_with (Some bot_detected) None None no_filters all_tables_up)
      pageview_unique headers reqIP fresh
  = (Throw bot_detected, fresh)
  /\ logCustom (deps_with None (Some origin_refused) None no_filters all_tables_up)
       event_unique headers reqIP fresh
     = (Throw origin_refused, fresh).
Proof.
  split.
  - apply (proj1 (ingest_guard_rejection
                    (deps_with (Some bot_detected) None None no_filters all_tables_up)
                    bot_detected headers reqIP fresh)).
    now left.
  - apply (proj2 (ingest_guard_rejection
                    (deps_with None (Some origin_refused) None no_filters all_tables_up)
                    origin_refused headers reqIP fresh)).
    right. right. repeat split.
Defined.


Lemma noscript_guards_witness :
  noscript (deps_with (Some bot_detected) None None no_filters all_tables_up)
    "abcdefghijkl" headers reqIP fresh
  = (Return gif_response, fresh)
  /\ noscript (deps_with None (Some origin_refused) None no_filters all_tables_up)
       "abcdefghijkl" headers reqIP fresh
     = (Throw origin_refused, fresh).
Proof.
  split.
  - apply (proj1 (noscript_guards
                    (deps_with (Some bot_detected) None None no_filters all_tables_up)
                    "abcdefghijkl" headers reqIP fresh) bot_detected).
    reflexivity.
  - apply (proj2 (noscript_guards
                    (deps_with None (Some origin_refused) None no_filters all_tables_up)
                    "abcdefghijkl" headers reqIP fresh) origin_refused);
      reflexivity.
Defined.

Lemma read_access_denied_witness :
  getData (deps_with None None (Some access_denied) no_filters all_tables_up)
    data_7d None headers fresh
  = (Throw access_denied, fresh).
Proof.
  apply (proj1 (read_access_denied
                  (deps_with None None (Some access_denied) no_filters all_tables_up)
                  access_denied None headers fresh) data_7d).
  right. split; reflexivity.
Defined.


Lemma getLiveVisitors_nobody_witness :
  run (getLiveVisitors deps services "mnopqrstuvwx" None headers)
  = (Return (JArr []), [CRedisKeys "hb:*:mnopqrstuvwx"]).
Proof.
  apply (proj2 (getLiveVisitors_nobody deps services "mnopqrstuvwx" None headers)).
  - split; reflexivity.
  - reflexivity.
Defined.

Lemma getLiveVisitors_sessions_witness :
  snd (run (getLiveVisitors deps services "abcdefghijkl" None headers))
  = [CRedisKeys "hb:*:abcdefghijkl";
     CLiveVisitorsQuery [Some "17"; Some "42"] "1699989200" "abcdefghijkl"].
Proof.
  rewrite (getLiveVisitors_sessions deps services "abcdefghijkl" None headers
             ["17"; "42"]).
  - reflexivity.
  - split; reflexivity.
  - discriminate.
  - repeat constructor.
  - reflexivity.
Defined.

Lemma chart_errors_before_access_witness :
  let refusing :=
    deps_with None None (Some access_denied) (Throw filters_malformed) all_tables_up in
  run (getChartData refusing services data_7d None headers)
  = (Throw filters_malformed, [])
  /\ getData refusing data_7d None headers fresh = (Throw access_denied, fresh).
Proof.
  intros refusing.
  destruct (chart_errors_before_access refusing services data_7d None headers
              filters_malformed eq_refl) as [Hchart [_ Hdata]].
  split.
  - apply Hchart. now left.
  - now apply Hdata.
Defined.

Lemma overview_all_or_nothing_witness :
  let listed := Some (stringify (JArr [JStr "abcdefghijkl"; JNum "7"])) in
  snd (run (getOverallStats deps services (stats_request listed None) None headers))
  = []
  /\ exists e, fst (run (getOverallStats deps services (stats_request listed None)
                           None headers)) = Throw e.
Proof.
  intros listed.
  destruct (overview_all_or_nothing deps services (stats_request listed None) None
              headers [JStr "abcdefghijkl"; JNum "7"]) as [_ [Hrefused _]].
  - reflexivity.
  - intros [|e l] Hl; [now destruct Hl | now left].
  - destruct Hrefused as [Hcalls [e [pid [He _]]]].
    + intros Hall. destruct (Hall (JNum "7")) as [Hv _]; [right; now left|].
      discriminate Hv.
    + split; [exact Hcalls | now exists e].
Defined.

End MoreSampleRuns.
